(** * indie-finder: the dog-detection proxy (NestJS service and controller)

    A shallow embedding of
      - dog-detection.types.ts       (the DTOs),
      - dog-detection.service.ts     (debugLog, processWithRoboflow,
                                      extractDogImages, detectDogs),
      - dog-detection.controller.ts  (the detect-dogs endpoint),
      - config/configuration.ts      (AppConfig and the environment),
      - main.ts                      (the port the application listens on),
      - the test client script       (saveBase64Image, testDogDetection),
    together with the parts of the runtime they call: JavaScript values and
    truthiness, Node's base64 Buffer codec, axios' settling of a reply and the
    file-system calls of the debug log.

    Async functions are modelled in a small monad that carries the outcome
    (a value or a thrown exception), the service object and the list of
    effects performed, in program order. *)

From Stdlib Require Import ZArith List String Ascii Bool Lia Floats.
From Stdlib Require Import DecimalString.
From Stdlib Require DecimalZ DecimalPos.
Import ListNotations.

Local Open Scope list_scope.
Local Open Scope string_scope.

(* ================================================================== *)
(** ** JavaScript values *)
(* ================================================================== *)

Module JS.

(** A JavaScript [number] is an IEEE-754 binary64 value. *)
Definition number := float.
Bind Scope float_scope with number.

(** Falsy numbers are [0], [-0] and [NaN]. *)
Definition number_truthy (n : number) : bool :=
  negb ((n =? 0)%float || PrimFloat.is_nan n).

Definition string_truthy (s : string) : bool :=
  negb (s =? "").

(** [s || d] on strings. *)
Definition string_or (s d : string) : string :=
  if string_truthy s then s else d.

(** What [JSON.parse] produces, plus [undefined] (the value of a property
    that is not there). *)
#[local] Unset Elimination Schemes.
Inductive json : Type :=
| JUndefined
| JNull
| JBool (b : bool)
| JNumber (n : number)
| JString (s : string)
| JArray (items : list json)
| JObject (fields : list (string * json)).
#[local] Set Elimination Schemes.

Definition truthy (v : json) : bool :=
  match v with
  | JUndefined | JNull => false
  | JBool b => b
  | JNumber n => number_truthy n
  | JString s => string_truthy s
  | JArray _ | JObject _ => true
  end.

(** [a || b] *)
Definition or_else (a b : json) : json :=
  if truthy a then a else b.

(** [null] and [undefined]: reading a property of them throws. *)
Definition nullish (v : json) : bool :=
  match v with JUndefined | JNull => true | _ => false end.

(** [Array.isArray(v)] *)
Definition isArray (v : json) : bool :=
  match v with JArray _ => true | _ => false end.

Definition items_of (v : json) : list json :=
  match v with JArray l => l | _ => [] end.

Fixpoint assoc (k : string) (fields : list (string * json)) : json :=
  match fields with
  | [] => JUndefined
  | (k', v) :: rest => if k' =? k then v else assoc k rest
  end.

(** [v.k] for a property name [k] that is not an index and not [length]:
    [None] stands for the TypeError raised on [null] and [undefined]. None
    of these names exists on a number, a boolean, a string or an array,
    where the read yields [undefined]. *)
Definition prop (v : json) (k : string) : option json :=
  match v with
  | JUndefined | JNull => None
  | JObject fields => Some (assoc k fields)
  | _ => Some JUndefined
  end.

(** [v?.k] *)
Definition opt_prop (v : json) (k : string) : json :=
  match prop v k with
  | Some r => r
  | None => JUndefined
  end.

(** [v[0]] for a [v] that is neither [null] nor [undefined]: the first item
    of an array, the first character of a string, the property [0] of an
    object. *)
Definition index0 (v : json) : json :=
  match v with
  | JArray (first :: _) => first
  | JString (String c _) => JString (String c EmptyString)
  | JObject fields => assoc "0" fields
  | _ => JUndefined
  end.

(** [v?.[0]] *)
Definition opt_index0 (v : json) : json :=
  if nullish v then JUndefined else index0 v.

(** The double nearest to an integer (ties to even). *)
Definition number_of_Z (z : Z) : number :=
  SF2Prim (binary_normalize prec emax z 0 false).

Definition number_of_nat (n : nat) : number := number_of_Z (Z.of_nat n).

(** [v.length] for a [v] that is neither [null] nor [undefined]. *)
Definition length_of (v : json) : json :=
  match v with
  | JString s => JNumber (number_of_nat (String.length s))
  | JArray items => JNumber (number_of_nat (List.length items))
  | JObject fields => assoc "length" fields
  | _ => JUndefined
  end.

(** Neither an infinity nor NaN. *)
Definition is_finite (n : number) : bool :=
  (neg_infinity <? n)%float && (n <? infinity)%float.

(** [JSON.parse(JSON.stringify(v))], what the receiver of a JSON body gets
    for [v]: an infinity or NaN arrives as [null], minus zero as zero, an
    [undefined] item of an array as [null], and an [undefined] property is
    not sent. *)
Fixpoint wire (v : json) : json :=
  match v with
  | JNumber n =>
      if is_finite n then JNumber (if (n =? 0)%float then 0%float else n)
      else JNull
  | JArray items =>
      JArray (map (fun x => match wire x with JUndefined => JNull | w => w end)
                items)
  | JObject fields =>
      JObject (flat_map (fun kv => match wire (snd kv) with
                                   | JUndefined => []
                                   | w => [(fst kv, w)]
                                   end) fields)
  | other => other
  end.

(** [v === s] for a string literal [s]. *)
Definition strict_eq_string (v : json) (s : string) : bool :=
  match v with
  | JString t => t =? s
  | _ => false
  end.

(** [String.prototype.toLowerCase], on the ASCII letters. *)
Definition lower_ascii (c : ascii) : ascii :=
  let n := nat_of_ascii c in
  if (65 <=? n)%nat && (n <=? 90)%nat then ascii_of_nat (n + 32) else c.

Fixpoint toLowerCase (s : string) : string :=
  match s with
  | EmptyString => EmptyString
  | String c rest => String (lower_ascii c) (toLowerCase rest)
  end.

(** Template-literal rendering of an integer. *)
Definition show_Z (z : Z) : string :=
  NilZero.string_of_int (Z.to_int z).

Definition show_nat (n : nat) : string := show_Z (Z.of_nat n).

End JS.
Export JS.

(* ================================================================== *)
(** ** Node's base64 Buffer codec *)
(* ================================================================== *)

(** [Buffer.from(s, 'base64')] and [buf.toString('base64')] are built into
    Node. They are modelled after Node's decoder and encoder: the encoder
    writes RFC 4648 base64 with [=] padding; the decoder also accepts the
    URL-safe alphabet, skips every character outside the alphabet, stops at
    the first [=] and does not require padding. It never throws. *)
Module Buffer.

(** A buffer is a list of octets. *)
Definition t := list Z.

Definition octet (b : Z) : Prop := (0 <= b < 256)%Z.
Definition sextet (s : Z) : Prop := (0 <= s < 64)%Z.

Definition code (c : ascii) : Z := Z.of_nat (nat_of_ascii c).
Definition char (n : Z) : ascii := ascii_of_nat (Z.to_nat n).

(** The encoder's alphabet: A-Z a-z 0-9 + / *)
Definition base64_char (s : Z) : ascii :=
  if (s <? 26)%Z then char (s + 65)
  else if (s <? 52)%Z then char (s + 71)
  else if (s <? 62)%Z then char (s - 4)
  else if (s =? 62)%Z then "+"%char
  else "/"%char.

(** The decoder's table: both [+] and [-] are 62, both [/] and [_] are 63. *)
Definition unbase64 (c : ascii) : option Z :=
  let n := code c in
  if (65 <=? n)%Z && (n <=? 90)%Z then Some (n - 65)%Z
  else if (97 <=? n)%Z && (n <=? 122)%Z then Some (n - 71)%Z
  else if (48 <=? n)%Z && (n <=? 57)%Z then Some (n + 4)%Z
  else if (n =? 43)%Z || (n =? 45)%Z then Some 62%Z
  else if (n =? 47)%Z || (n =? 95)%Z then Some 63%Z
  else None.

(** Encoding: three octets give four sextets; one or two trailing octets
    give two or three sextets and padding. *)
Fixpoint encode_chars (bs : list Z) : list ascii :=
  match bs with
  | b0 :: b1 :: b2 :: rest =>
      base64_char (Z.shiftr b0 2)
      :: base64_char (Z.lor (Z.shiftl (Z.land b0 3) 4) (Z.shiftr b1 4))
      :: base64_char (Z.lor (Z.shiftl (Z.land b1 15) 2) (Z.shiftr b2 6))
      :: base64_char (Z.land b2 63)
      :: encode_chars rest
  | [b0; b1] =>
      [ base64_char (Z.shiftr b0 2);
        base64_char (Z.lor (Z.shiftl (Z.land b0 3) 4) (Z.shiftr b1 4));
        base64_char (Z.shiftl (Z.land b1 15) 2);
        "="%char ]
  | [b0] =>
      [ base64_char (Z.shiftr b0 2);
        base64_char (Z.shiftl (Z.land b0 3) 4);
        "="%char; "="%char ]
  | [] => []
  end.

(** [buf.toString('base64')] *)
Definition toString_base64 (buf : t) : string :=
  string_of_list_ascii (encode_chars buf).

(** The legal characters up to the first [=], as sextets. *)
Fixpoint sextets_of (cs : list ascii) : list Z :=
  match cs with
  | [] => []
  | c :: rest =>
      if Ascii.eqb c "="%char then []
      else match unbase64 c with
           | Some s => s :: sextets_of rest
           | None => sextets_of rest
           end
  end.

(** A group of four sextets gives three octets; an incomplete last group
    gives the octets it determines. *)
Fixpoint decode_sextets (ss : list Z) : list Z :=
  match ss with
  | s0 :: s1 :: s2 :: s3 :: rest =>
      Z.lor (Z.shiftl (Z.land s0 63) 2) (Z.shiftr (Z.land s1 48) 4)
      :: Z.lor (Z.shiftl (Z.land s1 15) 4) (Z.shiftr (Z.land s2 60) 2)
      :: Z.lor (Z.shiftl (Z.land s2 3) 6) (Z.land s3 63)
      :: decode_sextets rest
  | [s0; s1; s2] =>
      [ Z.lor (Z.shiftl (Z.land s0 63) 2) (Z.shiftr (Z.land s1 48) 4);
        Z.lor (Z.shiftl (Z.land s1 15) 4) (Z.shiftr (Z.land s2 60) 2) ]
  | [s0; s1] =>
      [ Z.lor (Z.shiftl (Z.land s0 63) 2) (Z.shiftr (Z.land s1 48) 4) ]
  | _ => []
  end.

(** [Buffer.from(s, 'base64')] *)
Definition from_base64 (s : string) : t :=
  decode_sextets (sextets_of (list_ascii_of_string s)).

End Buffer.

(* ================================================================== *)
(** ** dog-detection.types.ts and config/configuration.ts *)
(* ================================================================== *)

(** The interfaces of dog-detection.types.ts say what the code expects;
    nothing checks them at run time. What the service copies into a dog
    from the vendor's JSON ([confidence], the box, [imageData], a frame
    time stamp) is whatever value the JSON holds there. [id] is always a
    string that the service builds. *)
Record BoundingBox : Type := {
  x : json;
  y : json;
  width : json;
  height : json
}.

Record DetectedDog : Type := {
  id : string;
  confidence : json;
  bbox : BoundingBox;
  imageData : json;
  timestamp : json
}.

(** The two shapes [debugInfo] takes. *)
Inductive DebugInfo : Type :=
| TotalDetected (totalDetected : nat)
| ErrorInfo (error_message : string).

Record DetectionResult : Type := {
  success : bool;
  detectedDogs : list DetectedDog;
  error : option string;
  debugInfo : option DebugInfo
}.

(** [RoboflowResponse] and [RoboflowPrediction] are interfaces as well: the
    body of a reply is whatever JSON value the vendor sent, and so is each
    entry of its [predictions]. *)
Module RoboflowResponse.
Definition t : Type := json.
End RoboflowResponse.

Module AppConfig.
Record RoboflowConfig : Type := {
  apiKey : string;
  apiUrl : string
}.
Record t : Type := {
  port : Z;
  corsOrigin : string;
  roboflow : RoboflowConfig;
  debug : bool
}.
End AppConfig.

(* ================================================================== *)
(** ** Exceptions, effects and the environment *)
(* ================================================================== *)

Record AxiosResponse : Type := {
  status : Z;
  statusText : string;
  data : RoboflowResponse.t
}.

(** An [Error] object: the properties the service reads from it. *)
Record JsError : Type := {
  message : string;
  code : option string;
  response : option AxiosResponse
}.

Inductive Thrown : Type :=
| Error (e : JsError)
| BadRequestException (msg : string).

Definition new_Error (msg : string) : Thrown :=
  Error {| message := msg; code := None; response := None |}.

(** [error.message] *)
Definition message_of (e : Thrown) : string :=
  match e with
  | Error e => message e
  | BadRequestException msg => msg
  end.

(** [error.response] as the retry loop reads it; the [response] of a Nest
    exception is its body, which has no [status]. *)
Definition response_of (e : Thrown) : option AxiosResponse :=
  match e with
  | Error e => response e
  | BadRequestException _ => None
  end.

Inductive Res (A : Type) : Type :=
| Ok (a : A)
| Throw (e : Thrown).
Arguments Ok {A} a.
Arguments Throw {A} e.

(** The options object of an axios call. [signal] and [cancelToken] are the
    two cancellation options of axios. *)
Record AxiosRequestConfig : Type := {
  headers : list (string * string);
  timeout : Z;
  maxContentLength : option Z;   (* None: Infinity *)
  maxBodyLength : option Z;      (* None: Infinity *)
  validateStatus : Z -> bool;
  signal : option unit;
  cancelToken : option unit
}.

(** The JSON body posted to the vendor. *)
Record RequestBody : Type := {
  api_key : string;
  image_type : string;           (* inputs.image.type *)
  image_value : string           (* inputs.image.value *)
}.

Inductive Event : Type :=
| HttpPost (url : string) (body : RequestBody) (config : AxiosRequestConfig)
| SetTimeout (delayMs : number)
| Mkdir (dir : string)
| AppendFile (file : string) (text : string)
| ConsoleError (text : string).

(** What the network does with a request. *)
Inductive WireOutcome : Type :=
| NetworkFailure (msg : string) (errcode : string)
| Reply (r : AxiosResponse).

(** The world outside the service, for the duration of one request, and
    two conversions of the language that are not embedded: [toNumber] and
    [toString] on the values where they parse or print a number or walk
    through an array or an object; [None] when the conversion throws a
    TypeError (an object whose own [toString] is not a function). *)
Record Env : Type := {
  vendor : Z -> WireOutcome;       (* the exchange of the n-th request *)
  date_now : nat -> Z;             (* Date.now() when dog number k is built *)
  iso_now : string;                (* new Date().toISOString() *)
  mkdir_ok : string -> bool;
  appendFile_ok : string -> bool;
  toNumber : json -> option number;
  toString : json -> option string
}.

Record DogDetectionService : Type := {
  debug : bool;
  logsDir : string;
  configService : AppConfig.t
}.

(** An async computation: given the world and the service object, an
    outcome, the service object afterwards and the effects performed. *)
Definition M (A : Type) : Type :=
  Env -> DogDetectionService -> Res A * DogDetectionService * list Event.

Definition ret {A} (a : A) : M A :=
  fun _ this => (Ok a, this, []).

Definition throw {A} (e : Thrown) : M A :=
  fun _ this => (Throw e, this, []).

Definition bind {A B} (m : M A) (k : A -> M B) : M B :=
  fun env this =>
    match m env this with
    | (Ok a, this1, t1) =>
        match k a env this1 with
        | (r, this2, t2) => (r, this2, (t1 ++ t2)%list)
        end
    | (Throw e, this1, t1) => (Throw e, this1, t1)
    end.

(** [try { m } catch (error) { handler error }] *)
Definition try_catch {A} (m : M A) (handler : Thrown -> M A) : M A :=
  fun env this =>
    match m env this with
    | (Ok a, this1, t1) => (Ok a, this1, t1)
    | (Throw e, this1, t1) =>
        match handler e env this1 with
        | (r, this2, t2) => (r, this2, (t1 ++ t2)%list)
        end
    end.

Definition emit (e : Event) : M unit :=
  fun _ this => (Ok tt, this, [e]).

Definition ask : M Env :=
  fun env this => (Ok env, this, []).

Definition get_this : M DogDetectionService :=
  fun _ this => (Ok this, this, []).

Declare Scope js_scope.
Delimit Scope js_scope with js.
Notation "x <- m ;; k" := (bind m (fun x => k))
  (at level 61, m at next level, right associativity) : js_scope.
Notation "m ;; k" := (bind m (fun _ => k))
  (at level 61, right associativity) : js_scope.
Local Open Scope js_scope.

(** [for (const x of xs) { acc = body x acc }] *)
Fixpoint for_of {A S} (xs : list A) (body : A -> S -> M S) (acc : S) : M S :=
  match xs with
  | [] => ret acc
  | x :: rest => acc' <- body x acc ;; for_of rest body acc'
  end.

(** Reading a property, with the TypeError of [null] and [undefined]. *)
Definition get_prop (v : json) (k : string) : M json :=
  match prop v k with
  | Some r => ret r
  | None =>
      let what := match v with JNull => "null" | _ => "undefined" end in
      throw (new_Error ("Cannot read properties of " ++ what
                        ++ " (reading '" ++ k ++ "')"))
  end.

(** [ToNumber(v)]: the cases the language fixes, and [toNumber] elsewhere
    (a string that is not empty, an array, an object). *)
Definition to_number (env : Env) (v : json) : option number :=
  match v with
  | JUndefined => Some nan
  | JNull => Some 0%float
  | JBool b => Some (if b then 1%float else 0%float)
  | JNumber n => Some n
  | JString EmptyString => Some 0%float
  | _ => toNumber env v
  end.

Definition cannot_convert : Thrown :=
  new_Error "Cannot convert object to primitive value".

(** [v > bound] for a number [bound] *)
Definition greater_than (v : json) (bound : number) : M bool :=
  env <- ask ;;
  match to_number env v with
  | Some n => ret (bound <? n)%float
  | None => throw cannot_convert
  end.

(** [`${v}`]: [v] as a template literal prints it. *)
Definition template (v : json) : M string :=
  match v with
  | JString s => ret s
  | JUndefined => ret "undefined"
  | JNull => ret "null"
  | JBool b => ret (if b then "true" else "false")
  | _ =>
      env <- ask ;;
      match toString env v with
      | Some s => ret s
      | None => throw cannot_convert
      end
  end.

(** [xs.filter(callback)] *)
Fixpoint array_filter {A} (callback : A -> M bool) (xs : list A) : M (list A) :=
  match xs with
  | [] => ret []
  | x :: rest =>
      keep <- callback x ;;
      kept <- array_filter callback rest ;;
      ret (if keep then x :: kept else kept)
  end.

Definition outcome {A} (r : Res A * DogDetectionService * list Event) : Res A :=
  fst (fst r).
Definition this_after {A} (r : Res A * DogDetectionService * list Event)
  : DogDetectionService := snd (fst r).
Definition effects {A} (r : Res A * DogDetectionService * list Event)
  : list Event := snd r.
Arguments outcome {A} !r /.
Arguments this_after {A} !r /.
Arguments effects {A} !r /.

(* ================================================================== *)
(** ** The runtime calls of the service *)
(* ================================================================== *)

(** [fs.promises.mkdir(dir, { recursive: true })] *)
Definition fs_mkdir (dir : string) : M unit :=
  emit (Mkdir dir) ;;
  env <- ask ;;
  if mkdir_ok env dir then ret tt
  else throw (new_Error "EACCES: permission denied, mkdir").

(** [fs.promises.appendFile(file, text, 'utf8')] *)
Definition fs_appendFile (file text : string) : M unit :=
  emit (AppendFile file text) ;;
  env <- ask ;;
  if appendFile_ok env file then ret tt
  else throw (new_Error "EACCES: permission denied, open").

Definition console_error (text : string) : M unit :=
  emit (ConsoleError text).

(** [new Date().toISOString()] *)
Definition new_Date_toISOString : M string :=
  env <- ask ;; ret (iso_now env).

(** [Date.now()], read while dog number [k] is built. *)
Definition Date_now (k : nat) : M Z :=
  env <- ask ;; ret (date_now env k).

(** [path.join(a, b)] *)
Definition path_join (a b : string) : string := a ++ "/" ++ b.

(** [new Promise(resolve => setTimeout(resolve, delayMs))]: the effect
    records the delay handed to [setTimeout]. (The timer itself waits one
    millisecond when the delay is not a number from 1 to 2^31 - 1.) *)
Definition sleep (delayMs : number) : M unit :=
  emit (SetTimeout delayMs).

(** [axios.post(url, body, config)] for attempt [n]: the request goes out;
    a transport failure (no reply, or the timeout) rejects with an error that
    has no [response]; a reply resolves when [validateStatus] accepts its
    status and otherwise rejects with an error that carries the reply. *)
Definition axios_post (n : Z) (url : string) (body : RequestBody)
    (config : AxiosRequestConfig) : M AxiosResponse :=
  emit (HttpPost url body config) ;;
  env <- ask ;;
  match vendor env n with
  | NetworkFailure msg c =>
      throw (Error {| message := msg; code := Some c; response := None |})
  | Reply r =>
      if validateStatus config (status r) then ret r
      else throw (Error {| message := "Request failed with status code "
                                      ++ show_Z (status r);
                           code := Some (if (status r <? 500)%Z
                                         then "ERR_BAD_REQUEST"
                                         else "ERR_BAD_RESPONSE");
                           response := Some r |})
  end.

(* ================================================================== *)
(** ** dog-detection.service.ts *)
(* ================================================================== *)

Module Service.

(** The constructor: [debug] from the configuration, [logsDir] under the
    working directory. *)
Definition new_DogDetectionService (configService : AppConfig.t) (cwd : string)
  : DogDetectionService :=
  {| debug := AppConfig.debug configService;
     logsDir := path_join cwd "logs";
     configService := configService |}.

Definition newline : string := String (ascii_of_nat 10) EmptyString.

(** [debugLog(message, data)]. The pretty-printed [data] that follows the
    message in the log entry is left out of the entry's text. *)
Definition debugLog (msg : string) : M unit :=
  this <- get_this ;;
  if negb (debug this) then ret tt
  else
    try_catch
      (fs_mkdir (logsDir this) ;;
       timestamp <- new_Date_toISOString ;;
       let logMessage := "[" ++ timestamp ++ "] " ++ msg ++ newline ++ newline in
       let logFile := path_join (logsDir this) "roboflow-debug.log" in
       fs_appendFile logFile logMessage)
      (fun _ => console_error "Error writing to debug log:").

(** The options of the vendor call. *)
Definition request_config : AxiosRequestConfig :=
  {| headers := [("Content-Type", "application/json");
                 ("Accept", "application/json")];
     timeout := 60000;
     maxContentLength := None;
     maxBodyLength := None;
     validateStatus := fun _ => true;
     signal := None;
     cancelToken := None |}.

(** The inner function [makeRequest(attempt)] of [processWithRoboflow]. *)
Definition makeRequest (apiUrl apiKey dataUrl : string) (attempt : Z)
  : M RoboflowResponse.t :=
  try_catch
    (response <- axios_post attempt apiUrl
                   {| api_key := apiKey;
                      image_type := "base64";
                      image_value := dataUrl |}
                   request_config ;;
     if (400 <=? status response)%Z then
       throw (new_Error ("HTTP " ++ show_Z (status response) ++ ": "
                         ++ statusText response))
     else
       (* [JSON.stringify(response.data).length], computed for the log *)
       match data response with
       | JUndefined =>
           throw (new_Error
                    "Cannot read properties of undefined (reading 'length')")
       | _ => ret tt
       end ;;
       debugLog ("Successfully received response from Roboflow API (Attempt "
                 ++ show_Z attempt ++ ")") ;;
       ret (data response))
    (fun error =>
       debugLog ("Roboflow API Error (Attempt " ++ show_Z attempt ++ ")") ;;
       throw error).

(** [error.response?.status >= 400 && error.response?.status < 500 &&
     error.response?.status !== 429] *)
Definition is_client_error (error : Thrown) : bool :=
  match response_of error with
  | Some r => (400 <=? status r)%Z && (status r <? 500)%Z && negb (status r =? 429)%Z
  | None => false
  end.

(** How the retry loop ends: by [return], or by leaving the loop. *)
Inductive LoopExit : Type :=
| Returned (value : RoboflowResponse.t)
| Left (lastError : option Thrown).

(** [for (let attempt = 1; attempt <= retryCount; attempt++)], entered at
    [attempt], for whole numbers: the counters are integers here, as they
    are in the one call this program makes (with the defaults 3 and 1000).
    [Float64.retry_loop] below is the same loop on doubles. [fuel] bounds
    the number of iterations; [retryCount] iterations are all the loop on
    integers can make. *)
Fixpoint retry_loop (request : Z -> M RoboflowResponse.t)
    (retryCount initialDelayMs : Z) (fuel : nat) (attempt : Z)
    (lastError : option Thrown) : M LoopExit :=
  match fuel with
  | O => ret (Left lastError)
  | S fuel' =>
      if (attempt <=? retryCount)%Z then
        try_catch
          (value <- request attempt ;; ret (Returned value))
          (fun error =>
             let lastError := Some error in
             if is_client_error error then ret (Left lastError)
             else
               let delayMs := (initialDelayMs * 2 ^ (attempt - 1))%Z in
               sleep (number_of_Z delayMs) ;;
               retry_loop request retryCount initialDelayMs fuel' (attempt + 1)
                 lastError)
      else ret (Left lastError)
  end.

(** [lastError?.response?.data?.message || lastError?.message || '...'] *)
Definition errorMessage_of (lastError : option Thrown) : json :=
  let fallback := "Failed to process image with Roboflow after multiple attempts" in
  match lastError with
  | None => JString fallback
  | Some e =>
      let from_response :=
        match response_of e with
        | Some r => opt_prop (data r) "message"
        | None => JUndefined
        end in
      or_else from_response (JString (string_or (message_of e) fallback))
  end.

Definition processWithRoboflow (imageBuffer : Buffer.t) (mimetype : string)
    (retryCount initialDelayMs : Z) : M RoboflowResponse.t :=
  let base64Image := Buffer.toString_base64 imageBuffer in
  let dataUrl := "data:" ++ mimetype ++ ";base64," ++ base64Image in
  this <- get_this ;;
  let apiUrl := AppConfig.apiUrl (AppConfig.roboflow (configService this)) in
  let apiKey := AppConfig.apiKey (AppConfig.roboflow (configService this)) in
  debugLog ("Sending request to Roboflow API (Attempt "
            ++ show_Z (4 - retryCount) ++ "/3)") ;;
  exit <- retry_loop (makeRequest apiUrl apiKey dataUrl) retryCount
            initialDelayMs (Z.to_nat retryCount) 1 None ;;
  match exit with
  | Returned value => ret value
  | Left lastError =>
      errorMessage <- template (errorMessage_of lastError) ;;
      throw (new_Error ("Roboflow API Error: " ++ errorMessage))
  end.

(** A dog built from a [dynamic_crop] entry; [k] is [dogs.length]. *)
Definition crop_dog (now : Z) (k : nat) (value frame_timestamp : json)
    (timestamp : string) : DetectedDog :=
  {| id := "dog-" ++ show_Z now ++ "-" ++ show_nat k;
     confidence := JNumber 1.0%float;
     bbox := {| x := JNumber 0%float; y := JNumber 0%float;
                width := JNumber 0%float; height := JNumber 0%float |};
     imageData := value;
     timestamp := or_else frame_timestamp (JString timestamp) |}.

(** A dog built from a prediction, which is neither [null] nor [undefined]
    there; [k] is [dogs.length]. *)
Definition prediction_dog (now : Z) (k : nat) (detection imageData : json)
    (timestamp : string) : DetectedDog :=
  {| id := "dog-" ++ show_Z now ++ "-" ++ show_nat k;
     confidence := or_else (opt_prop detection "confidence") (JNumber 1.0%float);
     bbox := {| x := or_else (opt_prop detection "x") (JNumber 0%float);
                y := or_else (opt_prop detection "y") (JNumber 0%float);
                width := or_else (opt_prop detection "width") (JNumber 0%float);
                height := or_else (opt_prop detection "height") (JNumber 0%float) |};
     imageData := imageData;
     timestamp := JString timestamp |}.

(** The body of [for (const crop of output.dynamic_crop)]. *)
Definition process_crop (timestamp : string) (crop : json)
    (dogs : list DetectedDog) : M (list DetectedDog) :=
  try_catch
    (type <- get_prop crop "type" ;;
     if strict_eq_string type "base64" then
       value <- get_prop crop "value" ;;
       if truthy value then
         now <- Date_now (List.length dogs) ;;
         video_metadata <- get_prop crop "video_metadata" ;;
         let dog := crop_dog now (List.length dogs) value
                      (opt_prop video_metadata "frame_timestamp") timestamp in
         ret (dogs ++ [dog])%list
       else ret dogs
     else ret dogs)
    (fun _ => debugLog "Error processing crop" ;; ret dogs).

(** The body of [for (const output of roboflowResponse.outputs)]. *)
Definition process_output (timestamp : string) (output : json)
    (dogs : list DetectedDog) : M (list DetectedDog) :=
  dynamic_crop <- get_prop output "dynamic_crop" ;;
  if truthy dynamic_crop && isArray dynamic_crop then
    for_of (items_of dynamic_crop) (process_crop timestamp) dogs
  else ret dogs.

(** [pred.class.toLowerCase()] for a truthy [pred.class]: a value that is
    not a string has no such method. *)
Definition call_toLowerCase (class : json) : M string :=
  match class with
  | JString c => ret (toLowerCase c)
  | _ => throw (new_Error "pred.class.toLowerCase is not a function")
  end.

(** The callback of [predictions.filter(...)]:
    [pred.class && pred.class.toLowerCase() === 'dog' && pred.confidence > 0.5] *)
Definition is_dog_detection (pred : json) : M bool :=
  class <- get_prop pred "class" ;;
  if truthy class then
    lowered <- call_toLowerCase class ;;
    if lowered =? "dog" then
      confidence <- get_prop pred "confidence" ;;
      greater_than confidence 0.5%float
    else ret false
  else ret false.

(** The three places a prediction may keep its cropped image, in the order
    they are tried: [detection.crop?.image], [detection.crops?.[0]?.image]
    and [detection.image]; [JNull] is the initial [null]. *)
Definition pick_imageData (detection : json) : M json :=
  crop <- get_prop detection "crop" ;;
  if truthy (opt_prop crop "image") then ret (opt_prop crop "image")
  else
    crops <- get_prop detection "crops" ;;
    if truthy (opt_prop (opt_index0 crops) "image")
    then ret (opt_prop (opt_index0 crops) "image")
    else
      image <- get_prop detection "image" ;;
      if truthy image then ret image else ret JNull.

(** The body of [for (const detection of dogDetections)]. *)
Definition process_detection (timestamp : string) (detection : json)
    (dogs : list DetectedDog) : M (list DetectedDog) :=
  try_catch
    (imageData <- pick_imageData detection ;;
     if truthy imageData then
       now <- Date_now (List.length dogs) ;;
       ret (dogs ++ [prediction_dog now (List.length dogs) detection
                       imageData timestamp])%list
     else ret dogs)
    (fun _ => debugLog "Error processing dog detection" ;; ret dogs).

(** The [try] block of [extractDogImages]. *)
Definition extractDogImages_try (timestamp : string)
    (roboflowResponse : RoboflowResponse.t) : M (list DetectedDog) :=
  debugLog "Roboflow API Response" ;;
  outputs <- get_prop roboflowResponse "outputs" ;;
  dogs <- (if truthy outputs && isArray outputs then
             for_of (items_of outputs) (process_output timestamp) []
           else ret []) ;;
  dogs <- (if (List.length dogs =? 0)%nat then
             predictions <- get_prop roboflowResponse "predictions" ;;
             if truthy predictions && isArray predictions then
               debugLog "No dynamic_crop found, falling back to predictions" ;;
               dogDetections <- array_filter is_dog_detection
                                  (items_of predictions) ;;
               for_of dogDetections (process_detection timestamp) dogs
             else ret dogs
           else ret dogs) ;;
  ret dogs.

Definition extractDogImages (roboflowResponse : RoboflowResponse.t)
  : M (list DetectedDog) :=
  timestamp <- new_Date_toISOString ;;
  try_catch
    (extractDogImages_try timestamp roboflowResponse)
    (fun _ => debugLog "Error in extractDogImages" ;; ret []).

(** [`${(dog.imageData.length / 1024).toFixed(2)} KB`] for a dog with a
    truthy [imageData]: part of the data of the log entry, which
    [detectDogs] computes whether or not the entry is written. The division
    converts the length to a number. *)
Definition imageSize (dog : DetectedDog) : M unit :=
  if truthy (imageData dog) then
    env <- ask ;;
    match to_number env (length_of (imageData dog)) with
    | Some _ => ret tt
    | None => throw cannot_convert
    end
  else ret tt.

(** The argument of [detectDogs]. *)
Record File : Type := {
  buffer : Buffer.t;
  mimetype : string
}.

Definition detectDogs (file : File) : M DetectionResult :=
  try_catch
    (roboflowResponse <- processWithRoboflow (buffer file) (mimetype file) 3 1000 ;;
     detectedDogs <- extractDogImages roboflowResponse ;;
     for_of detectedDogs (fun dog _ => imageSize dog) tt ;;
     debugLog "Dog detection results" ;;
     ret {| success := true;
            detectedDogs := detectedDogs;
            error := None;
            debugInfo := Some (TotalDetected (List.length detectedDogs)) |})
    (fun error =>
       debugLog "Error in detectDogs" ;;
       ret {| success := false;
              detectedDogs := [];
              error := Some ("Failed to detect dogs: " ++ message_of error);
              debugInfo := Some (ErrorInfo (message_of error)) |}).

End Service.

(* ================================================================== *)
(** ** The retry loop in double precision *)
(* ================================================================== *)

(** [retryCount], [initialDelayMs], [attempt] and [delayMs] are numbers,
    that is doubles. [Service.processWithRoboflow] above reads them as the
    integers they hold in the calls this program makes (the defaults 3 and
    1000); here is the same function on doubles, for any arguments: the loop
    test and [attempt++] are the double comparison and addition, and the
    delay is the double [initialDelayMs * Math.pow(2, attempt - 1)]. A loop
    on doubles need not end, so the model observes a bounded number [fuel]
    of iterations and says when the loop was still running after them. The
    requests are numbered [k = 1, 2, ...] for the vendor's answers. The
    texts of the log messages leave the numbers out. *)
Module Float64.

(** The integer a double holds; the integer part for another finite double,
    0 for an infinity and NaN. *)
Definition int_value (x : number) : Z :=
  match Prim2SF x with
  | S754_finite s m e =>
      let v := if (0 <=? e)%Z then (Z.pos m * 2 ^ e)%Z
               else (Z.pos m / 2 ^ (- e))%Z in
      if s then (- v)%Z else v
  | _ => 0%Z
  end.

Definition is_integer (x : number) : bool :=
  Leibniz.eqb x (number_of_Z (int_value x)).

(** [Math.pow(2, x)]: the power of two for an [x] that holds an integer
    (the loop calls it on [attempt - 1], which does), with the results for
    the infinities and NaN. A power with a fractional exponent is not
    modelled: it is NaN here. *)
Definition Math_pow2 (x : number) : number :=
  match Prim2SF x with
  | S754_nan => nan
  | S754_infinity false => infinity
  | S754_infinity true => 0%float
  | S754_zero _ => 1%float
  | S754_finite _ _ _ =>
      if is_integer x then Z.ldexp 1%float (int_value x) else nan
  end.

(** [for (let attempt = 1; attempt <= retryCount; attempt++)], entered at
    [attempt] before request number [k]. [None]: the loop was still running
    after [fuel] iterations. *)
Fixpoint retry_loop (request : Z -> M RoboflowResponse.t)
    (retryCount initialDelayMs : number) (fuel : nat) (k : Z)
    (attempt : number) (lastError : option Thrown)
  : M (option Service.LoopExit) :=
  if (attempt <=? retryCount)%float then
    match fuel with
    | O => ret None
    | S fuel' =>
        try_catch
          (value <- request k ;; ret (Some (Service.Returned value)))
          (fun error =>
             let lastError := Some error in
             if Service.is_client_error error
             then ret (Some (Service.Left lastError))
             else
               let delayMs :=
                 (initialDelayMs * Math_pow2 (attempt - 1))%float in
               sleep delayMs ;;
               retry_loop request retryCount initialDelayMs fuel' (k + 1)
                 (attempt + 1)%float lastError)
    end
  else ret (Some (Service.Left lastError)).

(** [processWithRoboflow], observed for [fuel] iterations of its loop:
    [None] when the loop was still running then. *)
Definition processWithRoboflow (fuel : nat) (imageBuffer : Buffer.t)
    (mimetype : string) (retryCount initialDelayMs : number)
  : M (option RoboflowResponse.t) :=
  let base64Image := Buffer.toString_base64 imageBuffer in
  let dataUrl := "data:" ++ mimetype ++ ";base64," ++ base64Image in
  this <- get_this ;;
  let apiUrl := AppConfig.apiUrl (AppConfig.roboflow (configService this)) in
  let apiKey := AppConfig.apiKey (AppConfig.roboflow (configService this)) in
  Service.debugLog "Sending request to Roboflow API" ;;
  exit <- retry_loop (Service.makeRequest apiUrl apiKey dataUrl) retryCount
            initialDelayMs fuel 1 1%float None ;;
  match exit with
  | None => ret None
  | Some (Service.Returned value) => ret (Some value)
  | Some (Service.Left lastError) =>
      errorMessage <- template (Service.errorMessage_of lastError) ;;
      throw (new_Error ("Roboflow API Error: " ++ errorMessage))
  end.

End Float64.

(* ================================================================== *)
(** ** dog-detection.controller.ts *)
(* ================================================================== *)

Module Controller.

(** The request body. [DetectDogsDto] is an interface, so nothing checks
    the body at run time: [image] is whatever JSON value the client sent,
    [undefined] when the key is missing. *)
Record DetectDogsDto : Type := {
  image : json
}.

Definition is_letter (c : ascii) : bool :=
  let n := nat_of_ascii c in
  ((97 <=? n) && (n <=? 122) || (65 <=? n) && (n <=? 90))%nat.

Definition is_quote (c : ascii) : bool := Ascii.eqb c (ascii_of_nat 34).

(** [s] without the prefix [p], when it starts with [p]. *)
Fixpoint strip_prefix (p s : string) : option string :=
  match p, s with
  | EmptyString, _ => Some s
  | String a p', String b s' => if Ascii.eqb a b then strip_prefix p' s' else None
  | String _ _, EmptyString => None
  end.

(** The longest prefix of letters, and what follows it. *)
Fixpoint span_letters (s : string) : string * string :=
  match s with
  | String c rest =>
      if is_letter c then
        let (letters, tail) := span_letters rest in (String c letters, tail)
      else (EmptyString, s)
  | EmptyString => (EmptyString, EmptyString)
  end.

Fixpoint no_quote (s : string) : bool :=
  match s with
  | EmptyString => true
  | String c rest => negb (is_quote c) && no_quote rest
  end.

(** The match of [image] against the controller's [base64Regex]: the literal
    [data:image/], a group of letters [a-zA-Z]*, the literal [;base64,] and a
    group of characters other than the double quote, up to the end of the
    string. The result holds the two groups. *)
Definition base64Regex (image : string) : option (string * string) :=
  match strip_prefix "data:image/" image with
  | None => None
  | Some rest =>
      let (letters, tail) := span_letters rest in
      match strip_prefix ";base64," tail with
      | None => None
      | Some payload =>
          if no_quote payload then Some (letters, payload) else None
      end
  end.

Definition invalid_format : string :=
  "Invalid image format. Please provide a valid base64 encoded image.".

Definition detectDogs (body : DetectDogsDto) : M DetectionResult :=
  let image := image body in
  if negb (truthy image) then
    throw (BadRequestException "No image data provided")
  else
    match image with
    | JString image =>
        match base64Regex image with
        | None => throw (BadRequestException invalid_format)
        | Some (mimeType, base64Data) =>
            try_catch
              (let buffer := Buffer.from_base64 base64Data in
               let file := {| Service.buffer := buffer;
                              Service.mimetype := "image/" ++ mimeType |} in
               result <- Service.detectDogs file ;;
               ret result)
              (fun error =>
                 console_error "Error in detect-dogs endpoint:" ;;
                 throw (BadRequestException
                          (string_or (message_of error) "Failed to process image")))
        end
    | _ =>
        (* a truthy value that is not a string has no [match] method *)
        throw (new_Error "image.match is not a function")
    end.

(** The status Nest answers with: 201 for a POST handler that returns, the
    status of an HttpException, 500 for any other exception. *)
Definition http_status (r : Res DetectionResult) : Z :=
  match r with
  | Ok _ => 201
  | Throw (BadRequestException _) => 400
  | Throw (Error _) => 500
  end.

End Controller.

(* ================================================================== *)
(** ** config/configuration.ts and main.ts *)
(* ================================================================== *)

Module Configuration.

(** [process.env]: the value of a variable, [None] when it is not set. *)
Definition ProcessEnv := string -> option string.

(** [process.env.NAME || fallback] *)
Definition env_or (env : ProcessEnv) (name fallback : string) : string :=
  match env name with
  | Some v => string_or v fallback
  | None => fallback
  end.

(** The white space [parseInt] skips, among the characters below 256 that
    the strings of this model are made of: tab, line feed, vertical tab,
    form feed, carriage return, space and the no-break space. *)
Definition is_space (c : ascii) : bool :=
  let n := nat_of_ascii c in
  ((9 <=? n) && (n <=? 13) || (n =? 32) || (n =? 160))%nat.

Definition is_digit (c : ascii) : bool :=
  let n := nat_of_ascii c in
  ((48 <=? n) && (n <=? 57))%nat.

Fixpoint skip_spaces (s : string) : string :=
  match s with
  | String c rest => if is_space c then skip_spaces rest else s
  | EmptyString => EmptyString
  end.

(** The value of the longest prefix of decimal digits, read from the left
    with [acc] the value of the digits read so far; [None] when [s] does not
    start with a digit and [seen] says none was read before. *)
Fixpoint digits_value (s : string) (acc : Z) (seen : bool) : option Z :=
  match s with
  | String c rest =>
      if is_digit c
      then digits_value rest (10 * acc + (Z.of_nat (nat_of_ascii c) - 48))%Z true
      else if seen then Some acc else None
  | EmptyString => if seen then Some acc else None
  end.

(** [parseInt(s, 10)]: white space is skipped, a sign is read, then the
    longest run of digits; [None] is NaN (no digit there). The value is the
    exact integer the digits denote; the number [parseInt] returns is the
    double nearest to it, which is that integer up to 2^53. *)
Definition parseInt10 (s : string) : option Z :=
  match skip_spaces s with
  | String c rest =>
      if Ascii.eqb c "-"%char then option_map Z.opp (digits_value rest 0 false)
      else if Ascii.eqb c "+"%char then digits_value rest 0 false
      else digits_value (String c rest) 0 false
  | EmptyString => None
  end.

(** The object the default export of configuration.ts returns; [port] is a
    number, NaN included. *)
Record t : Type := {
  port : option Z;
  corsOrigin : string;
  roboflow : AppConfig.RoboflowConfig;
  debug : bool
}.

Definition configuration (env : ProcessEnv) : t :=
  {| port := parseInt10 (env_or env "PORT" "5001");
     corsOrigin := env_or env "CORS_ORIGIN" "http://localhost:3000";
     roboflow := {| AppConfig.apiKey := env_or env "ROBOFLOW_API_KEY" "";
                    AppConfig.apiUrl := env_or env "ROBOFLOW_API_URL" "" |};
     debug := match env "DEBUG_MODE" with
              | Some v => v =? "true"
              | None => false
              end |}.

(** [ConfigService.get(key)] for a top-level key of the configuration that
    app.module.ts loads. Besides the loaded configuration the library
    consults [process.env] under the same name; the model gives the
    environment precedence. Releases of the library differ in that order,
    which does not matter when the environment has no variable of that
    name: the properties about [debug] and [port] assume so. What
    [process.env] holds is a string. The nested keys [roboflow.apiUrl] and
    [roboflow.apiKey] are only found in the loaded configuration. *)
Inductive Found (A : Type) : Type :=
| FromEnv (v : string)
| FromConfig (a : A).

Arguments FromEnv {A} v.
Arguments FromConfig {A} a.

Definition get {A} (env : ProcessEnv) (key : string) (internal : t -> A)
  : Found A :=
  match env key with
  | Some v => FromEnv v
  | None => FromConfig (internal (configuration env))
  end.

(** What [app.listen] is called with: a number, or the text of an
    environment variable. The application listens on that port when it is
    a port number (1 to 65535) that the system grants; [app.listen] throws
    on a number outside 0 to 65535. *)
Inductive Port : Type :=
| PortNumber (n : Z)
| PortText (s : string).

(** main.ts: [configService.get<number>('port') || 5000], the port that
    is handed to [app.listen]. *)
Definition listen_port (env : ProcessEnv) : Port :=
  match get env "port" port with
  | FromEnv v => if string_truthy v then PortText v else PortNumber 5000
  | FromConfig (Some p) => if (p =? 0)%Z then PortNumber 5000 else PortNumber p
  | FromConfig None => PortNumber 5000
  end.

(** [configService.get<boolean>('debug', false)], as the truth value that
    [debugLog] tests. *)
Definition get_debug (env : ProcessEnv) : bool :=
  match get env "debug" debug with
  | FromEnv v => string_truthy v
  | FromConfig b => b
  end.

(** The configuration as the service reads it through [ConfigService]. The
    service reads [debug] and the two [roboflow] keys; [port], which only
    main.ts reads, is kept as an integer there, 0 standing for NaN. *)
Definition configService (env : ProcessEnv) : AppConfig.t :=
  let config := configuration env in
  {| AppConfig.port := match port config with Some p => p | None => 0%Z end;
     AppConfig.corsOrigin := corsOrigin config;
     AppConfig.roboflow := roboflow config;
     AppConfig.debug := get_debug env |}.

End Configuration.

(* ================================================================== *)
(** ** The test client (the script that posts test-dog.jpg to the API) *)
(* ================================================================== *)

Module TestClient.

(** [s.split(sep)] for a non-empty separator: the pieces between the
    occurrences of [sep], found from the left and without overlap. [skip]
    counts the characters of an occurrence still to pass over; [piece] is the
    piece being read. *)
Fixpoint split_from (sep : string) (skip : nat) (piece : string) (s : string)
  : list string :=
  match s with
  | EmptyString => [piece]
  | String c rest =>
      match skip with
      | S skip' => split_from sep skip' piece rest
      | O =>
          if String.prefix sep s
          then piece :: split_from sep (String.length sep - 1) EmptyString rest
          else split_from sep 0 (piece ++ String c EmptyString) rest
      end
  end.

Definition split (sep s : string) : list string := split_from sep 0 EmptyString s.

(** [pieces.pop()] on the result of a split, which is never empty. *)
Definition pop (pieces : list string) : string := List.last pieces EmptyString.

(** [saveBase64Image(base64Data, outputPath)]: the octets written to
    [outputPath]. Writing with the encoding base64 decodes the string the
    way [Buffer.from] does. *)
Definition saveBase64Image (base64Data : string) : Buffer.t :=
  let base64Image := pop (split ";base64," base64Data) in
  Buffer.from_base64 base64Image.

(** What the [catch] of the script prints: [error.response?.data], the body
    of a reply that is not 2xx, or else [error.message]. *)
Inductive ErrorDetail : Type :=
| ReplyBody (statusCode : Z) (msg : string)
| PayloadTooLarge
| Message (msg : string).

(** What the script prints, by kind, and the files it writes ([Saved]: the
    name of the file in the output directory and its octets). *)
Inductive Output : Type :=
| Sending
| ResponseStatus (status : Z)
| Processed (dogs : nat)
| Saving
| Saved (file : string) (octets : Buffer.t)
| NoImageData (index : nat)
| NoDogsDetected
| ErrorTesting (detail : ErrorDetail).

(** The body Nest sends for an exception: the message of an HttpException,
    and a fixed text for any other error. *)
Definition error_body (e : Thrown) : ErrorDetail :=
  match e with
  | BadRequestException msg => ReplyBody 400 msg
  | Error _ => ReplyBody 500 "Internal server error"
  end.

(** The body the script posts for the image file [imageBuffer]. *)
Definition request_for (imageBuffer : Buffer.t) : Controller.DetectDogsDto :=
  {| Controller.image :=
       JString ("data:image/jpeg;base64," ++ Buffer.toString_base64 imageBuffer) |}.

(** The JSON body parser that runs in front of the handler reads a body of
    at most 100 kB (main.ts sets no other limit) and answers 413 to a longer
    one; the handler does not run then. *)
Definition json_limit : Z := 102400.

(** The length of the body the script posts: the image string between a
    prefix of ten characters and two closing ones. *)
Definition body_length (imageBuffer : Buffer.t) : Z :=
  12 + Z.of_nat (String.length ("data:image/jpeg;base64,"
                                ++ Buffer.toString_base64 imageBuffer)).

(** The callback of [detectedDogs.forEach] on a dog as it arrives, that is
    with its [imageData] gone through JSON: [None] when the callback throws,
    which happens when a truthy [imageData] is not a string and has no
    [split]. *)
Definition save_dog (index : nat) (dog : DetectedDog) : option Output :=
  let received := wire (imageData dog) in
  if truthy received then
    match received with
    | JString base64Data =>
        Some (Saved ("detected-dog-" ++ show_nat (index + 1) ++ ".jpg")
                (saveBase64Image base64Data))
    | _ => None
    end
  else Some (NoImageData (index + 1)).

(** [forEach] from [index] on: the outputs, and whether it threw. *)
Fixpoint save_dogs (index : nat) (dogs : list DetectedDog) : list Output * bool :=
  match dogs with
  | [] => ([], false)
  | dog :: rest =>
      match save_dog index dog with
      | Some out =>
          let (outs, threw) := save_dogs (S index) rest in (out :: outs, threw)
      | None => ([], true)
      end
  end.

(** [testDogDetection] for the image file [imageBuffer], given what the
    handler does with the body when the body reaches it. The script's axios
    rejects a reply whose status is not 2xx. *)
Definition testDogDetection (imageBuffer : Buffer.t)
    (handler : Res DetectionResult) : list Output :=
  Sending ::
  if (json_limit <? body_length imageBuffer)%Z
  then [ErrorTesting PayloadTooLarge]
  else
  match handler with
  | Ok data =>
      ResponseStatus (Controller.http_status handler) ::
      if success data then
        Processed (List.length (detectedDogs data)) ::
        match detectedDogs data with
        | [] => []
        | dogs =>
            let (outs, threw) := save_dogs 0 dogs in
            (Saving :: outs
             ++ if threw
                then [ErrorTesting (Message "base64Data.split is not a function")]
                else [])%list
        end
      else [NoDogsDetected]
  | Throw e => [ErrorTesting (error_body e)]
  end.

End TestClient.

(* ================================================================== *)
(** ** Observations on effect lists *)
(* ================================================================== *)

(** The log-file operations of [debugLog]. *)
Definition is_logfile_op (e : Event) : bool :=
  match e with
  | Mkdir _ | AppendFile _ _ => true
  | _ => false
  end.

(** The network-visible steps of a run: requests and waits. *)
Inductive Step : Type :=
| Request
| Wait (delayMs : number).

Definition step_of (e : Event) : list Step :=
  match e with
  | HttpPost _ _ _ => [Request]
  | SetTimeout d => [Wait d]
  | _ => []
  end.

Definition steps (t : list Event) : list Step := flat_map step_of t.

Definition is_request (s : Step) : bool :=
  match s with Request => true | Wait _ => false end.

(** The number of requests sent to the vendor. *)
Definition request_count (t : list Event) : nat :=
  List.length (filter is_request (steps t)).

(** The delays of the waits, in order. *)
Definition delays (t : list Event) : list number :=
  flat_map (fun s => match s with Wait d => [d] | Request => [] end) (steps t).

(** The bodies posted to the vendor, in order. *)
Definition posted (t : list Event) : list RequestBody :=
  flat_map (fun e => match e with HttpPost _ b _ => [b] | _ => [] end) t.

(** The options of the vendor calls, in order. *)
Definition configs (t : list Event) : list AxiosRequestConfig :=
  flat_map (fun e => match e with HttpPost _ _ c => [c] | _ => [] end) t.

(** An attempt fails when the exchange fails, when the vendor answers with
    a status of 400 or more, or when the reply has no body to measure. *)
Definition attempt_fails (w : WireOutcome) : bool :=
  match w with
  | NetworkFailure _ _ => true
  | Reply r =>
      (400 <=? status r)%Z
      || match data r with JUndefined => true | _ => false end
  end.

(** The message of the error [makeRequest] throws for a failed attempt. *)
Definition failure_message (w : WireOutcome) : string :=
  match w with
  | NetworkFailure msg _ => msg
  | Reply r =>
      if (400 <=? status r)%Z
      then "HTTP " ++ show_Z (status r) ++ ": " ++ statusText r
      else "Cannot read properties of undefined (reading 'length')"
  end.

(** The attempts [1 .. m]. *)
Definition attempts (m : nat) : list Z := map Z.of_nat (seq 1 m).

(** The delay after failed attempt [i]: with the counters read as integers,
    the double of [d * 2^(i-1)]; in double precision, the double product of
    [d] and the power of two. *)
Definition backoff (d : Z) (i : Z) : number := number_of_Z (d * 2 ^ (i - 1)).

Definition backoff64 (d : number) (i : Z) : number :=
  (d * Z.ldexp 1%float (i - 1))%float.


(* ================================================================== *)
(** ** Vocabulary of the properties *)
(* ================================================================== *)

(** Requests go out with the options of [request_config]; the log file is
    touched only by a service whose [debug] flag is set. *)
Definition allowed (this : DogDetectionService) (e : Event) : Prop :=
  match e with
  | HttpPost _ _ config => config = Service.request_config
  | SetTimeout _ => True
  | ConsoleError _ => True
  | Mkdir _ | AppendFile _ _ => debug this = true
  end.

(** The effects of a computation that stays on the machine: the debug log
    and the console. *)
Definition is_log_event (e : Event) : bool :=
  match e with
  | Mkdir _ | AppendFile _ _ | ConsoleError _ => true
  | _ => false
  end.

(** Every effect is one of those. *)
Definition log_only (_ : DogDetectionService) (e : Event) : Prop :=
  is_log_event e = true.

(** [m] never writes the service object, and every effect it performs
    satisfies [P]. *)
Definition obeys_with (P : DogDetectionService -> Event -> Prop) {A} (m : M A)
  : Prop :=
  forall env this,
    this_after (m env this) = this /\ Forall (P this) (effects (m env this)).

Abbreviation obeys m := (obeys_with allowed m).

Abbreviation local m := (obeys_with log_only m).

(** What [makeRequest] makes of the exchange of an attempt. *)
Definition attempt_result (w : WireOutcome) : Res RoboflowResponse.t :=
  match w with
  | NetworkFailure msg c =>
      Throw (Error {| message := msg; code := Some c; response := None |})
  | Reply r =>
      if attempt_fails w then Throw (new_Error (failure_message w))
      else Ok (data r)
  end.

(** The body [makeRequest] posts. *)
Definition request_body (apiKey dataUrl : string) : RequestBody :=
  {| api_key := apiKey; image_type := "base64"; image_value := dataUrl |}.

(** The steps of the loop entered at [attempt] with [remaining] iterations
    to go, read off the vendor's behaviour. *)
Fixpoint loop_steps (v : Z -> WireOutcome) (delay : Z -> number)
    (remaining : nat) (attempt : Z) : list Step :=
  match remaining with
  | O => []
  | S k =>
      Request ::
      (if attempt_fails (v attempt)
       then Wait (delay attempt) :: loop_steps v delay k (attempt + 1)
       else [])
  end.

(** How that loop ends. *)
Fixpoint loop_exit (v : Z -> WireOutcome) (remaining : nat) (attempt : Z)
    (lastError : option Thrown) : Service.LoopExit :=
  match remaining with
  | O => Service.Left lastError
  | S k =>
      match attempt_result (v attempt) with
      | Ok value => Service.Returned value
      | Throw e => loop_exit v k (attempt + 1) (Some e)
      end
  end.

(** The same loop, driven by the number of iterations left. *)
Fixpoint counted_loop (request : Z -> M RoboflowResponse.t)
    (delay : Z -> number) (remaining : nat) (attempt : Z)
    (lastError : option Thrown) : M Service.LoopExit :=
  match remaining with
  | O => ret (Service.Left lastError)
  | S remaining' =>
      try_catch
        (value <- request attempt ;; ret (Service.Returned value))
        (fun error =>
           if Service.is_client_error error then ret (Service.Left (Some error))
           else
             sleep (delay attempt) ;;
             counted_loop request delay remaining' (attempt + 1)
               (Some error))
  end.

(** The data URL [processWithRoboflow] builds from the buffer. *)
Definition data_url (mimetype : string) (imageBuffer : Buffer.t) : string :=
  "data:" ++ mimetype ++ ";base64," ++ Buffer.toString_base64 imageBuffer.


(** The error [makeRequest] throws for a failed attempt. *)
Definition attempt_error (w : WireOutcome) : Thrown :=
  match w with
  | NetworkFailure msg c =>
      Error {| message := msg; code := Some c; response := None |}
  | Reply _ => new_Error (failure_message w)
  end.

(** The message that reaches the caller of [processWithRoboflow] when the
    last attempt failed with [w]. *)
Definition upstream_message (w : WireOutcome) : string :=
  string_or (failure_message w)
    "Failed to process image with Roboflow after multiple attempts".

(** The message of the error that ends [processWithRoboflow] when the loop
    is left with [lastError], an error that carries no reply. *)
Definition last_message (lastError : option Thrown) : string :=
  match lastError with
  | None => "Failed to process image with Roboflow after multiple attempts"
  | Some e =>
      string_or (message_of e)
        "Failed to process image with Roboflow after multiple attempts"
  end.

(** The error the loop holds carries no reply. *)
Definition no_response (lastError : option Thrown) : Prop :=
  match lastError with
  | Some e => response_of e = None
  | None => True
  end.

(** A [dynamic_crop] entry that yields a dog: its [type] is the string
    [base64] and its [value] is truthy. *)
Definition is_base64_crop (crop : json) : bool :=
  strict_eq_string (opt_prop crop "type") "base64" && truthy (opt_prop crop "value").

(** The entries of [output.dynamic_crop], when that is an array. *)
Definition crops_of_output (output : json) : list json :=
  items_of (opt_prop output "dynamic_crop").

(** All base64 crop entries of the response, in order. *)
Definition base64_crops (outputs : json) : list json :=
  filter is_base64_crop (flat_map crops_of_output (items_of outputs)).

(** The dogs built from [l], numbered from [k]. *)
Fixpoint number_from {A} (mk : nat -> A -> DetectedDog) (k : nat) (l : list A)
  : list DetectedDog :=
  match l with
  | [] => []
  | a :: rest => mk k a :: number_from mk (S k) rest
  end.

(** The id of the dog at position [k] of a response. *)
Definition dog_id (env : Env) (k : nat) : string :=
  "dog-" ++ show_Z (date_now env k) ++ "-" ++ show_nat k.

(** The box of a dog taken from a crop. *)
Definition zero_bbox : BoundingBox :=
  {| x := JNumber 0%float; y := JNumber 0%float;
     width := JNumber 0%float; height := JNumber 0%float |}.

(** The dog that crop entry number [k] gives: the entry's [value] as image,
    the fixed confidence 1 and the zero box. *)
Definition dog_of_crop (env : Env) (k : nat) (crop : json) : DetectedDog :=
  {| id := dog_id env k;
     confidence := JNumber 1.0%float;
     bbox := zero_bbox;
     imageData := opt_prop crop "value";
     timestamp := or_else (opt_prop (opt_prop crop "video_metadata")
                             "frame_timestamp")
                    (JString (iso_now env)) |}.

(** The class of a prediction equals [dog], case-insensitively. *)
Definition class_is_dog (pred : json) : bool :=
  match opt_prop pred "class" with
  | JString c => toLowerCase c =? "dog"
  | _ => false
  end.

(** The confidence of a prediction, as a number, is strictly greater than
    0.5. *)
Definition exceeds_half (env : Env) (v : json) : bool :=
  match to_number env v with
  | Some n => (0.5 <? n)%float
  | None => false
  end.

Definition confident (env : Env) (pred : json) : bool :=
  exceeds_half env (opt_prop pred "confidence").

(** The three places where a prediction may carry its image: [crop.image],
    [crops[0].image] and [image]. *)
Definition image_places (pred : json) : list json :=
  [ opt_prop (opt_prop pred "crop") "image";
    opt_prop (opt_index0 (opt_prop pred "crops")) "image";
    opt_prop pred "image" ].

(** A prediction carries image data when one of the places holds a truthy
    value; its image is the first such value. *)
Definition carries_image (pred : json) : bool :=
  existsb truthy (image_places pred).

Definition image_of (pred : json) : json :=
  match find truthy (image_places pred) with
  | Some image => image
  | None => JNull
  end.

(** The predictions that the fallback includes. *)
Definition eligible (env : Env) (pred : json) : bool :=
  class_is_dog pred && confident env pred && carries_image pred.

(** The predictions that cannot be read: an entry that is [null], one whose
    class is a truthy value other than a string, and a dog whose confidence
    cannot be converted to a number. *)
Definition unreadable (env : Env) (pred : json) : bool :=
  nullish pred
  || match opt_prop pred "class" with
     | JString _ => false
     | class => truthy class
     end
  || class_is_dog pred
     && match to_number env (opt_prop pred "confidence") with
        | Some _ => false
        | None => true
        end.

(** The dog that prediction number [k] gives: its confidence (1 for a falsy
    one), its box (0 for a falsy coordinate) and its image. *)
Definition dog_of_prediction (env : Env) (k : nat) (pred : json) : DetectedDog :=
  {| id := dog_id env k;
     confidence := or_else (opt_prop pred "confidence") (JNumber 1.0%float);
     bbox := {| x := or_else (opt_prop pred "x") (JNumber 0%float);
                y := or_else (opt_prop pred "y") (JNumber 0%float);
                width := or_else (opt_prop pred "width") (JNumber 0%float);
                height := or_else (opt_prop pred "height") (JNumber 0%float) |};
     imageData := image_of pred;
     timestamp := JString (iso_now env) |}.

(** The entries of [predictions], when that is an array. *)
Definition predictions_of (r : json) : list json :=
  items_of (opt_prop r "predictions").

(** The dogs of the base64 crops of a response, in order. *)
Definition crop_dogs (env : Env) (r : json) : list DetectedDog :=
  number_from (dog_of_crop env) 0 (base64_crops (opt_prop r "outputs")).

(** The dogs of the eligible predictions of a response, in order. *)
Definition prediction_dogs (env : Env) (r : json) : list DetectedDog :=
  number_from (dog_of_prediction env) 0 (filter (eligible env) (predictions_of r)).

(** The response cannot be read to the end: it is [null] itself, or an
    entry of its [outputs] is, or no crop gave a dog and one of its
    predictions cannot be read. *)
Definition broken (env : Env) (r : json) : bool :=
  nullish r
  || existsb nullish (items_of (opt_prop r "outputs"))
  || match crop_dogs env r with
     | [] => existsb (unreadable env) (predictions_of r)
     | _ => false
     end.

(** The normalized result, as the precedence rule describes it: nothing for
    a response that cannot be read to the end; else the dogs of the base64
    crops, when there are any; else the dogs of the eligible predictions. *)
Definition normalized (env : Env) (r : RoboflowResponse.t) : list DetectedDog :=
  if broken env r then []
  else
    match crop_dogs env r with
    | [] => prediction_dogs env r
    | dogs => dogs
    end.

(** One iteration over a crop entry, as a function of the dogs so far. *)
Definition crop_step (env : Env) (crop : json) (dogs : list DetectedDog)
  : list DetectedDog :=
  if is_base64_crop crop
  then (dogs ++ [dog_of_crop env (List.length dogs) crop])%list
  else dogs.

(** One iteration over an entry of [outputs] that is not [null]. *)
Definition output_step (env : Env) (output : json) (dogs : list DetectedDog)
  : list DetectedDog :=
  fold_left (fun acc c => crop_step env c acc) (crops_of_output output) dogs.

(** One iteration over a dog detection. *)
Definition detection_step (env : Env) (pred : json)
    (dogs : list DetectedDog) : list DetectedDog :=
  if carries_image pred
  then (dogs ++ [dog_of_prediction env (List.length dogs) pred])%list
  else dogs.

(** The length of the image of a dog cannot be converted to a number, so
    the data of the log entry of [detectDogs] cannot be computed. *)
Definition unmeasurable (env : Env) (dog : DetectedDog) : bool :=
  truthy (imageData dog)
  && match to_number env (length_of (imageData dog)) with
     | Some _ => false
     | None => true
     end.

(** The two results [detectDogs] returns. *)
Definition success_result (dogs : list DetectedDog) : DetectionResult :=
  {| success := true;
     detectedDogs := dogs;
     error := None;
     debugInfo := Some (TotalDetected (List.length dogs)) |}.

Definition failure_result (msg : string) : DetectionResult :=
  {| success := false;
     detectedDogs := [];
     error := Some ("Failed to detect dogs: " ++ msg);
     debugInfo := Some (ErrorInfo msg) |}.

(** The file object the controller hands to the service. *)
Definition file_of (mimeType base64Data : string) : Service.File :=
  {| Service.buffer := Buffer.from_base64 base64Data;
     Service.mimetype := "image/" ++ mimeType |}.

(** The strings the controller's pattern describes. *)
Fixpoint all_letters (s : string) : bool :=
  match s with
  | EmptyString => true
  | String c rest => Controller.is_letter c && all_letters rest
  end.

(** [data:image/<letters>;base64,<data>], with no double quote in the data. *)
Definition matches_pattern (image : string) : Prop :=
  exists letters payload,
    image = "data:image/" ++ letters ++ ";base64," ++ payload
    /\ all_letters letters = true
    /\ Controller.no_quote payload = true.

(** The four sextets of three octets, and the three octets of four
    sextets, as the codec computes them. *)
Definition enc1 (a b : Z) : Z := Z.lor (Z.shiftl (Z.land a 3) 4) (Z.shiftr b 4).

Definition enc2 (b c : Z) : Z := Z.lor (Z.shiftl (Z.land b 15) 2) (Z.shiftr c 6).

Definition dec0 (s0 s1 : Z) : Z :=
  Z.lor (Z.shiftl (Z.land s0 63) 2) (Z.shiftr (Z.land s1 48) 4).

Definition dec1 (s1 s2 : Z) : Z :=
  Z.lor (Z.shiftl (Z.land s1 15) 4) (Z.shiftr (Z.land s2 60) 2).

Definition dec2 (s2 s3 : Z) : Z :=
  Z.lor (Z.shiftl (Z.land s2 3) 6) (Z.land s3 63).

(** [0 <= s < 64], as a test. *)
Definition in_sextet (s : Z) : bool := (0 <=? s)%Z && (s <? 64)%Z.

(** [no_quote], on a list of characters. *)
Fixpoint no_quote_chars (cs : list ascii) : bool :=
  match cs with
  | [] => true
  | c :: rest => negb (Controller.is_quote c) && no_quote_chars rest
  end.

(** Sample inputs: a service with [debug] off, and worlds in which the
    vendor behaves in a given way. *)
Definition sample_config : AppConfig.t :=
  {| AppConfig.port := 5001;
     AppConfig.corsOrigin := "http://localhost:3000";
     AppConfig.roboflow := {| AppConfig.apiKey := "rf_key_1234";
                              AppConfig.apiUrl := "https://vendor.example/infer" |};
     AppConfig.debug := false |}.

Definition sample_service : DogDetectionService :=
  Service.new_DogDetectionService sample_config "/srv/app".

Definition empty_response : RoboflowResponse.t := JObject [].

(** A world in which every exchange ends as [v] says. Its conversions give
    what the language gives for an object without properties. *)
Definition world (v : Z -> WireOutcome) : Env :=
  {| vendor := v;
     date_now := fun _ => 1700000000000%Z;
     iso_now := "2024-01-01T00:00:00.000Z";
     mkdir_ok := fun _ => true;
     appendFile_ok := fun _ => true;
     toNumber := fun _ => Some nan;
     toString := fun _ => Some "[object Object]" |}.

(** The vendor answers every attempt with 404 Not Found. *)
Definition world_not_found : Env :=
  world (fun _ => Reply {| status := 404; statusText := "Not Found";
                           data := empty_response |}).

(** The vendor answers 200 OK with [r]. *)
Definition world_ok (r : RoboflowResponse.t) : Env :=
  world (fun _ => Reply {| status := 200; statusText := "OK"; data := r |}).

(** A data URL whose payload encodes the three octets 65, 66, 67. *)
Definition sample_image : string := "data:image/png;base64,QUJD".

(** A well-formed body, as the endpoint's interface describes it: the image
    is a string of the form [data:image/<letters>;base64,<data>]. Every
    other body is malformed: one without an image, one whose image is empty
    or does not have that form, and one whose image is not a string. *)
Definition well_formed (body : Controller.DetectDogsDto) : Prop :=
  exists image, Controller.image body = JString image /\ matches_pattern image.

Definition malformed (body : Controller.DetectDogsDto) : Prop :=
  ~ well_formed body.

(** The bodies the handler answers with 400: the image is falsy (missing,
    [null], [false], 0, NaN or empty), or it is a string that is not of the
    form above. *)
Definition refused (body : Controller.DetectDogsDto) : Prop :=
  truthy (Controller.image body) = false
  \/ exists image, Controller.image body = JString image /\ ~ matches_pattern image.

(** [typeof v === 'string'] *)
Definition is_string (v : json) : bool :=
  match v with JString _ => true | _ => false end.

(** The file of [sample_image]. *)
Definition sample_file : Service.File :=
  {| Service.buffer := [65; 66; 67]%Z; Service.mimetype := "image/png" |}.

(** A vendor response whose [outputs] array holds a [null]. *)
Definition null_output_response : RoboflowResponse.t :=
  JObject [("outputs", JArray [JNull])].

(** A dog prediction with confidence 0.75 and the box 10, 20, 30, 40. *)
Definition sample_prediction : json :=
  JObject [("class", JString "dog");
           ("confidence", JNumber 0.75%float);
           ("x", JNumber 10%float);
           ("y", JNumber 20%float);
           ("width", JNumber 30%float);
           ("height", JNumber 40%float);
           ("crop", JObject [("image", JString "QUJD")])].

(** A vendor response with that prediction and nothing else. *)
Definition prediction_response : RoboflowResponse.t :=
  JObject [("predictions", JArray [sample_prediction])].

(** The line feed and the double quote, as strings. *)
Definition newline_char : string := String (ascii_of_nat 10) EmptyString.
Definition quote_char : string := String (ascii_of_nat 34) EmptyString.

(** A base64 crop entry, and an entry of [outputs] that holds it. *)
Definition sample_crop : json :=
  JObject [("type", JString "base64"); ("value", JString "QUJD")].

Definition sample_output : json :=
  JObject [("dynamic_crop", JArray [sample_crop])].

(** A vendor response with one base64 crop and one dog prediction. *)
Definition crop_and_prediction_response : RoboflowResponse.t :=
  JObject [("predictions", JArray [sample_prediction]);
           ("outputs", JArray [sample_output])].

(** A vendor response with a base64 crop, followed in [outputs] by a
    [null]. *)
Definition crop_then_null_response : RoboflowResponse.t :=
  JObject [("outputs", JArray [sample_output; JNull])].

(** A vendor response with that dog prediction, followed in [predictions]
    by a [null]. *)
Definition prediction_then_null_response : RoboflowResponse.t :=
  JObject [("predictions", JArray [sample_prediction; JNull])].

(** A vendor response whose only crop has an image that cannot be
    measured: its [length] is an object with a [toString] of its own. *)
Definition odd_image : json :=
  JObject [("length", JObject [("toString", JNumber 1%float)])].

Definition odd_crop_response : RoboflowResponse.t :=
  JObject [("outputs",
            JArray [JObject [("dynamic_crop",
                              JArray [JObject [("type", JString "base64");
                                               ("value", odd_image)]])]])].

(** A world whose conversions refuse an object with a [toString] of its
    own, as the language does, and where the vendor answers 200 OK with
    [r]. *)
Definition strict_world (r : RoboflowResponse.t) : Env :=
  {| vendor := vendor (world_ok r);
     date_now := date_now (world_ok r);
     iso_now := iso_now (world_ok r);
     mkdir_ok := mkdir_ok (world_ok r);
     appendFile_ok := appendFile_ok (world_ok r);
     toNumber := fun v => match opt_prop v "toString" with
                          | JUndefined => Some nan
                          | _ => None
                          end;
     toString := toString (world_ok r) |}.

(** The dog [d] carries the confidence and the bounding box of the
    prediction [p]: the values of [p], with 0 for a coordinate that is
    falsy (missing, zero or NaN). *)
Definition carries (d : DetectedDog) (p : json) : Prop :=
  confidence d = opt_prop p "confidence"
  /\ x (bbox d) = or_else (opt_prop p "x") (JNumber 0%float)
  /\ y (bbox d) = or_else (opt_prop p "y") (JNumber 0%float)
  /\ width (bbox d) = or_else (opt_prop p "width") (JNumber 0%float)
  /\ height (bbox d) = or_else (opt_prop p "height") (JNumber 0%float).

(** The dog [d] is the one of the crop entry [c]: the entry's image, with
    the fixed confidence 1 and the zero box. *)
Definition from_crop (d : DetectedDog) (c : json) : Prop :=
  imageData d = opt_prop c "value"
  /\ confidence d = JNumber 1.0%float
  /\ bbox d = zero_bbox.

(* ================================================================== *)
(** ** Vocabulary of the further properties *)
(* ================================================================== *)

(** The file [debugLog] appends to. *)
Definition log_file (this : DogDetectionService) : string :=
  path_join (logsDir this) "roboflow-debug.log".

(** The entry [debugLog] appends for [msg]. *)
Definition log_entry (env : Env) (msg : string) : string :=
  "[" ++ iso_now env ++ "] " ++ msg ++ Service.newline ++ Service.newline.

(** The effects of one call of [debugLog]: nothing with [debug] off; else
    the directory is made, then the entry appended; the first of the two
    that fails ends the call with a line on the console. *)
Definition log_effects (env : Env) (this : DogDetectionService) (msg : string)
  : list Event :=
  if debug this then
    Mkdir (logsDir this) ::
    (if mkdir_ok env (logsDir this) then
       AppendFile (log_file this) (log_entry env msg) ::
       (if appendFile_ok env (log_file this) then []
        else [ConsoleError "Error writing to debug log:"])
     else [ConsoleError "Error writing to debug log:"])
  else [].

(** The requests a service may send: to its configured URL, with its
    configured key, the image as base64, and the fixed options. *)
Definition configured_request (this : DogDetectionService) (e : Event) : Prop :=
  match e with
  | HttpPost url body config =>
      url = AppConfig.apiUrl (AppConfig.roboflow (configService this))
      /\ api_key body = AppConfig.apiKey (AppConfig.roboflow (configService this))
      /\ image_type body = "base64"
      /\ config = Service.request_config
  | _ => True
  end.

(** The log is kept in one place: the directory made is [logsDir], the file
    appended to is [roboflow-debug.log] in it. *)
Definition logs_in_place (this : DogDetectionService) (e : Event) : Prop :=
  match e with
  | Mkdir dir => dir = logsDir this
  | AppendFile file _ => file = log_file this
  | _ => True
  end.

Definition is_append (e : Event) : bool :=
  match e with AppendFile _ _ => true | _ => false end.

(** The two groups of the pattern, when the controller accepts the body. *)
Definition accepted (body : Controller.DetectDogsDto) : option (string * string) :=
  if truthy (Controller.image body) then
    match Controller.image body with
    | JString image => Controller.base64Regex image
    | _ => None
    end
  else None.

(** A service with [debug] on, and a world whose disk refuses every
    operation while the vendor answers 404. *)
Definition debug_service : DogDetectionService :=
  {| debug := true; logsDir := "/srv/app/logs"; configService := sample_config |}.

Definition world_disk_full : Env :=
  {| vendor := vendor world_not_found;
     date_now := date_now world_not_found;
     iso_now := iso_now world_not_found;
     mkdir_ok := fun _ => false;
     appendFile_ok := fun _ => false;
     toNumber := toNumber world_not_found;
     toString := toString world_not_found |}.

(** The vendor fails twice (a lost connection, then 503) and then answers
    200 with [r]. *)
Definition world_third_time (r : RoboflowResponse.t) : Env :=
  world (fun n =>
           if (n =? 1)%Z then NetworkFailure "socket hang up" "ECONNRESET"
           else if (n =? 2)%Z
                then Reply {| status := 503; statusText := "Service Unavailable";
                              data := empty_response |}
                else Reply {| status := 200; statusText := "OK"; data := r |}).

(** A dog a client can use: it has image data, and the detection behind it
    is more likely a dog than not (its confidence, as a number, is above
    0.5). *)
Definition usable_dog (env : Env) (d : DetectedDog) : Prop :=
  truthy (imageData d) = true /\ exceeds_half env (confidence d) = true.

Definition is_dash (c : ascii) : bool := Ascii.eqb c "-"%char.

Fixpoint no_dash (s : string) : bool :=
  match s with
  | EmptyString => true
  | String c rest => negb (is_dash c) && no_dash rest
  end.

(** What follows the last dash of [s]; [acc] is what was read since the
    last dash seen. *)
Fixpoint after_last_dash (s acc : string) : string :=
  match s with
  | EmptyString => acc
  | String c rest =>
      if is_dash c then after_last_dash rest EmptyString
      else after_last_dash rest (acc ++ String c EmptyString)
  end.

(** A vendor response with three dog predictions. *)
Definition three_predictions_response : RoboflowResponse.t :=
  JObject [("predictions",
            JArray [sample_prediction; sample_prediction; sample_prediction])].

Definition is_semicolon (c : ascii) : bool := Ascii.eqb c ";"%char.

Fixpoint no_semicolon (s : string) : bool :=
  match s with
  | EmptyString => true
  | String c rest => negb (is_semicolon c) && no_semicolon rest
  end.

(** [0 <= b < 256], as a test. *)
Definition in_octet (b : Z) : bool := (0 <=? b)%Z && (b <? 256)%Z.

(** The data URL the endpoint forwards for an accepted image. *)
Definition forwarded (letters payload : string) : string :=
  "data:image/" ++ letters ++ ";base64,"
  ++ Buffer.toString_base64 (Buffer.from_base64 payload).

(** The file the test client reads, as the service should receive it. *)
Definition client_file (imageBuffer : Buffer.t) : Service.File :=
  {| Service.buffer := imageBuffer; Service.mimetype := "image/jpeg" |}.

(** The service the application builds from the environment variables. *)
Definition service_of_env (penv : Configuration.ProcessEnv) (cwd : string)
  : DogDetectionService :=
  Service.new_DogDetectionService (Configuration.configService penv) cwd.

(** An environment that sets [DEBUG_MODE] to [v] and nothing else. *)
Definition debug_mode_env (v : string) : Configuration.ProcessEnv :=
  fun name => if name =? "DEBUG_MODE" then Some v else None.

(** Whether [s] goes on with a decimal digit. *)
Definition starts_with_digit (s : string) : bool :=
  match s with
  | String c _ => Configuration.is_digit c
  | EmptyString => false
  end.

(** An environment that sets [PORT] to [v] and nothing else. *)
Definition port_env (v : string) : Configuration.ProcessEnv :=
  fun name => if name =? "PORT" then Some v else None.

(** The run of a loop that ended, as [Float64.retry_loop] reports it. *)
Definition ended {A} (r : Res A * DogDetectionService * list Event)
  : Res (option A) * DogDetectionService * list Event :=
  match r with
  | (Ok a, this, t) => (Ok (Some a), this, t)
  | (Throw e, this, t) => (Throw e, this, t)
  end.


(** The retry counts up to which the counting of the loop in doubles is
    checked here, number by number. (Doubles count exactly up to 2^53.) *)
Definition counted_limit : Z := 2048.

(** A vendor response whose only crop has the number [Infinity] as its
    image (the JSON numeral 1e999 is read as that). *)
Definition lost_image_response : RoboflowResponse.t :=
  JObject [("outputs",
            JArray [JObject [("dynamic_crop",
                              JArray [JObject [("type", JString "base64");
                                               ("value", JNumber infinity)]])]])].


(* ================================================================== *)
(** * Properties *)
(* ================================================================== *)

(** ** Runs of the monad *)

Section Runs.
Context {A B : Type}.

Lemma bind_run (m : M A) (k : A -> M B) env this :
  bind m k env this =
  match m env this with
  | (Ok a, this1, t1) =>
      match k a env this1 with
      | (r, this2, t2) => (r, this2, (t1 ++ t2)%list)
      end
  | (Throw e, this1, t1) => (Throw e, this1, t1)
  end.
Proof. reflexivity. Qed.

Lemma try_catch_run (m : M A) (h : Thrown -> M A) env this :
  try_catch m h env this =
  match m env this with
  | (Ok a, this1, t1) => (Ok a, this1, t1)
  | (Throw e, this1, t1) =>
      match h e env this1 with
      | (r, this2, t2) => (r, this2, (t1 ++ t2)%list)
      end
  end.
Proof. reflexivity. Qed.

End Runs.

(** ** The effects a request may perform *)

Section Obeys.
Variable P : DogDetectionService -> Event -> Prop.

Lemma obeys_ret {A} (a : A) : obeys_with P (ret a).
Proof. intros env this. split; [reflexivity | constructor]. Qed.

Lemma obeys_throw {A} e : obeys_with P (@throw A e).
Proof. intros env this. split; [reflexivity | constructor]. Qed.

Lemma obeys_ask : obeys_with P ask.
Proof. intros env this. split; [reflexivity | constructor]. Qed.

Lemma obeys_get_this : obeys_with P get_this.
Proof. intros env this. split; [reflexivity | constructor]. Qed.

Lemma obeys_emit e : (forall this, P this e) -> obeys_with P (emit e).
Proof. intros H env this. split; [reflexivity | repeat constructor; apply H]. Qed.

Lemma obeys_bind {A B} (m : M A) (k : A -> M B) :
  obeys_with P m -> (forall a, obeys_with P (k a)) -> obeys_with P (bind m k).
Proof.
  intros Hm Hk env this. rewrite bind_run.
  destruct (Hm env this) as [Hs Ht].
  destruct (m env this) as [[[a | e] this1] t1];
    unfold this_after, effects in *; cbn in Hs, Ht; subst this1.
  - destruct (Hk a env this) as [Hs' Ht'].
    destruct (k a env this) as [[r this2] t2];
      unfold this_after, effects in *; cbn in *.
    split; [assumption | apply Forall_app; split; assumption].
  - split; [reflexivity | assumption].
Qed.

Lemma obeys_try_catch {A} (m : M A) h :
  obeys_with P m -> (forall e, obeys_with P (h e)) -> obeys_with P (try_catch m h).
Proof.
  intros Hm Hh env this. rewrite try_catch_run.
  destruct (Hm env this) as [Hs Ht].
  destruct (m env this) as [[[a | e] this1] t1];
    unfold this_after, effects in *; cbn in Hs, Ht; subst this1.
  - split; [reflexivity | assumption].
  - destruct (Hh e env this) as [Hs' Ht'].
    destruct (h e env this) as [[r this2] t2];
      unfold this_after, effects in *; cbn in *.
    split; [assumption | apply Forall_app; split; assumption].
Qed.

Lemma obeys_for_of {A S} (xs : list A) (body : A -> S -> M S) :
  (forall x acc, obeys_with P (body x acc)) ->
  forall acc, obeys_with P (for_of xs body acc).
Proof.
  intros Hb. induction xs as [| x rest IH]; intros acc; cbn [for_of].
  - apply obeys_ret.
  - apply obeys_bind; [apply Hb | intros acc'; apply IH].
Qed.

Lemma obeys_array_filter {A} (callback : A -> M bool) (xs : list A) :
  (forall x, obeys_with P (callback x)) ->
  obeys_with P (array_filter callback xs).
Proof.
  intros Hc. induction xs as [| x rest IH]; cbn [array_filter].
  - apply obeys_ret.
  - apply obeys_bind; [apply Hc | intros keep].
    apply obeys_bind; [apply IH | intros kept; apply obeys_ret].
Qed.

End Obeys.

Create HintDb obeys.
#[local] Hint Resolve obeys_ret obeys_throw obeys_ask obeys_get_this : obeys.

(** One step of a proof that a computation obeys: split a bind, a
    try/catch or a loop, decide a branch, or close a leaf. *)
Ltac obeys_step :=
  match goal with
  | |- obeys_with _ (bind _ _) => apply obeys_bind; [| intros ?]
  | |- obeys_with _ (try_catch _ _) => apply obeys_try_catch; [| intros ?]
  | |- obeys_with _ (for_of _ _ _) => apply obeys_for_of; intros ? ?
  | |- obeys_with _ (array_filter _ _) => apply obeys_array_filter; intros ?
  | |- obeys_with _ (if ?b then _ else _) => destruct b
  | |- obeys_with _ (match ?x with _ => _ end) => destruct x
  | |- obeys_with _ _ => solve [auto with obeys]
  end.

Ltac obeys_auto := repeat obeys_step.

(** [debugLog] always resolves, touches nothing but the log file and the
    console, and does nothing at all when [debug] is off. *)
Lemma debugLog_runs msg env this :
  exists t,
    Service.debugLog msg env this = (Ok tt, this, t)
    /\ Forall (allowed this) t
    /\ Forall (log_only this) t
    /\ steps t = []
    /\ posted t = []
    /\ (debug this = false -> t = []).
Proof.
  unfold Service.debugLog. rewrite bind_run. cbn [get_this].
  destruct (debug this) eqn:Hd; cbn [negb].
  - unfold try_catch, bind, fs_mkdir, fs_appendFile, new_Date_toISOString,
      console_error, emit, ask, ret, throw. cbn.
    destruct (mkdir_ok env (logsDir this)); cbn;
      [destruct (appendFile_ok env _); cbn |];
      eexists; (split; [reflexivity |]);
      (split; [repeat constructor; assumption |]);
      (split; [repeat constructor |]);
      repeat split; discriminate.
  - exists []. repeat split; constructor.
Qed.

Lemma obeys_debugLog msg : obeys (Service.debugLog msg).
Proof.
  intros env this. destruct (debugLog_runs msg env this) as (t & E & Ht & _).
  rewrite E. split; [reflexivity | exact Ht].
Qed.

Lemma local_debugLog msg : local (Service.debugLog msg).
Proof.
  intros env this. destruct (debugLog_runs msg env this) as (t & E & _ & Ht & _).
  rewrite E. split; [reflexivity | exact Ht].
Qed.

Lemma obeys_console_error txt : obeys (console_error txt).
Proof. apply obeys_emit. intros this. exact Logic.I. Qed.

Lemma obeys_sleep d : obeys (sleep d).
Proof. apply obeys_emit. intros this. exact Logic.I. Qed.

Lemma obeys_new_Date_toISOString P : obeys_with P new_Date_toISOString.
Proof. unfold new_Date_toISOString. obeys_auto. Qed.

Lemma obeys_Date_now P k : obeys_with P (Date_now k).
Proof. unfold Date_now. obeys_auto. Qed.

Lemma obeys_get_prop P v k : obeys_with P (get_prop v k).
Proof. unfold get_prop. obeys_auto. Qed.

Lemma obeys_greater_than P v bound : obeys_with P (greater_than v bound).
Proof. unfold greater_than. obeys_auto. Qed.

Lemma obeys_template P v : obeys_with P (template v).
Proof. unfold template. obeys_auto. Qed.

Lemma obeys_axios_post n url body :
  obeys (axios_post n url body Service.request_config).
Proof.
  unfold axios_post. apply obeys_bind.
  - apply obeys_emit. intros this. reflexivity.
  - intros _. obeys_auto.
Qed.

#[local] Hint Resolve obeys_debugLog local_debugLog obeys_console_error obeys_sleep
  obeys_new_Date_toISOString obeys_Date_now obeys_get_prop obeys_greater_than
  obeys_template obeys_axios_post
  : obeys.

Lemma obeys_makeRequest apiUrl apiKey dataUrl attempt :
  obeys (Service.makeRequest apiUrl apiKey dataUrl attempt).
Proof. unfold Service.makeRequest. obeys_auto. Qed.

Lemma obeys_retry_loop request retryCount d fuel :
  (forall n, obeys (request n)) ->
  forall attempt lastError,
    obeys (Service.retry_loop request retryCount d fuel attempt lastError).
Proof.
  intros Hr. induction fuel as [| k IH]; intros attempt lastError;
    cbn [Service.retry_loop].
  - obeys_auto.
  - destruct (attempt <=? retryCount)%Z; [| obeys_auto].
    apply obeys_try_catch.
    + apply obeys_bind; [apply Hr | intros ?; obeys_auto].
    + intros e. destruct (Service.is_client_error e); [obeys_auto |].
      apply obeys_bind; [apply obeys_sleep | intros _; apply IH].
Qed.

Lemma obeys_processWithRoboflow buf mime retryCount d :
  obeys (Service.processWithRoboflow buf mime retryCount d).
Proof.
  unfold Service.processWithRoboflow.
  apply obeys_bind; [apply obeys_get_this | intros this].
  apply obeys_bind; [apply obeys_debugLog | intros _].
  apply obeys_bind.
  - apply obeys_retry_loop. intros n. apply obeys_makeRequest.
  - intros [v | e]; obeys_auto.
Qed.

Lemma obeys_retry_loop64 request retryCount d fuel :
  (forall n, obeys (request n)) ->
  forall k attempt lastError,
    obeys (Float64.retry_loop request retryCount d fuel k attempt lastError).
Proof.
  intros Hr. induction fuel as [| n IH]; intros k attempt lastError;
    cbn [Float64.retry_loop];
    destruct (attempt <=? retryCount)%float; obeys_auto.
Qed.

Lemma obeys_processWithRoboflow64 fuel buf mime retryCount d :
  obeys (Float64.processWithRoboflow fuel buf mime retryCount d).
Proof.
  unfold Float64.processWithRoboflow.
  apply obeys_bind; [apply obeys_get_this | intros this].
  apply obeys_bind; [apply obeys_debugLog | intros _].
  apply obeys_bind.
  - apply obeys_retry_loop64. intros n. apply obeys_makeRequest.
  - intros [[v | e] |]; obeys_auto.
Qed.

(** The extraction touches nothing but the debug log: it obeys any [P] that
    [debugLog] obeys. *)
Section Extraction.
Variable P : DogDetectionService -> Event -> Prop.
Hypothesis P_debugLog : forall msg, obeys_with P (Service.debugLog msg).

#[local] Hint Resolve P_debugLog : obeys.

Lemma obeys_process_crop ts crop dogs :
  obeys_with P (Service.process_crop ts crop dogs).
Proof. unfold Service.process_crop. obeys_auto. Qed.

#[local] Hint Resolve obeys_process_crop : obeys.

Lemma obeys_process_output ts output dogs :
  obeys_with P (Service.process_output ts output dogs).
Proof. unfold Service.process_output. obeys_auto. Qed.

Lemma obeys_call_toLowerCase class :
  obeys_with P (Service.call_toLowerCase class).
Proof. unfold Service.call_toLowerCase. obeys_auto. Qed.

#[local] Hint Resolve obeys_call_toLowerCase : obeys.

Lemma obeys_is_dog_detection pred :
  obeys_with P (Service.is_dog_detection pred).
Proof. unfold Service.is_dog_detection. obeys_auto. Qed.

Lemma obeys_pick_imageData detection :
  obeys_with P (Service.pick_imageData detection).
Proof. unfold Service.pick_imageData. obeys_auto. Qed.

#[local] Hint Resolve obeys_is_dog_detection obeys_pick_imageData : obeys.

Lemma obeys_process_detection ts detection dogs :
  obeys_with P (Service.process_detection ts detection dogs).
Proof. unfold Service.process_detection. obeys_auto. Qed.

Lemma obeys_imageSize dog : obeys_with P (Service.imageSize dog).
Proof. unfold Service.imageSize. obeys_auto. Qed.

#[local] Hint Resolve obeys_process_output obeys_process_detection : obeys.

Lemma obeys_extractDogImages_try ts r :
  obeys_with P (Service.extractDogImages_try ts r).
Proof. unfold Service.extractDogImages_try. obeys_auto. Qed.

#[local] Hint Resolve obeys_extractDogImages_try : obeys.

Lemma obeys_extractDogImages r : obeys_with P (Service.extractDogImages r).
Proof. unfold Service.extractDogImages. obeys_auto. Qed.

End Extraction.

Lemma allowed_process_crop ts crop dogs :
  obeys (Service.process_crop ts crop dogs).
Proof. apply obeys_process_crop, obeys_debugLog. Qed.

Lemma allowed_process_output ts output dogs :
  obeys (Service.process_output ts output dogs).
Proof. apply obeys_process_output, obeys_debugLog. Qed.

Lemma allowed_process_detection ts detection dogs :
  obeys (Service.process_detection ts detection dogs).
Proof. apply obeys_process_detection, obeys_debugLog. Qed.

Lemma allowed_extractDogImages_try ts r :
  obeys (Service.extractDogImages_try ts r).
Proof. apply obeys_extractDogImages_try, obeys_debugLog. Qed.

Lemma allowed_extractDogImages r : obeys (Service.extractDogImages r).
Proof. apply obeys_extractDogImages, obeys_debugLog. Qed.

Lemma local_extractDogImages r : local (Service.extractDogImages r).
Proof. apply obeys_extractDogImages, local_debugLog. Qed.

Lemma allowed_imageSize dog : obeys (Service.imageSize dog).
Proof. apply obeys_imageSize. Qed.

#[local] Hint Resolve obeys_call_toLowerCase obeys_is_dog_detection
  obeys_pick_imageData obeys_imageSize local_extractDogImages : obeys.

#[local] Hint Resolve allowed_process_crop allowed_process_output
  allowed_process_detection allowed_extractDogImages_try
  allowed_extractDogImages allowed_imageSize obeys_processWithRoboflow : obeys.

Lemma obeys_service_detectDogs file : obeys (Service.detectDogs file).
Proof. unfold Service.detectDogs. obeys_auto. Qed.

#[local] Hint Resolve obeys_service_detectDogs : obeys.

Lemma obeys_controller_detectDogs body : obeys (Controller.detectDogs body).
Proof. unfold Controller.detectDogs. obeys_auto. Qed.

(** ** Outcome and effects of composite computations *)

Section Projections.
Context {A B : Type}.

Lemma outcome_bind (m : M A) (k : A -> M B) env this :
  obeys m ->
  outcome (bind m k env this) =
  match outcome (m env this) with
  | Ok a => outcome (k a env this)
  | Throw e => Throw e
  end.
Proof.
  intros Hm. rewrite bind_run. destruct (Hm env this) as [Hs _].
  destruct (m env this) as [[[a | e] this1] t1];
    unfold this_after, outcome in *; cbn in *; subst; [| reflexivity].
  destruct (k a env this) as [[r this2] t2]; reflexivity.
Qed.

Lemma effects_bind (m : M A) (k : A -> M B) env this :
  obeys m ->
  effects (bind m k env this) =
  (effects (m env this) ++
   match outcome (m env this) with
   | Ok a => effects (k a env this)
   | Throw _ => []
   end)%list.
Proof.
  intros Hm. rewrite bind_run. destruct (Hm env this) as [Hs _].
  destruct (m env this) as [[[a | e] this1] t1];
    unfold this_after, outcome, effects in *; cbn in *; subst.
  - destruct (k a env this) as [[r this2] t2]; reflexivity.
  - symmetry; apply app_nil_r.
Qed.

End Projections.

Lemma outcome_try_catch {A} (m : M A) h env this :
  obeys m ->
  outcome (try_catch m h env this) =
  match outcome (m env this) with
  | Ok a => Ok a
  | Throw e => outcome (h e env this)
  end.
Proof.
  intros Hm. rewrite try_catch_run. destruct (Hm env this) as [Hs _].
  destruct (m env this) as [[[a | e] this1] t1];
    unfold this_after, outcome in *; cbn in *; subst; [reflexivity |].
  destruct (h e env this) as [[r this2] t2]; reflexivity.
Qed.

Lemma effects_try_catch {A} (m : M A) h env this :
  obeys m ->
  effects (try_catch m h env this) =
  (effects (m env this) ++
   match outcome (m env this) with
   | Ok _ => []
   | Throw e => effects (h e env this)
   end)%list.
Proof.
  intros Hm. rewrite try_catch_run. destruct (Hm env this) as [Hs _].
  destruct (m env this) as [[[a | e] this1] t1];
    unfold this_after, outcome, effects in *; cbn in *; subst.
  - symmetry; apply app_nil_r.
  - destruct (h e env this) as [[r this2] t2]; reflexivity.
Qed.

Lemma steps_app t1 t2 : steps (t1 ++ t2) = (steps t1 ++ steps t2)%list.
Proof. apply flat_map_app. Qed.

Lemma posted_app t1 t2 : posted (t1 ++ t2) = (posted t1 ++ posted t2)%list.
Proof. apply flat_map_app. Qed.

Lemma outcome_debugLog msg env this :
  outcome (Service.debugLog msg env this) = Ok tt.
Proof. destruct (debugLog_runs msg env this) as (t & E & _). now rewrite E. Qed.

Lemma steps_debugLog msg env this :
  steps (effects (Service.debugLog msg env this)) = [].
Proof.
  destruct (debugLog_runs msg env this) as (t & E & _ & _ & Hs & _). now rewrite E.
Qed.

Lemma posted_debugLog msg env this :
  posted (effects (Service.debugLog msg env this)) = [].
Proof.
  destruct (debugLog_runs msg env this) as (t & E & _ & _ & _ & Hp & _). now rewrite E.
Qed.

(** ** One attempt *)

Lemma axios_post_runs n url body env this :
  axios_post n url body Service.request_config env this =
  (match vendor env n with
   | NetworkFailure msg c =>
       Throw (Error {| message := msg; code := Some c; response := None |})
   | Reply r => Ok r
   end, this, [HttpPost url body Service.request_config]).
Proof.
  unfold axios_post, bind, emit, ask. cbn.
  destruct (vendor env n); reflexivity.
Qed.

Lemma makeRequest_outcome apiUrl apiKey dataUrl attempt env this :
  outcome (Service.makeRequest apiUrl apiKey dataUrl attempt env this)
  = attempt_result (vendor env attempt).
Proof.
  unfold Service.makeRequest.
  rewrite outcome_try_catch by obeys_auto.
  rewrite outcome_bind by auto with obeys.
  rewrite axios_post_runs. cbn [outcome fst].
  unfold attempt_result, attempt_fails, failure_message.
  destruct (vendor env attempt) as [msg c | r].
  - rewrite outcome_bind by auto with obeys. now rewrite outcome_debugLog.
  - destruct (400 <=? status r)%Z; cbn [orb].
    + cbn. rewrite outcome_bind by auto with obeys. now rewrite outcome_debugLog.
    + rewrite outcome_bind by obeys_auto.
      destruct (data r); cbn [throw ret outcome fst];
        rewrite outcome_bind by auto with obeys;
        rewrite outcome_debugLog; reflexivity.
Qed.

Lemma makeRequest_effects apiUrl apiKey dataUrl attempt env this :
  let t := effects (Service.makeRequest apiUrl apiKey dataUrl attempt env this) in
  steps t = [Request] /\ posted t = [request_body apiKey dataUrl].
Proof.
  unfold Service.makeRequest. cbv zeta.
  rewrite effects_try_catch by obeys_auto.
  rewrite outcome_bind, effects_bind by auto with obeys.
  rewrite axios_post_runs. cbn [outcome effects fst snd].
  rewrite !steps_app, !posted_app.
  destruct (vendor env attempt) as [msg c | r].
  - rewrite effects_bind by auto with obeys. rewrite outcome_debugLog.
    rewrite steps_app, posted_app, steps_debugLog, posted_debugLog.
    split; reflexivity.
  - destruct (400 <=? status r)%Z.
    + cbn [outcome throw fst]. rewrite effects_bind by auto with obeys.
      rewrite outcome_debugLog.
      rewrite !steps_app, !posted_app, steps_debugLog, posted_debugLog.
      split; reflexivity.
    + rewrite outcome_bind, effects_bind by obeys_auto.
      destruct (data r); cbn [throw ret outcome effects fst snd];
        repeat (rewrite ?outcome_bind, ?effects_bind by auto with obeys);
        rewrite ?outcome_debugLog;
        rewrite ?steps_app, ?posted_app, ?steps_debugLog, ?posted_debugLog;
        split; reflexivity.
Qed.

(** ** The retry loop *)

(** No error of a failed attempt carries a [response]: the no-retry branch
    of the loop sees [undefined] for [error.response?.status]. *)
Lemma attempt_error_no_response w e :
  attempt_result w = Throw e -> response_of e = None.
Proof.
  destruct w as [msg c | r]; unfold attempt_result.
  - intros H; injection H as <-; reflexivity.
  - destruct (attempt_fails (Reply r)); [| discriminate].
    intros H; injection H as <-; reflexivity.
Qed.

Lemma attempt_error_not_client w e :
  attempt_result w = Throw e -> Service.is_client_error e = false.
Proof.
  intros H. unfold Service.is_client_error.
  now rewrite (attempt_error_no_response w e H).
Qed.

Lemma attempt_result_fails w :
  attempt_fails w = match attempt_result w with Throw _ => true | Ok _ => false end.
Proof.
  destruct w as [msg c | r]; unfold attempt_result; [reflexivity |].
  destruct (attempt_fails (Reply r)); reflexivity.
Qed.

(** While iterations are left the loop test holds, and the loop makes
    exactly the iterations that are left. *)
Lemma retry_loop_counted request retryCount d env fuel :
  forall attempt lastError this,
    (fuel = 0%nat \/ attempt + Z.of_nat fuel = retryCount + 1)%Z ->
    Service.retry_loop request retryCount d fuel attempt lastError env this
    = counted_loop request (backoff d) fuel attempt lastError env this.
Proof.
  induction fuel as [| k IH]; intros attempt lastError this H;
    cbn [Service.retry_loop counted_loop]; [reflexivity |].
  destruct H as [H | H]; [discriminate |].
  replace (attempt <=? retryCount)%Z with true by (symmetry; apply Z.leb_le; lia).
  rewrite !try_catch_run.
  destruct (bind (request attempt) _ env this) as [[[v | e] this1] t1];
    [reflexivity |].
  destruct (Service.is_client_error e); [reflexivity |].
  rewrite !bind_run. cbn [sleep emit]. fold (backoff d attempt).
  rewrite IH by (destruct k; [left; reflexivity | right; lia]).
  reflexivity.
Qed.

(** More fuel than [retryCount] iterations changes nothing. *)
Lemma retry_loop_enough_fuel request retryCount d env fuel :
  forall extra attempt lastError this,
    (attempt + Z.of_nat fuel = retryCount + 1)%Z ->
    Service.retry_loop request retryCount d (fuel + extra) attempt lastError env this
    = Service.retry_loop request retryCount d fuel attempt lastError env this.
Proof.
  induction fuel as [| k IH]; intros extra attempt lastError this H.
  - cbn [Nat.add]. destruct extra as [| extra]; [reflexivity |].
    cbn [Service.retry_loop].
    replace (attempt <=? retryCount)%Z with false
      by (symmetry; apply Z.leb_gt; lia).
    reflexivity.
  - cbn [Nat.add Service.retry_loop].
    destruct (attempt <=? retryCount)%Z; [| reflexivity].
    rewrite !try_catch_run.
    destruct (bind (request attempt) _ env this) as [[[v | e] this1] t1];
      [reflexivity |].
    destruct (Service.is_client_error e); [reflexivity |].
    rewrite !bind_run. cbn [sleep emit].
    rewrite IH by lia. reflexivity.
Qed.

(** The counted loop reads its delays at the attempts it makes. *)
Lemma counted_loop_ext request delay delay' env remaining :
  forall attempt lastError this,
    (forall i, (attempt <= i < attempt + Z.of_nat remaining)%Z ->
               delay i = delay' i) ->
    counted_loop request delay remaining attempt lastError env this
    = counted_loop request delay' remaining attempt lastError env this.
Proof.
  induction remaining as [| k IH]; intros attempt lastError this H;
    cbn [counted_loop]; [reflexivity |].
  rewrite !try_catch_run.
  destruct (bind (request attempt) _ env this) as [[[v | e] this1] t1];
    [reflexivity |].
  destruct (Service.is_client_error e); [reflexivity |].
  rewrite !bind_run. cbn [sleep emit].
  rewrite (H attempt) by lia.
  rewrite IH by (intros i Hi; apply H; lia). reflexivity.
Qed.

Section RetryLoop.
Variables (apiUrl apiKey dataUrl : string) (delay : Z -> number).
Variables (env : Env) (this : DogDetectionService).

Let request := Service.makeRequest apiUrl apiKey dataUrl.

Lemma obeys_request n : obeys (request n).
Proof. apply obeys_makeRequest. Qed.

Lemma retry_loop_outcome remaining : forall attempt lastError,
  outcome (counted_loop request delay remaining attempt lastError env this)
  = Ok (loop_exit (vendor env) remaining attempt lastError).
Proof.
  induction remaining as [| k IH]; intros attempt lastError;
    cbn [counted_loop loop_exit]; [reflexivity |].
  rewrite outcome_try_catch
    by (apply obeys_bind; [apply obeys_request | intros ?; apply obeys_ret]).
  rewrite outcome_bind by apply obeys_request.
  unfold request at 1. rewrite makeRequest_outcome.
  destruct (attempt_result (vendor env attempt)) as [value | e] eqn:E;
    [reflexivity |].
  rewrite (attempt_error_not_client _ _ E).
  rewrite outcome_bind by apply obeys_sleep.
  cbn [sleep emit outcome fst]. apply IH.
Qed.

Lemma retry_loop_steps remaining : forall attempt lastError,
  steps (effects (counted_loop request delay remaining attempt lastError env this))
  = loop_steps (vendor env) delay remaining attempt.
Proof.
  induction remaining as [| k IH]; intros attempt lastError;
    cbn [counted_loop loop_steps]; [reflexivity |].
  rewrite effects_try_catch
    by (apply obeys_bind; [apply obeys_request | intros ?; apply obeys_ret]).
  rewrite outcome_bind, effects_bind by apply obeys_request.
  rewrite !steps_app.
  unfold request at 1 2 3.
  rewrite makeRequest_outcome.
  destruct (makeRequest_effects apiUrl apiKey dataUrl attempt env this) as [-> _].
  rewrite attempt_result_fails.
  destruct (attempt_result (vendor env attempt)) as [value | e] eqn:E;
    [reflexivity |].
  rewrite (attempt_error_not_client _ _ E).
  rewrite effects_bind by apply obeys_sleep.
  cbn [sleep emit outcome effects fst snd]. rewrite steps_app.
  cbn [steps flat_map step_of app]. now rewrite IH.
Qed.

Lemma retry_loop_posted remaining : forall attempt lastError,
  Forall (eq (request_body apiKey dataUrl))
    (posted (effects (counted_loop request delay remaining attempt lastError
                        env this))).
Proof.
  induction remaining as [| k IH]; intros attempt lastError;
    cbn [counted_loop]; [constructor |].
  rewrite effects_try_catch
    by (apply obeys_bind; [apply obeys_request | intros ?; apply obeys_ret]).
  rewrite outcome_bind, effects_bind by apply obeys_request.
  rewrite !posted_app.
  unfold request at 1 2 3.
  rewrite makeRequest_outcome.
  destruct (makeRequest_effects apiUrl apiKey dataUrl attempt env this) as [_ ->].
  destruct (attempt_result (vendor env attempt)) as [value | e] eqn:E.
  - repeat constructor.
  - rewrite (attempt_error_not_client _ _ E).
    rewrite effects_bind by apply obeys_sleep.
    cbn [sleep emit outcome effects fst snd]. rewrite posted_app.
    cbn [posted flat_map app]. constructor; [reflexivity | apply IH].
Qed.

End RetryLoop.

(** The error the loop is left with carries no reply, so the message of
    the final error is the message of that error. *)
Lemma loop_exit_no_response v remaining : forall attempt lastError lastError',
  no_response lastError ->
  loop_exit v remaining attempt lastError = Service.Left lastError' ->
  no_response lastError'.
Proof.
  induction remaining as [| k IH]; intros attempt lastError lastError' Hn;
    cbn [loop_exit].
  - intros H. injection H as <-. exact Hn.
  - destruct (attempt_result (v attempt)) as [value | e] eqn:E; [discriminate |].
    apply IH. exact (attempt_error_no_response _ _ E).
Qed.

Lemma errorMessage_of_no_response lastError :
  no_response lastError ->
  Service.errorMessage_of lastError = JString (last_message lastError).
Proof.
  destruct lastError as [e |]; [| reflexivity].
  cbn [no_response]. unfold Service.errorMessage_of. intros ->. reflexivity.
Qed.

(** How a run ends that left the loop with [lastError]. *)
Lemma give_up_runs {A} lastError env this :
  no_response lastError ->
  bind (template (Service.errorMessage_of lastError))
    (fun errorMessage =>
       throw (new_Error ("Roboflow API Error: " ++ errorMessage))) env this
  = (Throw (new_Error ("Roboflow API Error: " ++ last_message lastError)) :
       Res A, this, []).
Proof. intros H. rewrite (errorMessage_of_no_response _ H). reflexivity. Qed.

(** ** [processWithRoboflow] *)

Section ProcessWithRoboflow.
Variables (imageBuffer : Buffer.t) (mimetype : string).
Variables (retryCount initialDelayMs : Z).
Variables (env : Env) (this : DogDetectionService).

Let run := Service.processWithRoboflow imageBuffer mimetype retryCount
             initialDelayMs env this.

Lemma processWithRoboflow_outcome :
  outcome run =
  match loop_exit (vendor env) (Z.to_nat retryCount) 1 None with
  | Service.Returned value => Ok value
  | Service.Left lastError =>
      Throw (new_Error ("Roboflow API Error: " ++ last_message lastError))
  end.
Proof.
  unfold run, Service.processWithRoboflow.
  rewrite outcome_bind by apply obeys_get_this. cbn [get_this outcome fst].
  rewrite outcome_bind by apply obeys_debugLog. rewrite outcome_debugLog.
  rewrite outcome_bind
    by (apply obeys_retry_loop; intros ?; apply obeys_makeRequest).
  rewrite retry_loop_counted by lia.
  rewrite retry_loop_outcome.
  destruct (loop_exit _ _ _ _) as [value | lastError] eqn:E; [reflexivity |].
  rewrite give_up_runs; [reflexivity |].
  exact (loop_exit_no_response _ _ 1%Z None lastError Logic.I E).
Qed.

Lemma processWithRoboflow_effects :
  steps (effects run)
  = loop_steps (vendor env) (backoff initialDelayMs) (Z.to_nat retryCount) 1
  /\ Forall (eq (request_body
                   (AppConfig.apiKey (AppConfig.roboflow (configService this)))
                   (data_url mimetype imageBuffer)))
       (posted (effects run)).
Proof.
  unfold run, Service.processWithRoboflow.
  rewrite effects_bind by apply obeys_get_this. cbn [get_this outcome effects fst snd app].
  rewrite effects_bind by apply obeys_debugLog. rewrite outcome_debugLog.
  rewrite effects_bind
    by (apply obeys_retry_loop; intros ?; apply obeys_makeRequest).
  rewrite !retry_loop_counted by lia.
  rewrite retry_loop_outcome.
  rewrite !steps_app, !posted_app, steps_debugLog, posted_debugLog,
    retry_loop_steps.
  assert (E : effects (match loop_exit (vendor env) (Z.to_nat retryCount) 1 None with
                       | Service.Returned value => ret value
                       | Service.Left lastError =>
                           bind (template (Service.errorMessage_of lastError))
                             (fun errorMessage =>
                                throw (new_Error ("Roboflow API Error: "
                                                  ++ errorMessage)))
                       end env this) = []).
  { destruct (loop_exit _ _ _ _) as [value | lastError] eqn:E; [reflexivity |].
    rewrite give_up_runs; [reflexivity |].
    exact (loop_exit_no_response _ _ 1%Z None lastError Logic.I E). }
  rewrite E. cbn [steps posted flat_map app]. rewrite !app_nil_r.
  split; [reflexivity | apply retry_loop_posted].
Qed.

End ProcessWithRoboflow.

(** ** The shape of the loop's schedule *)




(** When every attempt fails, the loop runs them all. *)
Lemma loop_steps_all_fail v delay n : forall a,
  (forall i, (a <= i < a + Z.of_nat n)%Z -> attempt_fails (v i) = true) ->
  List.length (filter is_request (loop_steps v delay n a)) = n.
Proof.
  induction n as [| k IH]; intros a H; [reflexivity |].
  cbn [loop_steps]. rewrite (H a) by lia. cbn. f_equal.
  apply IH. intros i Hi. apply H. lia.
Qed.

Lemma attempt_result_error w :
  attempt_fails w = true -> attempt_result w = Throw (attempt_error w).
Proof.
  destruct w as [msg c | r]; unfold attempt_result, attempt_error;
    [reflexivity |].
  intros ->. reflexivity.
Qed.

Lemma loop_exit_all_fail v n : forall a lastError,
  (forall i, (a <= i < a + Z.of_nat n)%Z -> attempt_fails (v i) = true) ->
  loop_exit v n a lastError =
  Service.Left (match n with
                | O => lastError
                | S k => Some (attempt_error (v (a + Z.of_nat k)%Z))
                end).
Proof.
  induction n as [| k IH]; intros a lastError H; [reflexivity |].
  cbn [loop_exit]. rewrite (attempt_result_error _ (H a ltac:(lia))).
  rewrite IH by (intros i Hi; apply H; lia).
  destruct k as [| k'].
  - now rewrite Z.add_0_r.
  - do 4 f_equal. lia.
Qed.

Lemma last_message_attempt_error w :
  last_message (Some (attempt_error w)) = upstream_message w.
Proof. destruct w; reflexivity. Qed.

(** ** [extractDogImages] *)

Lemma number_from_app {A} (mk : nat -> A -> DetectedDog) l1 : forall k l2,
  number_from mk k (l1 ++ l2)
  = (number_from mk k l1 ++ number_from mk (List.length l1 + k) l2)%list.
Proof.
  induction l1 as [| a l1 IH]; intros k l2; cbn; [reflexivity |].
  rewrite IH. do 3 f_equal. lia.
Qed.

Lemma number_from_length {A} (mk : nat -> A -> DetectedDog) l : forall k,
  List.length (number_from mk k l) = List.length l.
Proof. induction l as [| a l IH]; intros k; cbn; [reflexivity | now rewrite IH]. Qed.

(** Reading a property throws on [null] and [undefined], and only there. *)
Lemma prop_nullish v k :
  prop v k = if nullish v then None else Some (opt_prop v k).
Proof. unfold opt_prop. destruct v; reflexivity. Qed.

Lemma outcome_get_prop v k env this :
  if nullish v
  then exists e, outcome (get_prop v k env this) = Throw e
  else outcome (get_prop v k env this) = Ok (opt_prop v k).
Proof.
  unfold get_prop. rewrite prop_nullish.
  destruct (nullish v); [eexists |]; reflexivity.
Qed.

Lemma get_prop_ok v k env this :
  nullish v = false -> outcome (get_prop v k env this) = Ok (opt_prop v k).
Proof. intros H. pose proof (outcome_get_prop v k env this) as P. now rewrite H in P. Qed.

Lemma get_prop_throws v k env this :
  nullish v = true -> exists e, outcome (get_prop v k env this) = Throw e.
Proof. intros H. pose proof (outcome_get_prop v k env this) as P. now rewrite H in P. Qed.

Lemma opt_prop_nullish v k : nullish v = true -> opt_prop v k = JUndefined.
Proof. destruct v; cbn; congruence. Qed.

Lemma process_crop_outcome crop dogs env this :
  outcome (Service.process_crop (iso_now env) crop dogs env this)
  = Ok (crop_step env crop dogs).
Proof.
  unfold Service.process_crop, crop_step, is_base64_crop.
  rewrite outcome_try_catch by obeys_auto.
  rewrite outcome_bind by auto with obeys.
  destruct (nullish crop) eqn:Hn.
  - destruct (get_prop_throws crop "type" env this Hn) as [e ->].
    rewrite (opt_prop_nullish crop "type" Hn). cbn [strict_eq_string andb].
    rewrite outcome_bind by auto with obeys. now rewrite outcome_debugLog.
  - rewrite (get_prop_ok crop "type" env this Hn).
    destruct (strict_eq_string (opt_prop crop "type") "base64");
      cbn [andb]; [| reflexivity].
    rewrite outcome_bind by auto with obeys.
    rewrite (get_prop_ok crop "value" env this Hn).
    destruct (truthy (opt_prop crop "value")); [| reflexivity].
    rewrite outcome_bind by auto with obeys. cbn [Date_now bind ask ret outcome fst].
    rewrite outcome_bind by auto with obeys.
    rewrite (get_prop_ok crop "video_metadata" env this Hn). reflexivity.
Qed.

Lemma for_of_outcome {A S} (bad : A -> bool) (step : A -> S -> S)
    (body : A -> S -> M S) env this xs :
  (forall x acc, obeys (body x acc)) ->
  (forall x acc, bad x = false -> outcome (body x acc env this) = Ok (step x acc)) ->
  (forall x acc, bad x = true -> exists e, outcome (body x acc env this) = Throw e) ->
  forall acc,
    if existsb bad xs
    then exists e, outcome (for_of xs body acc env this) = Throw e
    else outcome (for_of xs body acc env this)
         = Ok (fold_left (fun acc x => step x acc) xs acc).
Proof.
  intros Hob Hok Hbad.
  induction xs as [| x rest IH]; intros acc; cbn [existsb for_of fold_left];
    [reflexivity |].
  rewrite outcome_bind by apply Hob.
  destruct (bad x) eqn:Hx; cbn [orb].
  - destruct (Hbad x acc Hx) as [e ->]. eauto.
  - rewrite (Hok x acc Hx). apply IH.
Qed.

Lemma for_of_outcome_total {A S} (step : A -> S -> S) (body : A -> S -> M S)
    env this xs :
  (forall x acc, obeys (body x acc)) ->
  (forall x acc, outcome (body x acc env this) = Ok (step x acc)) ->
  forall acc,
    outcome (for_of xs body acc env this)
    = Ok (fold_left (fun acc x => step x acc) xs acc).
Proof.
  intros Hob Hok acc.
  pose proof (for_of_outcome (fun _ => false) step body env this xs Hob
                (fun x acc _ => Hok x acc)
                ltac:(discriminate) acc) as H.
  replace (existsb (fun _ : A => false) xs) with false in H; [exact H |].
  clear. induction xs; cbn; auto.
Qed.

(** A loop whose body throws the one error [err], on the items [bad]. *)
Lemma for_of_outcome_unit {A} (bad : A -> bool) (err : Thrown)
    (body : A -> unit -> M unit) env this xs :
  (forall x acc, obeys (body x acc)) ->
  (forall x acc, outcome (body x acc env this)
                 = if bad x then Throw err else Ok tt) ->
  outcome (for_of xs body tt env this)
  = if existsb bad xs then Throw err else Ok tt.
Proof.
  intros Hob Hb.
  induction xs as [| x rest IH]; cbn [existsb for_of]; [reflexivity |].
  rewrite outcome_bind by apply Hob. rewrite Hb.
  destruct (bad x); cbn [orb]; [reflexivity | exact IH].
Qed.

(** [filter] with a callback that throws on the items [bad]. *)
Lemma array_filter_outcome {A} (bad keep : A -> bool) (callback : A -> M bool)
    env this xs :
  (forall x, obeys (callback x)) ->
  (forall x, bad x = false -> outcome (callback x env this) = Ok (keep x)) ->
  (forall x, bad x = true -> exists e, outcome (callback x env this) = Throw e) ->
  if existsb bad xs
  then exists e, outcome (array_filter callback xs env this) = Throw e
  else outcome (array_filter callback xs env this) = Ok (filter keep xs).
Proof.
  intros Hob Hok Hbad.
  induction xs as [| x rest IH]; cbn [existsb array_filter filter];
    [reflexivity |].
  rewrite outcome_bind by apply Hob.
  destruct (bad x) eqn:Hx; cbn [orb].
  - destruct (Hbad x Hx) as [e ->]. eauto.
  - rewrite (Hok x Hx).
    rewrite outcome_bind by (apply obeys_array_filter; exact Hob).
    destruct (existsb bad rest).
    + destruct IH as [e ->]. eauto.
    + rewrite IH. reflexivity.
Qed.

Lemma fold_crop_step env l : forall acc,
  fold_left (fun acc c => crop_step env c acc) l acc
  = (acc ++ number_from (dog_of_crop env) (List.length acc)
              (filter is_base64_crop l))%list.
Proof.
  induction l as [| c l IH]; intros acc; cbn [fold_left filter].
  - cbn. now rewrite app_nil_r.
  - rewrite IH. unfold crop_step. destruct (is_base64_crop c).
    + rewrite <- app_assoc, length_app. cbn [List.length number_from app].
      do 3 f_equal. lia.
    + reflexivity.
Qed.

Lemma process_output_outcome output dogs env this :
  if nullish output
  then exists e, outcome (Service.process_output (iso_now env) output dogs env this)
                 = Throw e
  else outcome (Service.process_output (iso_now env) output dogs env this)
       = Ok (output_step env output dogs).
Proof.
  unfold Service.process_output, output_step, crops_of_output.
  rewrite outcome_bind by auto with obeys.
  destruct (nullish output) eqn:Hn.
  - destruct (get_prop_throws output "dynamic_crop" env this Hn) as [e ->]. eauto.
  - rewrite (get_prop_ok output "dynamic_crop" env this Hn).
    assert (Hloop : forall dc,
              outcome (for_of (items_of dc)
                         (Service.process_crop (iso_now env)) dogs env this)
              = Ok (fold_left (fun acc c => crop_step env c acc)
                      (items_of dc) dogs)).
    { intros dc. apply (for_of_outcome_total (crop_step env)).
      - intros; apply allowed_process_crop.
      - intros; apply process_crop_outcome. }
    destruct (opt_prop output "dynamic_crop") as [| | b | n | s | items | fields];
      cbn [truthy isArray andb items_of fold_left];
      rewrite ?andb_false_r; try reflexivity.
    exact (Hloop (JArray items)).
Qed.

Lemma fold_output_step env outputs : forall acc,
  fold_left (fun acc o => output_step env o acc) outputs acc
  = (acc ++ number_from (dog_of_crop env) (List.length acc)
              (filter is_base64_crop (flat_map crops_of_output outputs)))%list.
Proof.
  induction outputs as [| o rest IH]; intros acc; cbn [fold_left flat_map].
  - cbn. now rewrite app_nil_r.
  - rewrite IH. unfold output_step. rewrite fold_crop_step.
    rewrite filter_app, number_from_app, <- app_assoc, length_app.
    rewrite number_from_length. do 3 f_equal. lia.
Qed.

(** The callback of the filter throws on the predictions that cannot be
    read, and else tells whether the prediction is a confident dog. *)
Lemma is_dog_detection_outcome pred env this :
  if unreadable env pred
  then exists e, outcome (Service.is_dog_detection pred env this) = Throw e
  else outcome (Service.is_dog_detection pred env this)
       = Ok (class_is_dog pred && confident env pred).
Proof.
  unfold Service.is_dog_detection, unreadable, class_is_dog, confident,
    exceeds_half.
  rewrite outcome_bind by auto with obeys.
  destruct (nullish pred) eqn:Hn; cbn [orb].
  - destruct (get_prop_throws pred "class" env this Hn) as [e ->]. eauto.
  - rewrite (get_prop_ok pred "class" env this Hn).
    destruct (opt_prop pred "class") as [| | b | n | s | items | fields];
      cbn [truthy orb andb Service.call_toLowerCase];
      try reflexivity;
      try (rewrite outcome_bind by auto with obeys; cbn; eauto; fail).
    + destruct b; cbn [orb andb]; [| reflexivity].
      rewrite outcome_bind by auto with obeys. cbn. eauto.
    + destruct (number_truthy n); cbn [orb andb]; [| reflexivity].
      rewrite outcome_bind by auto with obeys. cbn. eauto.
    + destruct (string_truthy s) eqn:Hs; cbn [orb andb].
      * rewrite outcome_bind by auto with obeys. cbn [ret outcome fst].
        destruct (toLowerCase s =? "dog"); cbn [andb]; [| reflexivity].
        rewrite outcome_bind by auto with obeys.
        rewrite (get_prop_ok pred "confidence" env this Hn).
        unfold greater_than. cbn [bind ask outcome fst].
        destruct (to_number env (opt_prop pred "confidence")) as [n |];
          [reflexivity | eexists; reflexivity].
      * assert (s = "") as ->
          by (unfold string_truthy in Hs; apply negb_false_iff in Hs;
              now apply String.eqb_eq in Hs).
        reflexivity.
Qed.

(** The image the loop picks is the first truthy one of the three
    places. *)
Lemma pick_imageData_outcome detection env this :
  nullish detection = false ->
  outcome (Service.pick_imageData detection env this) = Ok (image_of detection).
Proof.
  intros Hn. unfold Service.pick_imageData, image_of, image_places.
  rewrite outcome_bind by auto with obeys.
  rewrite (get_prop_ok detection "crop" env this Hn). cbn [find].
  destruct (truthy (opt_prop (opt_prop detection "crop") "image"));
    [reflexivity |].
  rewrite outcome_bind by auto with obeys.
  rewrite (get_prop_ok detection "crops" env this Hn).
  destruct (truthy (opt_prop (opt_index0 (opt_prop detection "crops")) "image"));
    [reflexivity |].
  rewrite outcome_bind by auto with obeys.
  rewrite (get_prop_ok detection "image" env this Hn).
  destruct (truthy (opt_prop detection "image")); reflexivity.
Qed.

Lemma image_of_truthy pred : truthy (image_of pred) = carries_image pred.
Proof.
  unfold image_of, carries_image, image_places. cbn [find existsb].
  destruct (truthy (opt_prop (opt_prop pred "crop") "image")) eqn:E1;
    [exact E1 |].
  destruct (truthy (opt_prop (opt_index0 (opt_prop pred "crops")) "image")) eqn:E2;
    [exact E2 |].
  destruct (truthy (opt_prop pred "image")) eqn:E3; [exact E3 | reflexivity].
Qed.

Lemma carries_image_nullish pred : nullish pred = true -> carries_image pred = false.
Proof. destruct pred; cbn; congruence. Qed.

Lemma process_detection_outcome pred dogs env this :
  outcome (Service.process_detection (iso_now env) pred dogs env this)
  = Ok (detection_step env pred dogs).
Proof.
  unfold Service.process_detection, detection_step.
  rewrite outcome_try_catch by obeys_auto.
  rewrite outcome_bind by auto with obeys.
  destruct (nullish pred) eqn:Hn.
  - unfold Service.pick_imageData.
    rewrite outcome_bind by auto with obeys.
    destruct (get_prop_throws pred "crop" env this Hn) as [e ->].
    rewrite (carries_image_nullish pred Hn).
    rewrite outcome_bind by auto with obeys. now rewrite outcome_debugLog.
  - rewrite (pick_imageData_outcome pred env this Hn), image_of_truthy.
    destruct (carries_image pred); [| reflexivity].
    rewrite outcome_bind by auto with obeys. reflexivity.
Qed.

Lemma fold_detection_step env l : forall acc,
  fold_left (fun acc p => detection_step env p acc) l acc
  = (acc ++ number_from (dog_of_prediction env) (List.length acc)
              (filter carries_image l))%list.
Proof.
  induction l as [| p l IH]; intros acc; cbn [fold_left filter].
  - cbn. now rewrite app_nil_r.
  - rewrite IH. unfold detection_step. destruct (carries_image p).
    + rewrite <- app_assoc, length_app. cbn [List.length number_from app].
      do 3 f_equal. lia.
    + reflexivity.
Qed.

Lemma filter_eligible env l :
  filter carries_image
    (filter (fun pred => class_is_dog pred && confident env pred) l)
  = filter (eligible env) l.
Proof.
  induction l as [| p l IH]; cbn [filter]; [reflexivity |].
  unfold eligible at 1.
  destruct (class_is_dog p && confident env p); cbn [filter andb].
  - now rewrite IH.
  - exact IH.
Qed.

Lemma scan_outputs_outcome outputs env this :
  let scan := if truthy outputs && isArray outputs
              then for_of (items_of outputs)
                     (Service.process_output (iso_now env)) []
              else ret [] in
  if existsb nullish (items_of outputs)
  then exists e, outcome (scan env this) = Throw e
  else outcome (scan env this)
       = Ok (number_from (dog_of_crop env) 0 (base64_crops outputs)).
Proof.
  cbv zeta.
  destruct outputs as [| | b | n | s | items | fields];
    cbn [truthy isArray andb items_of existsb]; rewrite ?andb_false_r;
    try reflexivity.
  pose proof (for_of_outcome nullish (output_step env)
                (Service.process_output (iso_now env)) env this items) as H.
  specialize (H (fun x acc => allowed_process_output _ x acc)).
  assert (Hok : forall x acc, nullish x = false ->
            outcome (Service.process_output (iso_now env) x acc env this)
            = Ok (output_step env x acc)).
  { intros x acc Hx. pose proof (process_output_outcome x acc env this) as P.
    now rewrite Hx in P. }
  assert (Hbad : forall x acc, nullish x = true ->
            exists e, outcome (Service.process_output (iso_now env) x acc env this)
                      = Throw e).
  { intros x acc Hx. pose proof (process_output_outcome x acc env this) as P.
    now rewrite Hx in P. }
  specialize (H Hok Hbad []).
  destruct (existsb nullish items); [exact H |].
  rewrite H, fold_output_step. reflexivity.
Qed.

(** The fallback: the filter over the predictions, then the loop over the
    dog detections. *)
Lemma scan_predictions_outcome predictions env this :
  let scan := if truthy predictions && isArray predictions
              then
                bind (Service.debugLog
                        "No dynamic_crop found, falling back to predictions")
                  (fun _ =>
                     bind (array_filter Service.is_dog_detection
                             (items_of predictions))
                       (fun dogDetections =>
                          for_of dogDetections
                            (Service.process_detection (iso_now env)) []))
              else ret [] in
  if existsb (unreadable env) (items_of predictions)
  then exists e, outcome (scan env this) = Throw e
  else outcome (scan env this)
       = Ok (number_from (dog_of_prediction env) 0
               (filter (eligible env) (items_of predictions))).
Proof.
  cbv zeta.
  destruct predictions as [| | b | n | s | items | fields];
    cbn [truthy isArray andb items_of existsb filter number_from];
    rewrite ?andb_false_r; try reflexivity.
  rewrite outcome_bind by auto with obeys. rewrite outcome_debugLog.
  rewrite outcome_bind by obeys_auto.
  pose proof (array_filter_outcome (unreadable env)
                (fun pred => class_is_dog pred && confident env pred)
                Service.is_dog_detection env this items) as H.
  specialize (H (fun x => obeys_is_dog_detection _ x)).
  assert (Hok : forall x, unreadable env x = false ->
            outcome (Service.is_dog_detection x env this)
            = Ok (class_is_dog x && confident env x)).
  { intros x Hx. pose proof (is_dog_detection_outcome x env this) as P.
    now rewrite Hx in P. }
  assert (Hbad : forall x, unreadable env x = true ->
            exists e, outcome (Service.is_dog_detection x env this) = Throw e).
  { intros x Hx. pose proof (is_dog_detection_outcome x env this) as P.
    now rewrite Hx in P. }
  specialize (H Hok Hbad).
  destruct (existsb (unreadable env) items).
  - destruct H as [e ->]. eauto.
  - rewrite H.
    rewrite (for_of_outcome_total (detection_step env))
      by (intros; first [apply allowed_process_detection
                        | apply process_detection_outcome]).
    rewrite fold_detection_step, filter_eligible. reflexivity.
Qed.

Lemma extractDogImages_try_outcome r env this :
  if broken env r
  then exists e, outcome (Service.extractDogImages_try (iso_now env) r env this)
                 = Throw e
  else outcome (Service.extractDogImages_try (iso_now env) r env this)
       = Ok (match crop_dogs env r with
             | [] => prediction_dogs env r
             | dogs => dogs
             end).
Proof.
  unfold Service.extractDogImages_try, broken, prediction_dogs, predictions_of.
  rewrite outcome_bind by auto with obeys. rewrite outcome_debugLog.
  rewrite outcome_bind by auto with obeys.
  destruct (nullish r) eqn:Hn; cbn [orb].
  - destruct (get_prop_throws r "outputs" env this Hn) as [e ->]. eauto.
  - rewrite (get_prop_ok r "outputs" env this Hn).
    rewrite outcome_bind by obeys_auto.
    pose proof (scan_outputs_outcome (opt_prop r "outputs") env this) as Hs.
    cbv zeta in Hs.
    destruct (existsb nullish (items_of (opt_prop r "outputs"))); cbn [orb].
    + destruct Hs as [e ->]. eauto.
    + rewrite Hs. fold (crop_dogs env r).
      rewrite outcome_bind by obeys_auto.
      destruct (crop_dogs env r) as [| dog dogs]; cbn [List.length Nat.eqb];
        [| eexists; reflexivity || reflexivity].
      rewrite outcome_bind by auto with obeys.
      rewrite (get_prop_ok r "predictions" env this Hn).
      pose proof (scan_predictions_outcome (opt_prop r "predictions") env this)
        as Hp.
      cbv zeta in Hp.
      destruct (existsb (unreadable env) (items_of (opt_prop r "predictions"))).
      * destruct Hp as [e He]. exists e. now rewrite He.
      * now rewrite Hp.
Qed.

Lemma extractDogImages_outcome r env this :
  outcome (Service.extractDogImages r env this) = Ok (normalized env r).
Proof.
  unfold Service.extractDogImages.
  rewrite outcome_bind by auto with obeys.
  cbn [new_Date_toISOString bind ask ret outcome fst].
  rewrite outcome_try_catch by auto with obeys.
  pose proof (extractDogImages_try_outcome r env this) as H.
  unfold normalized.
  destruct (broken env r).
  - destruct H as [e ->].
    rewrite outcome_bind by auto with obeys. now rewrite outcome_debugLog.
  - rewrite H. reflexivity.
Qed.

(** ** The service's [detectDogs] *)

Lemma imageSize_outcome dog env this :
  outcome (Service.imageSize dog env this)
  = if unmeasurable env dog then Throw cannot_convert else Ok tt.
Proof.
  unfold Service.imageSize, unmeasurable.
  destruct (truthy (imageData dog)); cbn [andb]; [| reflexivity].
  cbn [bind ask outcome fst].
  destruct (to_number env (length_of (imageData dog))); reflexivity.
Qed.

Lemma service_detectDogs_outcome file env this :
  outcome (Service.detectDogs file env this) =
  Ok match outcome (Service.processWithRoboflow (Service.buffer file)
                      (Service.mimetype file) 3 1000 env this) with
     | Ok roboflowResponse =>
         if existsb (unmeasurable env) (normalized env roboflowResponse)
         then failure_result (message_of cannot_convert)
         else success_result (normalized env roboflowResponse)
     | Throw e => failure_result (message_of e)
     end.
Proof.
  unfold Service.detectDogs.
  rewrite outcome_try_catch by obeys_auto.
  rewrite outcome_bind by auto with obeys.
  destruct (outcome (Service.processWithRoboflow _ _ _ _ env this)) as [r | e].
  - rewrite outcome_bind by auto with obeys. rewrite extractDogImages_outcome.
    rewrite outcome_bind by obeys_auto.
    rewrite (for_of_outcome_unit (unmeasurable env) cannot_convert)
      by (intros; first [apply allowed_imageSize | apply imageSize_outcome]).
    destruct (existsb (unmeasurable env) (normalized env r)).
    + rewrite outcome_bind by auto with obeys. now rewrite outcome_debugLog.
    + rewrite outcome_bind by auto with obeys. now rewrite outcome_debugLog.
  - rewrite outcome_bind by auto with obeys. now rewrite outcome_debugLog.
Qed.

(** ** The controller *)

Lemma controller_accepts image mimeType base64Data env this :
  string_truthy image = true ->
  Controller.base64Regex image = Some (mimeType, base64Data) ->
  outcome (Controller.detectDogs {| Controller.image := JString image |} env this)
  = outcome (Service.detectDogs (file_of mimeType base64Data) env this)
  /\ effects (Controller.detectDogs {| Controller.image := JString image |} env this)
     = effects (Service.detectDogs (file_of mimeType base64Data) env this).
Proof.
  intros Ht Hm. unfold Controller.detectDogs. cbn [Controller.image truthy].
  rewrite Ht, Hm. cbn [negb].
  rewrite outcome_try_catch, effects_try_catch by obeys_auto.
  rewrite outcome_bind, effects_bind by auto with obeys.
  fold (file_of mimeType base64Data).
  rewrite service_detectDogs_outcome. cbn [ret outcome effects fst snd].
  now rewrite !app_nil_r.
Qed.

Lemma strip_prefix_spec p : forall s r,
  Controller.strip_prefix p s = Some r <-> s = p ++ r.
Proof.
  induction p as [| a p IH]; intros s r; cbn.
  - destruct s; split; congruence.
  - destruct s as [| b s]; [split; discriminate |].
    destruct (Ascii.eqb a b) eqn:E.
    + apply Ascii.eqb_eq in E. subst b. rewrite IH. split; congruence.
    + apply Ascii.eqb_neq in E. split; [discriminate | congruence].
Qed.

Lemma span_letters_spec s : forall letters tail,
  Controller.span_letters s = (letters, tail) ->
  s = letters ++ tail /\ all_letters letters = true.
Proof.
  induction s as [| c s IH]; intros letters tail; cbn.
  - intros H; injection H as <- <-. auto.
  - destruct (Controller.is_letter c) eqn:Ec.
    + destruct (Controller.span_letters s) as [l t].
      intros H; injection H as <- <-.
      destruct (IH l t eq_refl) as [-> Hl]. cbn. rewrite Ec. auto.
    + intros H; injection H as <- <-. auto.
Qed.

Lemma span_letters_stop letters : forall c tail,
  all_letters letters = true ->
  Controller.is_letter c = false ->
  Controller.span_letters (letters ++ String c tail) = (letters, String c tail).
Proof.
  induction letters as [| l letters IH]; intros c tail Hl Hc; cbn.
  - now rewrite Hc.
  - cbn in Hl. apply andb_prop in Hl as [H1 H2].
    now rewrite H1, (IH c tail H2 Hc).
Qed.

Lemma base64Regex_spec image letters payload :
  Controller.base64Regex image = Some (letters, payload)
  <-> image = "data:image/" ++ letters ++ ";base64," ++ payload
      /\ all_letters letters = true
      /\ Controller.no_quote payload = true.
Proof.
  unfold Controller.base64Regex. split.
  - destruct (Controller.strip_prefix "data:image/" image) as [rest |] eqn:E1;
      [| discriminate].
    apply strip_prefix_spec in E1.
    destruct (Controller.span_letters rest) as [l t] eqn:E2.
    apply span_letters_spec in E2 as [-> Hl].
    destruct (Controller.strip_prefix ";base64," t) as [p |] eqn:E3;
      [| discriminate].
    apply strip_prefix_spec in E3.
    destruct (Controller.no_quote p) eqn:E4; [| discriminate].
    intros H; injection H as <- <-. subst. auto.
  - intros (-> & Hl & Hq).
    assert (E1 : Controller.strip_prefix "data:image/"
                   ("data:image/" ++ letters ++ ";base64," ++ payload)
                 = Some (letters ++ ";base64," ++ payload))
      by (now apply strip_prefix_spec).
    rewrite E1.
    change (";base64," ++ payload) with (String ";" ("base64," ++ payload)).
    rewrite span_letters_stop by (assumption || reflexivity).
    cbn. now rewrite Hq.
Qed.

Lemma base64Regex_matches image :
  matches_pattern image
  <-> exists groups, Controller.base64Regex image = Some groups.
Proof.
  split.
  - intros (l & p & H). exists (l, p). now apply base64Regex_spec.
  - intros [[l p] H]. exists l, p. now apply base64Regex_spec.
Qed.

(** ** The base64 codec: decoding an encoding gives the octets back *)

Lemma in_range n b :
  (0 <= b < Z.of_nat n)%Z -> In b (map Z.of_nat (seq 0 n)).
Proof.
  intros H. replace b with (Z.of_nat (Z.to_nat b)) by lia.
  apply in_map, in_seq. lia.
Qed.

(** A property of one or two small numbers, decided by running through
    all of them. *)
Lemma check1 (P : Z -> bool) n :
  forallb P (map Z.of_nat (seq 0 n)) = true ->
  forall b, (0 <= b < Z.of_nat n)%Z -> P b = true.
Proof.
  intros H b Hb. rewrite forallb_forall in H. apply H, in_range, Hb.
Qed.

Lemma check2 (P : Z -> Z -> bool) n :
  forallb (fun a => forallb (P a) (map Z.of_nat (seq 0 n)))
    (map Z.of_nat (seq 0 n)) = true ->
  forall a b, (0 <= a < Z.of_nat n)%Z -> (0 <= b < Z.of_nat n)%Z -> P a b = true.
Proof.
  intros H a b Ha Hb. rewrite forallb_forall in H.
  apply (check1 (P a) n); [apply H, in_range, Ha | exact Hb].
Qed.

Section Sextets.
Import Buffer.

Lemma in_sextet_spec s : in_sextet s = true -> sextet s.
Proof. unfold in_sextet, sextet. lia. Qed.

Lemma sextet_char s :
  sextet s ->
  Ascii.eqb (base64_char s) "="%char = false
  /\ unbase64 (base64_char s) = Some s
  /\ Controller.is_quote (base64_char s) = false.
Proof.
  intros Hs.
  pose proof (check1 (fun s =>
      negb (Ascii.eqb (base64_char s) "="%char)
      && match unbase64 (base64_char s) with
         | Some s' => (s' =? s)%Z
         | None => false
         end
      && negb (Controller.is_quote (base64_char s))) 64 ltac:(vm_compute; reflexivity)
      s Hs) as H.
  apply andb_prop in H as [H H3]. apply andb_prop in H as [H1 H2].
  destruct (unbase64 (base64_char s)) as [s' |]; [| discriminate].
  apply Z.eqb_eq in H2. subst s'.
  repeat split; [now apply negb_true_iff in H1 | now apply negb_true_iff in H3].
Qed.

Lemma shiftr2_sextet a : octet a -> sextet (Z.shiftr a 2).
Proof.
  intros Ha. apply in_sextet_spec.
  exact (check1 (fun a => in_sextet (Z.shiftr a 2)) 256
           ltac:(vm_compute; reflexivity) a Ha).
Qed.

Lemma land63_sextet a : octet a -> sextet (Z.land a 63).
Proof.
  intros Ha. apply in_sextet_spec.
  exact (check1 (fun a => in_sextet (Z.land a 63)) 256
           ltac:(vm_compute; reflexivity) a Ha).
Qed.

Lemma enc1_sextet a b : octet a -> octet b -> sextet (enc1 a b).
Proof.
  intros Ha Hb. apply in_sextet_spec.
  exact (check2 (fun a b => in_sextet (enc1 a b)) 256
           ltac:(vm_compute; reflexivity) a b Ha Hb).
Qed.

Lemma enc2_sextet a b : octet a -> octet b -> sextet (enc2 a b).
Proof.
  intros Ha Hb. apply in_sextet_spec.
  exact (check2 (fun a b => in_sextet (enc2 a b)) 256
           ltac:(vm_compute; reflexivity) a b Ha Hb).
Qed.

Lemma dec0_enc a b : octet a -> octet b -> dec0 (Z.shiftr a 2) (enc1 a b) = a.
Proof.
  intros Ha Hb. apply Z.eqb_eq.
  exact (check2 (fun a b => dec0 (Z.shiftr a 2) (enc1 a b) =? a)%Z 256
           ltac:(vm_compute; reflexivity) a b Ha Hb).
Qed.

Lemma enc1_low a b : octet a -> octet b -> Z.land (enc1 a b) 15 = Z.shiftr b 4.
Proof.
  intros Ha Hb. apply Z.eqb_eq.
  exact (check2 (fun a b => Z.land (enc1 a b) 15 =? Z.shiftr b 4)%Z 256
           ltac:(vm_compute; reflexivity) a b Ha Hb).
Qed.

Lemma enc2_high b c :
  octet b -> octet c -> Z.shiftr (Z.land (enc2 b c) 60) 2 = Z.land b 15.
Proof.
  intros Hb Hc. apply Z.eqb_eq.
  exact (check2 (fun b c => Z.shiftr (Z.land (enc2 b c) 60) 2 =? Z.land b 15)%Z 256
           ltac:(vm_compute; reflexivity) b c Hb Hc).
Qed.

Lemma nibbles b :
  octet b -> Z.lor (Z.shiftl (Z.shiftr b 4) 4) (Z.land b 15) = b.
Proof.
  intros Hb. apply Z.eqb_eq.
  exact (check1 (fun b => Z.lor (Z.shiftl (Z.shiftr b 4) 4) (Z.land b 15) =? b)%Z
           256 ltac:(vm_compute; reflexivity) b Hb).
Qed.

Lemma dec1_enc a b c :
  octet a -> octet b -> octet c -> dec1 (enc1 a b) (enc2 b c) = b.
Proof.
  intros Ha Hb Hc. unfold dec1.
  rewrite enc1_low, enc2_high by assumption. now apply nibbles.
Qed.

Lemma dec2_enc b c : octet b -> octet c -> dec2 (enc2 b c) (Z.land c 63) = c.
Proof.
  intros Hb Hc. apply Z.eqb_eq.
  exact (check2 (fun b c => dec2 (enc2 b c) (Z.land c 63) =? c)%Z 256
           ltac:(vm_compute; reflexivity) b c Hb Hc).
Qed.

Lemma octet_0 : octet 0.
Proof. unfold octet. lia. Qed.

Lemma enc1_0 a : enc1 a 0 = Z.shiftl (Z.land a 3) 4.
Proof. unfold enc1. now rewrite Z.shiftr_0_l, Z.lor_0_r. Qed.

Lemma enc2_0 b : enc2 b 0 = Z.shiftl (Z.land b 15) 2.
Proof. unfold enc2. now rewrite Z.shiftr_0_l, Z.lor_0_r. Qed.

End Sextets.

Lemma list_ind3 {A} (P : list A -> Prop) :
  P [] ->
  (forall a, P [a]) ->
  (forall a b, P [a; b]) ->
  (forall a b c l, P l -> P (a :: b :: c :: l)) ->
  forall l, P l.
Proof.
  intros H0 H1 H2 H3 l.
  assert (H : forall n l, (List.length l <= n)%nat -> P l).
  { induction n as [| n IH]; intros l0 Hl.
    - destruct l0; [exact H0 | cbn in Hl; lia].
    - destruct l0 as [| a [| b [| c l0]]]; auto.
      apply H3, IH. cbn in Hl. lia. }
  apply (H (List.length l)). lia.
Qed.

Lemma sextets_of_char s rest :
  Buffer.sextet s ->
  Buffer.sextets_of (Buffer.base64_char s :: rest) = s :: Buffer.sextets_of rest.
Proof.
  intros Hs. destruct (sextet_char s Hs) as (H1 & H2 & _).
  cbn [Buffer.sextets_of]. now rewrite H1, H2.
Qed.

Lemma Forall_octet_3 a b c l :
  Forall Buffer.octet (a :: b :: c :: l) ->
  Buffer.octet a /\ Buffer.octet b /\ Buffer.octet c /\ Forall Buffer.octet l.
Proof.
  intros H. inversion H as [| ? ? Ha H']; subst.
  inversion H' as [| ? ? Hb H'']; subst.
  inversion H'' as [| ? ? Hc H''']; subst. auto.
Qed.

(** Decoding the encoding of a buffer gives the buffer back. *)
Lemma decode_encode buf :
  Forall Buffer.octet buf ->
  Buffer.decode_sextets (Buffer.sextets_of (Buffer.encode_chars buf)) = buf.
Proof.
  induction buf as [| a | a b | a b c l IH] using list_ind3; intros H.
  - reflexivity.
  - inversion H as [| ? ? Ha _]; subst.
    cbn [Buffer.encode_chars]. rewrite <- enc1_0.
    rewrite !sextets_of_char
      by auto using shiftr2_sextet, enc1_sextet, octet_0.
    cbn [Buffer.sextets_of Buffer.decode_sextets].
    change (Ascii.eqb "=" "=") with true. cbn iota.
    f_equal. apply (dec0_enc a 0 Ha octet_0).
  - inversion H as [| ? ? Ha H']; subst. inversion H' as [| ? ? Hb _]; subst.
    cbn [Buffer.encode_chars]. rewrite <- enc2_0.
    fold (enc1 a b).
    rewrite !sextets_of_char
      by auto using shiftr2_sextet, enc1_sextet, enc2_sextet, octet_0.
    cbn [Buffer.sextets_of Buffer.decode_sextets].
    change (Ascii.eqb "=" "=") with true. cbn iota.
    f_equal; [apply (dec0_enc a b Ha Hb) |].
    f_equal. apply (dec1_enc a b 0 Ha Hb octet_0).
  - apply Forall_octet_3 in H as (Ha & Hb & Hc & Hl).
    cbn [Buffer.encode_chars]. fold (enc1 a b) (enc2 b c).
    rewrite !sextets_of_char
      by auto using shiftr2_sextet, enc1_sextet, enc2_sextet, land63_sextet.
    cbn [Buffer.decode_sextets].
    rewrite (IH Hl).
    f_equal; [apply (dec0_enc a b Ha Hb) |].
    f_equal; [apply (dec1_enc a b c Ha Hb Hc) |].
    f_equal. apply (dec2_enc b c Hb Hc).
Qed.

Lemma from_base64_toString buf :
  Forall Buffer.octet buf ->
  Buffer.from_base64 (Buffer.toString_base64 buf) = buf.
Proof.
  intros H. unfold Buffer.from_base64, Buffer.toString_base64.
  rewrite list_ascii_of_string_of_list_ascii. now apply decode_encode.
Qed.

Lemma no_quote_string cs :
  Controller.no_quote (string_of_list_ascii cs) = no_quote_chars cs.
Proof. induction cs as [| c cs IH]; cbn; [reflexivity | now rewrite IH]. Qed.

Lemma no_quote_sextet s rest :
  Buffer.sextet s ->
  no_quote_chars (Buffer.base64_char s :: rest) = no_quote_chars rest.
Proof.
  intros Hs. destruct (sextet_char s Hs) as (_ & _ & H).
  cbn [no_quote_chars]. now rewrite H.
Qed.

(** An encoding holds no double quote. *)
Lemma no_quote_encoding buf :
  Forall Buffer.octet buf ->
  Controller.no_quote (Buffer.toString_base64 buf) = true.
Proof.
  unfold Buffer.toString_base64. rewrite no_quote_string.
  induction buf as [| a | a b | a b c l IH] using list_ind3; intros H.
  - reflexivity.
  - inversion H as [| ? ? Ha _]; subst.
    cbn [Buffer.encode_chars]. rewrite <- enc1_0.
    rewrite !no_quote_sextet
      by auto using shiftr2_sextet, enc1_sextet, octet_0.
    reflexivity.
  - inversion H as [| ? ? Ha H']; subst. inversion H' as [| ? ? Hb _]; subst.
    cbn [Buffer.encode_chars]. rewrite <- enc2_0. fold (enc1 a b).
    rewrite !no_quote_sextet
      by auto using shiftr2_sextet, enc1_sextet, enc2_sextet, octet_0.
    reflexivity.
  - apply Forall_octet_3 in H as (Ha & Hb & Hc & Hl).
    cbn [Buffer.encode_chars]. fold (enc1 a b) (enc2 b c).
    rewrite !no_quote_sextet
      by auto using shiftr2_sextet, enc1_sextet, enc2_sextet, land63_sextet.
    exact (IH Hl).
Qed.

(** ** Numbers *)

Lemma SFeqb_refl_finite s m e :
  SFeqb (S754_finite s m e) (S754_finite s m e) = true.
Proof.
  unfold SFeqb, SFcompare.
  rewrite Z.compare_refl.
  change (Pos.compare_cont Eq m m) with (Pos.compare m m).
  rewrite Pos.compare_refl. destruct s; reflexivity.
Qed.

(** A number above one half is neither zero nor NaN. *)
Lemma above_half_truthy (n : number) :
  (0.5 <? n)%float = true -> number_truthy n = true.
Proof.
  unfold number_truthy, PrimFloat.is_nan.
  rewrite ltb_spec, !eqb_spec.
  change (Prim2SF 0.5%float) with (S754_finite false 4503599627370496 (-53)).
  change (Prim2SF 0%float) with (S754_zero false).
  destruct (Prim2SF n) as [s | s | | s m e].
  - discriminate.
  - destruct s; [discriminate | reflexivity].
  - discriminate.
  - intros _. rewrite SFeqb_refl_finite. destruct s; reflexivity.
Qed.

(** ** What reaches the network *)

Lemma log_only_silent this t :
  Forall (log_only this) t -> steps t = [] /\ posted t = [].
Proof.
  induction 1 as [| e t He _ [IH1 IH2]]; [split; reflexivity |].
  destruct e; try discriminate He; cbn; auto.
Qed.

Lemma local_silent {A} (m : M A) env this :
  local m ->
  steps (effects (m env this)) = [] /\ posted (effects (m env this)) = [].
Proof. intros Hm. destruct (Hm env this) as [_ H]. now apply log_only_silent in H. Qed.

Lemma posted_length t : List.length (posted t) = request_count t.
Proof.
  unfold request_count, posted, steps.
  induction t as [| e t IH]; [reflexivity |].
  destruct e; cbn; auto.
Qed.

Lemma service_detectDogs_network file env this :
  let t := effects (Service.detectDogs file env this) in
  let t0 := effects (Service.processWithRoboflow (Service.buffer file)
                       (Service.mimetype file) 3 1000 env this) in
  steps t = steps t0 /\ posted t = posted t0.
Proof.
  cbv zeta. unfold Service.detectDogs.
  rewrite effects_try_catch by obeys_auto.
  rewrite outcome_bind, effects_bind by auto with obeys.
  rewrite !steps_app, !posted_app.
  assert (Hcatch : forall e : Thrown,
            steps (effects (bind (Service.debugLog "Error in detectDogs")
                              (fun _ => ret (failure_result (message_of e)))
                              env this)) = []
            /\ posted (effects (bind (Service.debugLog "Error in detectDogs")
                                  (fun _ => ret (failure_result (message_of e)))
                                  env this)) = []).
  { intros e. apply local_silent. obeys_auto. }
  destruct (outcome (Service.processWithRoboflow _ _ _ _ env this)) as [r | e].
  - match goal with
    | |- context [effects (bind (Service.extractDogImages r) ?k env this)] =>
        destruct (local_silent (bind (Service.extractDogImages r) k) env this
                    ltac:(obeys_auto)) as [-> ->];
        destruct (outcome (bind (Service.extractDogImages r) k env this))
          as [result | e]
    end.
    + cbn [app steps posted flat_map]. now rewrite !app_nil_r.
    + destruct (Hcatch e) as [E1 E2]. unfold failure_result in E1, E2.
      rewrite E1, E2. now rewrite !app_nil_r.
  - destruct (Hcatch e) as [E1 E2]. unfold failure_result in E1, E2.
    rewrite E1, E2. now rewrite !app_nil_r.
Qed.

Lemma allowed_configs this t :
  Forall (allowed this) t -> Forall (eq Service.request_config) (configs t).
Proof.
  induction 1 as [| e t He _ IH]; [constructor |].
  destruct e; cbn in *; auto.
Qed.

Lemma allowed_logfile this t :
  debug this = false ->
  Forall (allowed this) t -> Forall (fun e => is_logfile_op e = false) t.
Proof.
  intros Hd. induction 1 as [| e t He _ IH]; constructor; [| exact IH].
  destruct e; cbn in *; congruence.
Qed.

(** ** Doubles: comparison and counting *)

Lemma SFleb_trans x y z :
  SFleb x y = true -> SFleb y z = true -> SFleb x z = true.
Proof.
  unfold SFleb, SFcompare.
  change (Pos.compare_cont Eq) with Pos.compare.
  destruct x as [sx | sx | | sx mx ex], y as [sy | sy | | sy my ey],
    z as [sz | sz | | sz mz ez];
    try destruct sx; try destruct sy; try destruct sz;
    try discriminate; try reflexivity; intros H1 H2;
    try discriminate; try reflexivity;
    destruct (Z.compare_spec ex ey), (Z.compare_spec ey ez),
      (Z.compare_spec ex ez); try lia; try discriminate; try reflexivity;
    subst;
    destruct (Pos.compare_spec mx my), (Pos.compare_spec my mz),
      (Pos.compare_spec mx mz); try lia; try discriminate; try reflexivity.
Qed.

Lemma leb_trans (x y z : number) :
  (x <=? y)%float = true -> (y <=? z)%float = true -> (x <=? z)%float = true.
Proof. rewrite !leb_spec. apply SFleb_trans. Qed.








(** The counters up to the limit, number by number: adding one gives the
    next counter, the power of two is the one of the integer, and the
    counters come in order. *)
Lemma count_succ a :
  (0 <= a <= counted_limit)%Z ->
  (number_of_Z a + 1)%float = number_of_Z (a + 1).
Proof.
  intros H. apply Leibniz.eqb_spec.
  apply (check1 (fun a => Leibniz.eqb (number_of_Z a + 1)%float
                            (number_of_Z (a + 1))) 2049
           ltac:(vm_compute; reflexivity)).
  unfold counted_limit in H. lia.
Qed.

Lemma count_pow a :
  (1 <= a <= counted_limit)%Z ->
  Float64.Math_pow2 (number_of_Z a - 1)%float = Z.ldexp 1%float (a - 1).
Proof.
  intros H. apply Leibniz.eqb_spec.
  pose proof (check1 (fun a => (a =? 0)%Z
                          || Leibniz.eqb
                               (Float64.Math_pow2 (number_of_Z a - 1)%float)
                               (Z.ldexp 1%float (a - 1))) 2049
           ltac:(vm_compute; reflexivity) a ltac:(unfold counted_limit in H; lia))
    as E.
  apply orb_prop in E as [E | E]; [apply Z.eqb_eq in E; lia | exact E].
Qed.

Lemma count_step a :
  (0 <= a <= counted_limit)%Z ->
  (number_of_Z a <=? number_of_Z (a + 1))%float = true
  /\ (number_of_Z (a + 1) <=? number_of_Z a)%float = false.
Proof.
  intros H.
  pose proof (check1 (fun a => (number_of_Z a <=? number_of_Z (a + 1))%float
                               && negb (number_of_Z (a + 1) <=? number_of_Z a)%float)
                2049 ltac:(vm_compute; reflexivity) a
                ltac:(unfold counted_limit in H; lia)) as E.
  apply andb_prop in E as [E1 E2]. apply negb_true_iff in E2. now split.
Qed.

Lemma count_refl a :
  (0 <= a <= counted_limit + 1)%Z ->
  (number_of_Z a <=? number_of_Z a)%float = true.
Proof.
  intros H.
  exact (check1 (fun a => (number_of_Z a <=? number_of_Z a)%float) 2050
           ltac:(vm_compute; reflexivity) a
           ltac:(unfold counted_limit in H; lia)).
Qed.

Lemma count_mono a b :
  (0 <= a <= b)%Z -> (b <= counted_limit + 1)%Z ->
  (number_of_Z a <=? number_of_Z b)%float = true.
Proof.
  intros Ha Hb.
  replace b with (a + Z.of_nat (Z.to_nat (b - a)))%Z by lia.
  assert (Hn : (a + Z.of_nat (Z.to_nat (b - a)) <= counted_limit + 1)%Z) by lia.
  induction (Z.to_nat (b - a)) as [| n IH].
  - rewrite Z.add_0_r. apply count_refl. lia.
  - apply (leb_trans _ (number_of_Z (a + Z.of_nat n))); [apply IH; lia |].
    replace (a + Z.of_nat (S n))%Z with (a + Z.of_nat n + 1)%Z by lia.
    apply count_step. lia.
Qed.

(** No counter lies between two neighbours. *)
Lemma count_above r m k :
  (0 <= m)%Z -> (m < k)%Z -> (k <= counted_limit + 1)%Z ->
  (number_of_Z (m + 1) <=? r)%float = false ->
  (number_of_Z k <=? r)%float = false.
Proof.
  intros Hm Hk Hl Hr.
  destruct (number_of_Z k <=? r)%float eqn:E; [| reflexivity].
  rewrite <- Hr. symmetry.
  apply (leb_trans _ (number_of_Z k)); [apply count_mono; lia | exact E].
Qed.

(** A retry count that is at most the limit stops the counter at the
    limit. *)
Lemma count_stops r :
  (r <=? number_of_Z counted_limit)%float = true ->
  (number_of_Z (counted_limit + 1) <=? r)%float = false.
Proof.
  intros Hr.
  destruct (number_of_Z (counted_limit + 1) <=? r)%float eqn:E; [| reflexivity].
  pose proof (leb_trans _ _ _ E Hr) as H.
  destruct (count_step counted_limit ltac:(unfold counted_limit; lia)) as [_ H'].
  congruence.
Qed.

(** The first counter above the retry count. *)
Lemma least_failing (test : Z -> bool) n : forall a,
  test (a + Z.of_nat n)%Z = false ->
  exists m,
    (m <= n)%nat
    /\ (forall i, (a <= i < a + Z.of_nat m)%Z -> test i = true)
    /\ test (a + Z.of_nat m)%Z = false.
Proof.
  induction n as [| n IH]; intros a H.
  - exists 0%nat. split; [lia | split; [intros i Hi; lia | exact H]].
  - destruct (test a) eqn:Ea.
    + destruct (IH (a + 1)%Z) as (m & Hm & Ht & Hf).
      { rewrite <- H. f_equal. lia. }
      exists (S m). split; [lia |]. split.
      * intros i Hi. destruct (Z.eq_dec i a) as [-> | Hne]; [exact Ea |].
        apply Ht. lia.
      * rewrite <- Hf. f_equal. lia.
    + exists 0%nat.
      split; [lia | split; [intros i Hi; lia | now rewrite Z.add_0_r]].
Qed.

(** The number of attempts a retry count allows: the counters [1 .. m] are
    at most [retryCount], and [m + 1] is not. *)
Lemma attempts_allowed (retryCount : number) :
  (retryCount <=? number_of_Z counted_limit)%float = true ->
  exists m,
    (m <= Z.to_nat counted_limit)%nat
    /\ (forall i, (1 <= i <= Z.of_nat m)%Z ->
                  (number_of_Z i <=? retryCount)%float = true)
    /\ (number_of_Z (Z.of_nat m + 1) <=? retryCount)%float = false.
Proof.
  intros Hr.
  destruct (least_failing (fun i => (number_of_Z i <=? retryCount)%float)
              (Z.to_nat counted_limit) 1) as (m & Hm & Ht & Hf).
  - rewrite Z2Nat.id by (unfold counted_limit; lia).
    rewrite Z.add_comm. exact (count_stops _ Hr).
  - exists m. split; [exact Hm |]. split.
    + intros i Hi. apply Ht. lia.
    + rewrite Z.add_comm. exact Hf.
Qed.

(** The loop in doubles is the counted loop over the attempts that the
    retry count allows. *)
Lemma retry_loop64_counted request retryCount d env m :
  forall fuel a lastError this,
    (m <= fuel)%nat ->
    (1 <= a)%Z ->
    (a + Z.of_nat m <= counted_limit + 1)%Z ->
    (forall i, (a <= i < a + Z.of_nat m)%Z ->
               (number_of_Z i <=? retryCount)%float = true) ->
    (number_of_Z (a + Z.of_nat m) <=? retryCount)%float = false ->
    Float64.retry_loop request retryCount d fuel a (number_of_Z a) lastError
      env this
    = ended (counted_loop request (backoff64 d) m a lastError env this).
Proof.
  induction m as [| m IH]; intros fuel a lastError this Hf Ha Hb Ht Hn.
  - rewrite Z.add_0_r in Hn.
    destruct fuel; cbn [Float64.retry_loop counted_loop]; rewrite Hn;
      reflexivity.
  - destruct fuel as [| fuel]; [lia |].
    cbn [Float64.retry_loop counted_loop].
    rewrite (Ht a) by lia.
    rewrite !try_catch_run, !bind_run.
    destruct (request a env this) as [[[v | e] this1] t1]; [reflexivity |].
    destruct (Service.is_client_error e); [reflexivity |].
    rewrite !bind_run. cbn [sleep emit].
    rewrite count_pow, count_succ by lia. fold (backoff64 d a).
    rewrite IH; try lia.
    + destruct (counted_loop request (backoff64 d) m (a + 1) (Some e) env this1)
        as [[[x | e'] this2] t2]; reflexivity.
    + intros i Hi. apply Ht. lia.
    + rewrite <- Hn. do 2 f_equal. lia.
Qed.

Lemma outcome_ended {A} (r : Res A * DogDetectionService * list Event) :
  outcome (ended r) = match outcome r with
                      | Ok a => Ok (Some a)
                      | Throw e => Throw e
                      end.
Proof. destruct r as [[[a | e] this] t]; reflexivity. Qed.

Lemma effects_ended {A} (r : Res A * DogDetectionService * list Event) :
  effects (ended r) = effects r.
Proof. destruct r as [[[a | e] this] t]; reflexivity. Qed.

(** ** [processWithRoboflow] in double precision *)

Section ProcessWithRoboflow64.
Variables (imageBuffer : Buffer.t) (mimetype : string).
Variables (retryCount initialDelayMs : number).
Variables (env : Env) (this : DogDetectionService).
Variables (fuel m : nat).

Hypothesis enough_fuel : (m <= fuel)%nat.
Hypothesis within_limit : (Z.of_nat m <= counted_limit)%Z.
Hypothesis allowed_attempts :
  forall i, (1 <= i <= Z.of_nat m)%Z ->
            (number_of_Z i <=? retryCount)%float = true.
Hypothesis first_refused :
  (number_of_Z (Z.of_nat m + 1) <=? retryCount)%float = false.

Let run := Float64.processWithRoboflow fuel imageBuffer mimetype retryCount
             initialDelayMs env this.

Lemma retry_loop64_from_one request this' :
  Float64.retry_loop request retryCount initialDelayMs fuel 1 1%float None
    env this'
  = ended (counted_loop request (backoff64 initialDelayMs) m 1 None env this').
Proof.
  change 1%float with (number_of_Z 1).
  apply retry_loop64_counted; try lia.
  - intros i Hi. apply allowed_attempts. lia.
  - rewrite Z.add_comm. exact first_refused.
Qed.

Lemma processWithRoboflow64_outcome :
  outcome run =
  match loop_exit (vendor env) m 1 None with
  | Service.Returned value => Ok (Some value)
  | Service.Left lastError =>
      Throw (new_Error ("Roboflow API Error: " ++ last_message lastError))
  end.
Proof.
  unfold run, Float64.processWithRoboflow.
  rewrite outcome_bind by apply obeys_get_this. cbn [get_this outcome fst].
  rewrite outcome_bind by apply obeys_debugLog. rewrite outcome_debugLog.
  rewrite outcome_bind
    by (apply obeys_retry_loop64; intros ?; apply obeys_makeRequest).
  rewrite retry_loop64_from_one, outcome_ended, retry_loop_outcome.
  destruct (loop_exit _ _ _ _) as [value | lastError] eqn:E; [reflexivity |].
  rewrite give_up_runs; [reflexivity |].
  exact (loop_exit_no_response _ _ 1%Z None lastError Logic.I E).
Qed.

Lemma processWithRoboflow64_effects :
  steps (effects run)
  = loop_steps (vendor env) (backoff64 initialDelayMs) m 1
  /\ Forall (eq (request_body
                   (AppConfig.apiKey (AppConfig.roboflow (configService this)))
                   (data_url mimetype imageBuffer)))
       (posted (effects run)).
Proof.
  unfold run, Float64.processWithRoboflow.
  rewrite effects_bind by apply obeys_get_this. cbn [get_this outcome effects fst snd app].
  rewrite effects_bind by apply obeys_debugLog. rewrite outcome_debugLog.
  rewrite effects_bind
    by (apply obeys_retry_loop64; intros ?; apply obeys_makeRequest).
  rewrite !retry_loop64_from_one, outcome_ended, effects_ended,
    retry_loop_outcome.
  rewrite !steps_app, !posted_app, steps_debugLog, posted_debugLog,
    retry_loop_steps.
  assert (E : effects (match loop_exit (vendor env) m 1 None with
                       | Service.Returned value => ret (Some value)
                       | Service.Left lastError =>
                           bind (template (Service.errorMessage_of lastError))
                             (fun errorMessage =>
                                throw (new_Error ("Roboflow API Error: "
                                                  ++ errorMessage)))
                       end env this) = []).
  { destruct (loop_exit _ _ _ _) as [value | lastError] eqn:E; [reflexivity |].
    rewrite give_up_runs; [reflexivity |].
    exact (loop_exit_no_response _ _ 1%Z None lastError Logic.I E). }
  rewrite E. cbn [steps posted flat_map app]. rewrite !app_nil_r.
  split; [reflexivity | apply retry_loop_posted].
Qed.

End ProcessWithRoboflow64.


(** At the default delay and for the retry counts up to the limit, the
    loop on integers and the loop on doubles are the same loop. *)
Lemma default_backoff i :
  (1 <= i <= counted_limit)%Z ->
  backoff 1000 i = backoff64 (number_of_Z 1000) i.
Proof.
  intros H. apply Leibniz.eqb_spec.
  pose proof (check1 (fun i => (i =? 0)%Z
                               || Leibniz.eqb (backoff 1000 i)
                                    (backoff64 (number_of_Z 1000) i)) 2049
                ltac:(vm_compute; reflexivity) i
                ltac:(unfold counted_limit in H; lia)) as E.
  apply orb_prop in E as [E | E]; [apply Z.eqb_eq in E; lia | exact E].
Qed.

Lemma retry_loop_in_doubles request retryCount fuel env this :
  (1 <= retryCount <= counted_limit)%Z ->
  (Z.to_nat retryCount <= fuel)%nat ->
  Float64.retry_loop request (number_of_Z retryCount) (number_of_Z 1000) fuel
    1 1%float None env this
  = ended (Service.retry_loop request retryCount 1000 (Z.to_nat retryCount)
             1 None env this).
Proof.
  intros Hr Hf.
  rewrite retry_loop_counted by lia.
  rewrite (counted_loop_ext request (backoff 1000)
             (backoff64 (number_of_Z 1000)))
    by (intros i Hi; apply default_backoff; lia).
  apply (retry_loop64_from_one (number_of_Z retryCount) (number_of_Z 1000) env
           fuel (Z.to_nat retryCount)); try lia.
  - intros i Hi. apply count_mono; lia.
  - rewrite Z2Nat.id by lia. apply count_step. lia.
Qed.

(* ================================================================== *)
(** * The model at work *)
(* ================================================================== *)

(** The pattern of the controller: letters may be missing, the payload may
    hold anything but a double quote, a line feed included. *)
Example regex_accepts_png :
  Controller.base64Regex sample_image = Some ("png", "QUJD").
Proof. reflexivity. Qed.

Example regex_accepts_no_letters :
  Controller.base64Regex "data:image/;base64," = Some ("", "").
Proof. reflexivity. Qed.

Example regex_accepts_line_feed :
  Controller.base64Regex ("data:image/png;base64,QUJD" ++ newline_char)
  = Some ("png", "QUJD" ++ newline_char).
Proof. reflexivity. Qed.

Example regex_rejects_quote :
  Controller.base64Regex ("data:image/png;base64,QU" ++ quote_char ++ "JD") = None.
Proof. reflexivity. Qed.

Example regex_rejects_other_scheme :
  Controller.base64Regex "data:text/plain;base64,QUJD" = None.
Proof. reflexivity. Qed.

(** Node's codec on a few strings. *)
Example encode_ABC : Buffer.toString_base64 [65; 66; 67]%Z = "QUJD".
Proof. reflexivity. Qed.

Example encode_AB : Buffer.toString_base64 [65; 66]%Z = "QUI=".
Proof. reflexivity. Qed.

Example decode_unpadded : Buffer.from_base64 "QUI" = [65; 66]%Z.
Proof. reflexivity. Qed.

Example decode_skips_blanks : Buffer.from_base64 "QU JD" = [65; 66; 67]%Z.
Proof. reflexivity. Qed.

(** A response with predictions only: the dog carries the prediction's
    confidence and box. *)
Example fallback_to_predictions :
  outcome (Service.extractDogImages prediction_response
             (world_ok prediction_response) sample_service)
  = Ok [ {| id := "dog-1700000000000-0";
            confidence := JNumber 0.75%float;
            bbox := {| x := JNumber 10%float; y := JNumber 20%float;
                       width := JNumber 30%float; height := JNumber 40%float |};
            imageData := JString "QUJD";
            timestamp := JString "2024-01-01T00:00:00.000Z" |} ].
Proof. vm_compute. reflexivity. Qed.

(** A response with a crop and a prediction: the crop wins. *)
Example crops_come_first :
  outcome (Service.extractDogImages crop_and_prediction_response
             (world_ok crop_and_prediction_response) sample_service)
  = Ok [ {| id := "dog-1700000000000-0";
            confidence := JNumber 1.0%float;
            bbox := zero_bbox;
            imageData := JString "QUJD";
            timestamp := JString "2024-01-01T00:00:00.000Z" |} ].
Proof. vm_compute. reflexivity. Qed.

(** The endpoint on a missing image, and on a number in its place. *)
Example no_image :
  outcome (Controller.detectDogs {| Controller.image := JUndefined |}
             world_not_found sample_service)
  = Throw (BadRequestException "No image data provided").
Proof. reflexivity. Qed.

Example image_is_a_number :
  Controller.http_status
    (outcome (Controller.detectDogs {| Controller.image := JNumber 7%float |}
                world_not_found sample_service))
  = 500%Z.
Proof. vm_compute. reflexivity. Qed.

(* ================================================================== *)
(** * Main results *)
(* ================================================================== *)

(** ** C1 *)




Example default_backoff_steps :
  steps (effects (Service.processWithRoboflow [65; 66; 67]%Z "image/png" 3 1000
                    world_not_found sample_service))
  = [Request; Wait 1000; Request; Wait 2000; Request; Wait 4000].
Proof. vm_compute. reflexivity. Qed.

Example default_backoff_steps_in_doubles :
  steps (effects (Float64.processWithRoboflow 3 [65; 66; 67]%Z "image/png" 3
                    1000 world_not_found sample_service))
  = [Request; Wait 1000; Request; Wait 2000; Request; Wait 4000].
Proof. vm_compute. reflexivity. Qed.

(** A retry count of two and a half allows two attempts. *)
Example fractional_retry_count :
  request_count
    (effects (Float64.processWithRoboflow 3 [65; 66; 67]%Z "image/png" 2.5
                1000 world_not_found sample_service))
  = 2%nat.
Proof. vm_compute. reflexivity. Qed.

(** From attempt 1016 on the delay of a second is [Infinity], and without
    a delay to double it is NaN from attempt 1025 on. *)
Example backoff_overflows :
  backoff64 1000 1015 = 0x1.f4p+1023%float
  /\ backoff64 1000 1016 = infinity
  /\ PrimFloat.is_nan (backoff64 0 1025) = true.
Proof. vm_compute. repeat split. Qed.

(** ** C10 *)

(** C10. The no-retry branch of the loop is never taken: an error thrown by
    [makeRequest] has no [response], so the test on [error.response?.status]
    fails for it; and when every attempt fails, whatever the status the
    vendor answered with, all [retryCount] requests are sent. *)
Theorem C10_client_errors_are_retried imageBuffer mimetype retryCount
    initialDelayMs env this :
  (forall n, (1 <= n <= retryCount)%Z -> attempt_fails (vendor env n) = true) ->
  request_count (effects (Service.processWithRoboflow imageBuffer mimetype
                            retryCount initialDelayMs env this))
  = Z.to_nat retryCount
  /\ forall apiUrl apiKey dataUrl attempt e,
       outcome (Service.makeRequest apiUrl apiKey dataUrl attempt env this)
       = Throw e ->
       response_of e = None /\ Service.is_client_error e = false.
Proof.
  intros Hfail. split.
  - destruct (processWithRoboflow_effects imageBuffer mimetype retryCount
                initialDelayMs env this) as [Hs _].
    unfold request_count. rewrite Hs.
    apply loop_steps_all_fail. intros i Hi. apply Hfail. lia.
  - intros apiUrl apiKey dataUrl attempt e. rewrite makeRequest_outcome.
    intros H. split;
      [exact (attempt_error_no_response _ _ H)
      | exact (attempt_error_not_client _ _ H)].
Qed.

(** A vendor that answers 404 to every attempt is asked three times. *)
Lemma C10_client_errors_are_retried_witness :
  (forall n, (1 <= n <= 3)%Z -> attempt_fails (vendor world_not_found n) = true)
  /\ request_count (effects (Service.processWithRoboflow [65; 66; 67]%Z
                               "image/png" 3 1000 world_not_found sample_service))
     = 3%nat.
Proof.
  assert (H : forall n, (1 <= n <= 3)%Z ->
                        attempt_fails (vendor world_not_found n) = true)
    by (intros n _; reflexivity).
  split; [exact H |].
  exact (proj1 (C10_client_errors_are_retried [65; 66; 67]%Z "image/png" 3 1000
                  world_not_found sample_service H)).
Defined.

(** ** C7 *)

(** C7. Every request to the vendor, in [processWithRoboflow] for any retry
    count and in the endpoint as a whole, is made with the timeout of 60000
    ms and with neither of axios' cancellation options set. *)
Theorem C7_fixed_timeout :
  (forall imageBuffer mimetype retryCount initialDelayMs env this,
     Forall (fun config => timeout config = 60000%Z
                           /\ signal config = None
                           /\ cancelToken config = None)
       (configs (effects (Service.processWithRoboflow imageBuffer mimetype
                            retryCount initialDelayMs env this))))
  /\ (forall body env this,
        Forall (fun config => timeout config = 60000%Z
                              /\ signal config = None
                              /\ cancelToken config = None)
          (configs (effects (Controller.detectDogs body env this)))).
Proof.
  assert (H : forall this t,
             Forall (allowed this) t ->
             Forall (fun config => timeout config = 60000%Z
                                   /\ signal config = None
                                   /\ cancelToken config = None) (configs t)).
  { intros this t Ht. apply allowed_configs in Ht.
    eapply Forall_impl; [| exact Ht]. intros c <-. repeat split. }
  split.
  - intros. apply (H this).
    apply (obeys_processWithRoboflow imageBuffer mimetype retryCount
             initialDelayMs env this).
  - intros. apply (H this). apply (obeys_controller_detectDogs body env this).
Qed.

(** ** C6 *)

(** C6. Handling a request leaves the service object as it was, so nothing
    is carried from one request to the next; and a service whose [debug]
    flag is off performs no [mkdir] and no [appendFile]. *)
Theorem C6_no_state_mutation body env this :
  let run := Controller.detectDogs body env this in
  this_after run = this
  /\ debug (this_after run) = debug this
  /\ logsDir (this_after run) = logsDir this
  /\ (debug this = false ->
      Forall (fun e => is_logfile_op e = false) (effects run))
  /\ (forall body' env',
        Controller.detectDogs body' env' (this_after run)
        = Controller.detectDogs body' env' this).
Proof.
  intros run. destruct (obeys_controller_detectDogs body env this) as [Hs Ht].
  fold run in Hs, Ht. rewrite Hs. repeat split.
  intros Hd. now apply (allowed_logfile this).
Qed.

(** ** C2 *)

Lemma controller_outcome body env this :
  outcome (Controller.detectDogs body env this) =
  if truthy (Controller.image body) then
    match Controller.image body with
    | JString image =>
        match Controller.base64Regex image with
        | Some (mimeType, base64Data) =>
            outcome (Service.detectDogs (file_of mimeType base64Data) env this)
        | None => Throw (BadRequestException Controller.invalid_format)
        end
    | _ => Throw (new_Error "image.match is not a function")
    end
  else Throw (BadRequestException "No image data provided").
Proof.
  destruct body as [image]; cbn [Controller.image].
  destruct (truthy image) eqn:Et.
  - destruct image as [| | b | n | s | items | fields];
      try (unfold Controller.detectDogs; cbn [Controller.image];
           rewrite Et; reflexivity).
    destruct (Controller.base64Regex s) as [[l p] |] eqn:Er.
    + exact (proj1 (controller_accepts s l p env this Et Er)).
    + unfold Controller.detectDogs. cbn [Controller.image].
      now rewrite Et, Er.
  - unfold Controller.detectDogs. cbn [Controller.image]. now rewrite Et.
Qed.

Lemma controller_rejects_iff body env this :
  (exists msg, outcome (Controller.detectDogs body env this)
               = Throw (BadRequestException msg))
  <-> refused body.
Proof.
  rewrite controller_outcome. unfold refused.
  destruct (truthy (Controller.image body)) eqn:Et; [| split; eauto].
  destruct (Controller.image body) as [| | b | n | s | items | fields];
    try (split; [intros [msg H]; discriminate
                | intros [H | (image & H & _)]; discriminate]).
  destruct (Controller.base64Regex s) as [[l p] |] eqn:Er.
  - rewrite service_detectDogs_outcome. split.
    + intros [msg H]. discriminate.
    + intros [H | (image & H & Hn)]; [discriminate |].
      injection H as <-. exfalso. apply Hn. apply base64Regex_matches. eauto.
  - split; [| eauto]. intros _. right. exists s. split; [reflexivity |].
    intros Hm. apply base64Regex_matches in Hm as [g Hg]. congruence.
Qed.

Lemma matches_pattern_truthy image :
  matches_pattern image -> string_truthy image = true.
Proof. intros (letters & payload & -> & _). reflexivity. Qed.

(** A body the handler refuses is malformed; a malformed body it does not
    refuse has an image that is truthy and not a string. *)
Lemma refused_malformed body : refused body -> malformed body.
Proof.
  intros [Hf | (image & Hi & Hn)] (image' & Hi' & Hm).
  - rewrite Hi' in Hf. cbn in Hf.
    rewrite (matches_pattern_truthy _ Hm) in Hf. discriminate.
  - rewrite Hi in Hi'. injection Hi' as <-. contradiction.
Qed.

Lemma malformed_not_refused body :
  malformed body -> ~ refused body ->
  truthy (Controller.image body) = true
  /\ is_string (Controller.image body) = false.
Proof.
  intros Hm Hn. unfold malformed, well_formed, refused in *.
  destruct (truthy (Controller.image body)) eqn:Et;
    [split; [reflexivity |] | exfalso; apply Hn; now left].
  destruct (Controller.image body) as [| | b | n | s | items | fields];
    try reflexivity.
  exfalso.
  destruct (Controller.base64Regex s) as [g |] eqn:Er.
  - apply Hm. exists s. split; [reflexivity |].
    apply base64Regex_matches. eauto.
  - apply Hn. right. exists s. split; [reflexivity |].
    intros H. apply base64Regex_matches in H as [g Hg]. congruence.
Qed.

(** C2, what the handler does. It throws [BadRequestException], which Nest
    answers with status 400, exactly for the bodies it refuses: those
    without a truthy image, and those whose image is a string that is not of
    the form [data:image/<letters>;base64,<data>]. These are malformed. An
    image of that form is accepted: its decoded data and its MIME type are
    handed to the service, whose result is returned. Every other malformed
    body, one whose image is truthy and not a string, gets status 500:
    calling its [match] raises a TypeError. *)
Theorem C2_bad_request_iff_refused body env this :
  let run := Controller.detectDogs body env this in
  ((exists msg, outcome run = Throw (BadRequestException msg)) <-> refused body)
  /\ (Controller.http_status (outcome run) = 400%Z <-> refused body)
  /\ (refused body -> malformed body)
  /\ (forall letters payload,
        Controller.image body
        = JString ("data:image/" ++ letters ++ ";base64," ++ payload) ->
        all_letters letters = true ->
        Controller.no_quote payload = true ->
        outcome run = outcome (Service.detectDogs (file_of letters payload) env this)
        /\ effects run = effects (Service.detectDogs (file_of letters payload) env this)
        /\ exists result, outcome run = Ok result)
  /\ (malformed body -> ~ refused body ->
      Controller.http_status (outcome run) = 500%Z).
Proof.
  intros run. split; [apply controller_rejects_iff |].
  split; [| split; [apply refused_malformed | split]].
  - rewrite <- (controller_rejects_iff body env this). fold run.
    destruct (outcome run) as [r | [e | msg]]; cbn; split;
      try discriminate; try (intros [m H]; discriminate); eauto.
  - intros letters payload Hi Hl Hq. destruct body as [image].
    cbn [Controller.image] in Hi. subst image.
    assert (Hr : Controller.base64Regex
                   ("data:image/" ++ letters ++ ";base64," ++ payload)
                 = Some (letters, payload))
      by (apply base64Regex_spec; auto).
    assert (Ht : string_truthy ("data:image/" ++ letters ++ ";base64," ++ payload)
                 = true) by reflexivity.
    destruct (controller_accepts _ letters payload env this Ht Hr) as [Ho He].
    unfold run. rewrite Ho, He. repeat split.
    rewrite service_detectDogs_outcome. eauto.
  - intros Hm Hn. destruct (malformed_not_refused body Hm Hn) as [Ht Hs].
    unfold run. rewrite controller_outcome, Ht.
    destruct (Controller.image body); try discriminate Hs; reflexivity.
Qed.

(** C2 fails on the body [{image: 7}]. The body is malformed: its image is
    not a string. The answer is not 400 but 500, whatever the vendor and
    the service would do. *)
Lemma C2_counterexample :
  malformed {| Controller.image := JNumber 7 |}
  /\ forall env this,
       outcome (Controller.detectDogs {| Controller.image := JNumber 7 |}
                  env this)
       = Throw (new_Error "image.match is not a function")
       /\ Controller.http_status
            (outcome (Controller.detectDogs {| Controller.image := JNumber 7 |}
                        env this)) = 500%Z
       /\ Controller.http_status
            (outcome (Controller.detectDogs {| Controller.image := JNumber 7 |}
                        env this)) <> 400%Z.
Proof.
  split.
  - intros (image & Hi & _). discriminate Hi.
  - intros env this.
    assert (E : outcome (Controller.detectDogs
                           {| Controller.image := JNumber 7 |} env this)
                = Throw (new_Error "image.match is not a function"))
      by reflexivity.
    rewrite E. split; [reflexivity |]. split; [reflexivity | discriminate].
Qed.

(** ** C3 *)

(** C3. For a well-formed request, when all three attempts of the vendor
    call fail, the endpoint answers with a result that reports the failure:
    [success] is false, no dog is listed, and [error] carries the message of
    the last upstream failure. The controller returns this result; it does
    not throw. *)
Theorem C3_upstream_failure_is_reported letters payload env this :
  all_letters letters = true ->
  Controller.no_quote payload = true ->
  (forall n, (1 <= n <= 3)%Z -> attempt_fails (vendor env n) = true) ->
  let image := "data:image/" ++ letters ++ ";base64," ++ payload in
  exists result,
    outcome (Controller.detectDogs {| Controller.image := JString image |} env this)
    = Ok result
    /\ success result = false
    /\ detectedDogs result = []
    /\ error result = Some ("Failed to detect dogs: Roboflow API Error: "
                            ++ upstream_message (vendor env 3)).
Proof.
  intros Hl Hq Hfail image.
  assert (Hr : Controller.base64Regex image = Some (letters, payload))
    by (apply base64Regex_spec; auto).
  assert (Ht : string_truthy image = true) by reflexivity.
  destruct (controller_accepts image letters payload env this Ht Hr) as [Ho _].
  rewrite Ho, service_detectDogs_outcome, processWithRoboflow_outcome.
  change (Z.to_nat 3) with 3%nat.
  rewrite (loop_exit_all_fail (vendor env) 3 1 None)
    by (intros i Hi; apply Hfail; cbn in Hi; lia).
  change (1 + Z.of_nat 2)%Z with 3%Z.
  rewrite last_message_attempt_error.
  eexists. split; [reflexivity |]. repeat split.
Qed.

(** A vendor that answers 404 to every attempt: the client reads
    [success = false] and the vendor's status line. *)
Lemma C3_upstream_failure_is_reported_witness :
  exists result,
    outcome (Controller.detectDogs {| Controller.image := JString sample_image |}
               world_not_found sample_service) = Ok result
    /\ success result = false
    /\ detectedDogs result = []
    /\ error result
       = Some "Failed to detect dogs: Roboflow API Error: HTTP 404: Not Found".
Proof.
  exact (C3_upstream_failure_is_reported "png" "QUJD" world_not_found
           sample_service eq_refl eq_refl (fun n _ => eq_refl)).
Defined.

(** ** C8 *)

(** C8, as stated, fails: with [outputs: [null]] in the vendor's answer the
    [try] block of [extractDogImages] raises a TypeError, an internal
    failure, and [detectDogs] still returns [success = true]. *)
Lemma C8_counterexample :
  let env := world_ok null_output_response in
  (exists resp e,
      outcome (Service.processWithRoboflow (Service.buffer sample_file)
                 (Service.mimetype sample_file) 3 1000 env sample_service)
      = Ok resp
      /\ outcome (Service.extractDogImages_try (iso_now env) resp env sample_service)
         = Throw e)
  /\ exists result,
       outcome (Service.detectDogs sample_file env sample_service) = Ok result
       /\ success result = true
       /\ success result <> false.
Proof.
  cbv zeta. split.
  - eexists. eexists. split; vm_compute; reflexivity.
  - eexists. split; [vm_compute; reflexivity |]. split; [reflexivity | discriminate].
Qed.

Lemma broken_normalized env r : broken env r = true -> normalized env r = [].
Proof. unfold normalized. now intros ->. Qed.

(** C8, amended. [detectDogs] always returns a result and never throws. A
    result with [success = true] has no [error]; one with [success = false]
    has no dogs and a non-empty [error]. When the vendor call fails the
    result has [success = false]. When the vendor call returns, an
    exception raised while the dogs are extracted is absorbed: the result
    has [success = true] and no dogs. Else the result has [success = true]
    and the extracted dogs, unless the size of a dog's image cannot be
    computed for the log entry (its [length] does not convert to a number):
    that TypeError is an internal failure that gives [success = false]. *)
Theorem C8_detectDogs_total file env this :
  let vendor_call := outcome (Service.processWithRoboflow (Service.buffer file)
                                (Service.mimetype file) 3 1000 env this) in
  exists result,
    outcome (Service.detectDogs file env this) = Ok result
    /\ (success result = true -> error result = None)
    /\ (success result = false ->
          detectedDogs result = []
          /\ exists msg, error result = Some msg /\ msg <> "")
    /\ (forall e, vendor_call = Throw e ->
          success result = false
          /\ detectedDogs result = []
          /\ exists msg, error result = Some msg /\ msg <> "")
    /\ (forall resp, vendor_call = Ok resp ->
          existsb (unmeasurable env) (normalized env resp) = false ->
          success result = true /\ detectedDogs result = normalized env resp)
    /\ (forall resp, vendor_call = Ok resp ->
          existsb (unmeasurable env) (normalized env resp) = true ->
          success result = false
          /\ error result
             = Some "Failed to detect dogs: Cannot convert object to primitive value")
    /\ (forall resp e, vendor_call = Ok resp ->
          outcome (Service.extractDogImages_try (iso_now env) resp env this)
          = Throw e ->
          success result = true /\ detectedDogs result = []).
Proof.
  cbv zeta. rewrite service_detectDogs_outcome.
  destruct (outcome (Service.processWithRoboflow _ _ _ _ env this)) as [r | e].
  - destruct (existsb (unmeasurable env) (normalized env r)) eqn:Eu.
    + exists (failure_result (message_of cannot_convert)).
      split; [reflexivity |]. split; [discriminate |]. split.
      { intros _. split; [reflexivity |].
        eexists. split; [reflexivity | discriminate]. }
      split; [discriminate |]. split.
      { intros resp H. injection H as <-. congruence. }
      split.
      { intros resp H _. split; reflexivity. }
      intros resp e H He. injection H as <-.
      pose proof (extractDogImages_try_outcome r env this) as Ht.
      destruct (broken env r) eqn:Eb; [| congruence].
      rewrite (broken_normalized env r Eb) in Eu. discriminate.
    + exists (success_result (normalized env r)).
      split; [reflexivity |]. split; [reflexivity |].
      split; [discriminate |]. split; [discriminate |]. split.
      { intros resp H _. injection H as <-. split; reflexivity. }
      split.
      { intros resp H. injection H as <-. congruence. }
      intros resp e H He. injection H as <-.
      pose proof (extractDogImages_try_outcome r env this) as Ht.
      destruct (broken env r) eqn:Eb; [| congruence].
      rewrite (broken_normalized env r Eb). split; reflexivity.
  - exists (failure_result (message_of e)).
    split; [reflexivity |]. split; [discriminate |]. split.
    { intros _. split; [reflexivity |].
      eexists. split; [reflexivity | discriminate]. }
    split.
    { intros e' _. split; [reflexivity |]. split; [reflexivity |].
      eexists. split; [reflexivity | discriminate]. }
    split; [discriminate |]. split; [discriminate |].
    intros resp e' H. discriminate.
Qed.

(** A crop whose image has a [length] that does not convert to a number:
    the vendor call and the extraction succeed, and the result reports a
    failure. *)
Example unmeasurable_image :
  exists result dog,
    outcome (Service.extractDogImages odd_crop_response
               (strict_world odd_crop_response) sample_service) = Ok [dog]
    /\ outcome (Service.detectDogs sample_file (strict_world odd_crop_response)
                  sample_service) = Ok result
    /\ success result = false
    /\ error result
       = Some "Failed to detect dogs: Cannot convert object to primitive value".
Proof.
  eexists. eexists. split; [vm_compute; reflexivity |].
  split; [vm_compute; reflexivity |]. split; reflexivity.
Qed.

(** ** C9 *)

Lemma eligible_spec env pred :
  eligible env pred = true
  <-> exists c,
        opt_prop pred "class" = JString c
        /\ toLowerCase c = "dog"
        /\ exceeds_half env (opt_prop pred "confidence") = true
        /\ exists image, In image (image_places pred) /\ truthy image = true.
Proof.
  unfold eligible, class_is_dog, confident, carries_image.
  rewrite !andb_true_iff, existsb_exists. split.
  - intros [[Hc Hn] Hi].
    destruct (opt_prop pred "class") as [| | b | n | c | items | fields];
      try discriminate.
    exists c. apply String.eqb_eq in Hc. auto.
  - intros (c & -> & Hc & Hn & Hi). rewrite Hc. auto.
Qed.

Lemma broken_spec env r :
  broken env r = true
  <-> nullish r = true
      \/ (exists output, In output (items_of (opt_prop r "outputs"))
                         /\ nullish output = true)
      \/ (base64_crops (opt_prop r "outputs") = []
          /\ exists pred, In pred (predictions_of r)
                          /\ unreadable env pred = true).
Proof.
  unfold broken. rewrite !orb_true_iff, existsb_exists.
  assert (H : match crop_dogs env r with
              | [] => existsb (unreadable env) (predictions_of r)
              | _ :: _ => false
              end = true
              <-> base64_crops (opt_prop r "outputs") = []
                  /\ exists pred, In pred (predictions_of r)
                                  /\ unreadable env pred = true).
  { unfold crop_dogs.
    destruct (base64_crops (opt_prop r "outputs")) as [| c l]; cbn.
    - rewrite existsb_exists. split; [auto | now intros [_ H]].
    - split; [discriminate | intros [H _]; discriminate]. }
  rewrite H. tauto.
Qed.

(** C9, as stated, fails: one entry that cannot be read empties the whole
    result. After an entry of [outputs] with a base64 crop, a [null] in
    [outputs] leaves no dog, although there is a crop; and in the fallback
    a [null] after a prediction that is a confident dog with an image
    leaves no dog either. *)
Lemma C9_counterexample :
  base64_crops (opt_prop crop_then_null_response "outputs") = [sample_crop]
  /\ outcome (Service.extractDogImages crop_then_null_response
                (world_ok crop_then_null_response) sample_service) = Ok []
  /\ base64_crops (opt_prop prediction_then_null_response "outputs") = []
  /\ filter (eligible (world_ok prediction_then_null_response))
       (predictions_of prediction_then_null_response) = [sample_prediction]
  /\ outcome (Service.extractDogImages prediction_then_null_response
                (world_ok prediction_then_null_response) sample_service) = Ok [].
Proof. repeat split; vm_compute; reflexivity. Qed.

(** C9, amended. A response that cannot be read to the end gives no dog:
    one that is [null], one with a [null] in [outputs], and one without
    base64 crop that has an unreadable prediction ([null], a class that is
    truthy and not a string, or a dog whose confidence does not convert to
    a number). Any other response gives the dogs of the base64
    [dynamic_crop] entries of [outputs] when there is at least one, and
    else exactly the dogs of the eligible predictions, in order: those
    whose class is a string equal to [dog] whatever the case of its
    letters, whose confidence is above 0.5 as a number, and which carry a
    truthy image in one of the three places. *)
Theorem C9_normalization_precedence r env this :
  outcome (Service.extractDogImages r env this)
  = Ok (if broken env r then []
        else
          match base64_crops (opt_prop r "outputs") with
          | [] =>
              number_from (dog_of_prediction env) 0
                (filter (eligible env) (predictions_of r))
          | crops => number_from (dog_of_crop env) 0 crops
          end)
  /\ (broken env r = true
      <-> nullish r = true
          \/ (exists output, In output (items_of (opt_prop r "outputs"))
                             /\ nullish output = true)
          \/ (base64_crops (opt_prop r "outputs") = []
              /\ exists pred, In pred (predictions_of r)
                              /\ unreadable env pred = true))
  /\ (forall pred,
        eligible env pred = true
        <-> exists c,
              opt_prop pred "class" = JString c
              /\ toLowerCase c = "dog"
              /\ exceeds_half env (opt_prop pred "confidence") = true
              /\ exists image, In image (image_places pred)
                               /\ truthy image = true).
Proof.
  split; [| split; [apply broken_spec | intros pred; apply eligible_spec]].
  rewrite extractDogImages_outcome. unfold normalized, crop_dogs, prediction_dogs.
  destruct (broken env r); [reflexivity |].
  destruct (base64_crops (opt_prop r "outputs")); reflexivity.
Qed.

(** ** C4 *)

(** C4, as stated, fails: the dog taken from a crop has confidence 1 and an
    all-zero box, which are not those of the vendor's detection. *)
Lemma C4_counterexample :
  exists dog,
    outcome (Service.extractDogImages crop_and_prediction_response
               (world_ok crop_and_prediction_response) sample_service)
    = Ok [dog]
    /\ confidence dog = JNumber 1.0
    /\ bbox dog = zero_bbox
    /\ predictions_of crop_and_prediction_response = [sample_prediction]
    /\ ~ carries dog sample_prediction.
Proof.
  eexists. split; [vm_compute; reflexivity |].
  split; [reflexivity |]. split; [reflexivity |]. split; [reflexivity |].
  intros [H _].
  apply (f_equal (fun v => match v with
                           | JNumber z => PrimFloat.eqb z 1.0
                           | _ => false
                           end)) in H.
  vm_compute in H. discriminate.
Qed.

Lemma Forall2_number_from {A} (R : DetectedDog -> A -> Prop)
    (mk : nat -> A -> DetectedDog) l :
  (forall k a, In a l -> R (mk k a) a) ->
  forall k, Forall2 R (number_from mk k l) l.
Proof.
  induction l as [| a l IH]; intros H k; cbn; constructor.
  - apply H. now left.
  - apply IH. intros k' a' Ha. apply H. now right.
Qed.

(** A value that is above one half as a number is truthy. *)
Lemma exceeds_half_truthy env v : exceeds_half env v = true -> truthy v = true.
Proof.
  unfold exceeds_half.
  destruct v as [| | b | n | s | items | fields]; cbn;
    try discriminate; try reflexivity.
  - destruct b; [reflexivity | discriminate].
  - apply above_half_truthy.
  - destruct s; [discriminate | reflexivity].
Qed.

Lemma eligible_carries env k p :
  eligible env p = true -> carries (dog_of_prediction env k p) p.
Proof.
  intros H. unfold eligible, confident in H.
  apply andb_prop in H as [H _]. apply andb_prop in H as [_ H].
  unfold carries. cbn [dog_of_prediction confidence bbox x y width height].
  unfold or_else at 1. rewrite (exceeds_half_truthy _ _ H). repeat split.
Qed.

(** C4, amended. In a response that can be read to the end and has base64
    crops, the dogs are those of the crops, one per crop and in order: each
    carries the image of its crop, the fixed confidence 1 and the all-zero
    box, and nothing of a vendor detection. In one without base64 crop, the
    dogs are those of the eligible predictions, one per prediction and in
    order: each carries the confidence of its prediction and its box, a
    falsy coordinate (missing, zero, NaN) being reported as 0. A response
    that cannot be read to the end gives no dog. *)
Theorem C4_detection_data r env this :
  exists dogs,
    outcome (Service.extractDogImages r env this) = Ok dogs
    /\ (broken env r = true -> dogs = [])
    /\ (broken env r = false ->
        base64_crops (opt_prop r "outputs") <> [] ->
        Forall2 from_crop dogs (base64_crops (opt_prop r "outputs")))
    /\ (broken env r = false ->
        base64_crops (opt_prop r "outputs") = [] ->
        Forall2 carries dogs (filter (eligible env) (predictions_of r))).
Proof.
  exists (normalized env r). split; [apply extractDogImages_outcome |].
  unfold normalized, crop_dogs, prediction_dogs.
  split; [now intros -> | split]; intros ->.
  - destruct (base64_crops (opt_prop r "outputs")) as [| c l];
      [congruence | intros _].
    apply (Forall2_number_from from_crop (dog_of_crop env) (c :: l)).
    intros k a _. repeat split.
  - intros ->. cbn [number_from].
    apply Forall2_number_from. intros k p Hp.
    apply filter_In in Hp as [_ He]. now apply eligible_carries.
Qed.

(** ** C5 *)

Lemma controller_posted letters payload env this :
  all_letters letters = true ->
  Controller.no_quote payload = true ->
  let image := "data:image/" ++ letters ++ ";base64," ++ payload in
  let sent := posted (effects (Controller.detectDogs
                                 {| Controller.image := JString image |} env this)) in
  sent <> []
  /\ Forall (fun b => image_value b
                      = "data:image/" ++ letters ++ ";base64,"
                        ++ Buffer.toString_base64 (Buffer.from_base64 payload))
       sent.
Proof.
  intros Hl Hq image sent.
  assert (Hr : Controller.base64Regex image = Some (letters, payload))
    by (apply base64Regex_spec; auto).
  assert (Ht : string_truthy image = true) by reflexivity.
  destruct (controller_accepts image letters payload env this Ht Hr) as [_ He].
  destruct (service_detectDogs_network (file_of letters payload) env this)
    as [Hs Hp].
  destruct (processWithRoboflow_effects (Buffer.from_base64 payload)
              ("image/" ++ letters) 3 1000 env this) as [Hs0 Hp0].
  unfold sent. rewrite He, Hp. cbn [file_of Service.buffer Service.mimetype].
  split.
  - intros Hnil. apply (f_equal (@List.length _)) in Hnil.
    rewrite posted_length in Hnil. unfold request_count in Hnil.
    rewrite Hs0 in Hnil. discriminate.
  - eapply Forall_impl; [| exact Hp0]. intros b <-. reflexivity.
Qed.

(** C5, as stated, fails: a payload in the URL-safe alphabet is accepted by
    the endpoint and reaches the vendor re-encoded in the standard one. *)
Lemma C5_counterexample :
  Controller.base64Regex "data:image/png;base64,-_-_" = Some ("png", "-_-_")
  /\ map image_value
       (posted (effects (Controller.detectDogs
                           {| Controller.image := JString "data:image/png;base64,-_-_" |}
                           (world_ok empty_response) sample_service)))
     = ["data:image/png;base64,+/+/"]
  /\ "data:image/png;base64,+/+/" <> "data:image/png;base64,-_-_".
Proof.
  split; [reflexivity |]. split; [vm_compute; reflexivity | discriminate].
Qed.

(** C5, amended. When the payload of an accepted data URL is the base64
    encoding of a sequence of octets, as [toString('base64')] writes it, the
    data URL sent to the vendor is the one the client supplied, in every
    request of the call. *)
Theorem C5_canonical_payload_forwarded letters buf env this :
  all_letters letters = true ->
  Forall Buffer.octet buf ->
  let image := "data:image/" ++ letters ++ ";base64,"
               ++ Buffer.toString_base64 buf in
  let sent := posted (effects (Controller.detectDogs
                                 {| Controller.image := JString image |} env this)) in
  sent <> [] /\ Forall (fun b => image_value b = image) sent.
Proof.
  intros Hl Hb image sent.
  destruct (controller_posted letters (Buffer.toString_base64 buf) env this Hl
              (no_quote_encoding buf Hb)) as [Hne Hall].
  split; [exact Hne |].
  eapply Forall_impl; [| exact Hall].
  intros b ->. now rewrite from_base64_toString.
Qed.

Lemma C5_canonical_payload_forwarded_witness :
  all_letters "png" = true
  /\ Forall Buffer.octet [65; 66; 67]%Z
  /\ Forall (fun b => image_value b = sample_image)
       (posted (effects (Controller.detectDogs
                           {| Controller.image := JString sample_image |}
                           (world_ok empty_response) sample_service))).
Proof.
  assert (Hb : Forall Buffer.octet [65; 66; 67]%Z)
    by (repeat constructor; unfold Buffer.octet; lia).
  split; [reflexivity |]. split; [exact Hb |].
  exact (proj2 (C5_canonical_payload_forwarded "png" [65; 66; 67]%Z
                  (world_ok empty_response) sample_service eq_refl Hb)).
Defined.

(* ================================================================== *)
(** * Further properties *)
(* ================================================================== *)

(** ** Effects, one service object at a time *)

Lemma debugLog_effects msg env this :
  effects (Service.debugLog msg env this) = log_effects env this msg.
Proof.
  unfold Service.debugLog, log_effects, log_file, log_entry.
  rewrite bind_run. cbn [get_this].
  destruct (debug this); cbn [negb]; [| reflexivity].
  unfold try_catch, bind, fs_mkdir, fs_appendFile, new_Date_toISOString,
    console_error, emit, ask, ret, throw. cbn.
  destruct (mkdir_ok env (logsDir this)); cbn; [| reflexivity].
  destruct (appendFile_ok env _); reflexivity.
Qed.

Section Keeps.
Variables (env : Env) (this : DogDetectionService) (Q : Event -> Prop).

Lemma keeps_bind {A B} (m : M A) (k : A -> M B) :
  obeys m ->
  Forall Q (effects (m env this)) ->
  (forall a, outcome (m env this) = Ok a -> Forall Q (effects (k a env this))) ->
  Forall Q (effects (bind m k env this)).
Proof.
  intros Hm H1 H2. rewrite effects_bind by exact Hm.
  apply Forall_app. split; [exact H1 |].
  destruct (outcome (m env this)) as [a | e]; [now apply H2 | constructor].
Qed.

Lemma keeps_try_catch {A} (m : M A) h :
  obeys m ->
  Forall Q (effects (m env this)) ->
  (forall e, Forall Q (effects (h e env this))) ->
  Forall Q (effects (try_catch m h env this)).
Proof.
  intros Hm H1 H2. rewrite effects_try_catch by exact Hm.
  apply Forall_app. split; [exact H1 |].
  destruct (outcome (m env this)) as [a | e]; [constructor | apply H2].
Qed.

Lemma keeps_for_of {A S} (xs : list A) (body : A -> S -> M S) :
  (forall x acc, obeys (body x acc)) ->
  (forall x acc, Forall Q (effects (body x acc env this))) ->
  forall acc, Forall Q (effects (for_of xs body acc env this)).
Proof.
  intros Ho Hb. induction xs as [| x rest IH]; intros acc; cbn [for_of].
  - constructor.
  - apply keeps_bind; [apply Ho | apply Hb | intros acc' _; apply IH].
Qed.

(** A computation whose effects would all be absurd has none. *)
Lemma keeps_silent {A} (m : M A) :
  obeys_with (fun _ _ => False) m -> Forall Q (effects (m env this)).
Proof.
  intros H. destruct (H env this) as [_ Hf].
  eapply Forall_impl; [| exact Hf]. intros e [].
Qed.

(** The service's own effects satisfy [Q]: what [debugLog] does, a wait,
    a line on the console. *)
Hypothesis Q_log : forall msg, Forall Q (log_effects env this msg).
Hypothesis Q_wait : forall d, Q (SetTimeout d).
Hypothesis Q_console : forall text, Q (ConsoleError text).

Lemma keeps_debugLog msg : Forall Q (effects (Service.debugLog msg env this)).
Proof. rewrite debugLog_effects. apply Q_log. Qed.

Lemma keeps_get_prop v k : Forall Q (effects (get_prop v k env this)).
Proof. unfold get_prop. destruct (prop v k); constructor. Qed.

(** One step of a proof that the effects of a computation satisfy [Q]. *)
Ltac keeps_step :=
  match goal with
  | |- Forall _ (effects (bind _ _ _ _)) =>
      apply keeps_bind; [solve [obeys_auto] | | intros ? _]
  | |- Forall _ (effects (try_catch _ _ _ _)) =>
      apply keeps_try_catch; [solve [obeys_auto] | | intros ?]
  | |- Forall _ (effects (for_of _ _ _ _ _)) =>
      apply keeps_for_of; [intros; solve [obeys_auto] | intros ? ?]
  | |- Forall _ (effects (Service.debugLog _ _ _)) => apply keeps_debugLog
  | |- Forall _ (effects (get_prop _ _ _ _)) => apply keeps_get_prop
  | |- Forall _ (effects (Service.pick_imageData _ _ _)) =>
      apply keeps_silent, obeys_pick_imageData
  | |- Forall _ (effects (Service.imageSize _ _ _)) =>
      apply keeps_silent, obeys_imageSize
  | |- Forall _ (effects (template _ _ _)) =>
      apply keeps_silent, obeys_template
  | |- Forall _ (effects (array_filter Service.is_dog_detection _ _ _)) =>
      apply keeps_silent, obeys_array_filter; intros ?;
      apply obeys_is_dog_detection
  | |- Forall _ (effects ((if ?b then _ else _) _ _)) => destruct b
  | |- Forall _ (effects ((match ?x with _ => _ end) _ _)) => destruct x
  | |- Forall _ (effects _) => solve [constructor]
  end.

Lemma keeps_process_crop ts crop dogs :
  Forall Q (effects (Service.process_crop ts crop dogs env this)).
Proof. unfold Service.process_crop. repeat keeps_step. Qed.

Lemma keeps_process_output ts output dogs :
  Forall Q (effects (Service.process_output ts output dogs env this)).
Proof.
  unfold Service.process_output. repeat keeps_step.
  all: apply keeps_process_crop.
Qed.

Lemma keeps_process_detection ts detection dogs :
  Forall Q (effects (Service.process_detection ts detection dogs env this)).
Proof. unfold Service.process_detection. repeat keeps_step. Qed.

Lemma keeps_extractDogImages r :
  Forall Q (effects (Service.extractDogImages r env this)).
Proof.
  unfold Service.extractDogImages, Service.extractDogImages_try.
  repeat keeps_step.
  all: first [apply keeps_process_output | apply keeps_process_detection].
Qed.

(** The requests of this service object satisfy [Q]. *)
Hypothesis Q_request : forall body,
  api_key body = AppConfig.apiKey (AppConfig.roboflow (configService this)) ->
  image_type body = "base64" ->
  Q (HttpPost (AppConfig.apiUrl (AppConfig.roboflow (configService this)))
       body Service.request_config).

Lemma keeps_makeRequest dataUrl attempt :
  Forall Q (effects (Service.makeRequest
                       (AppConfig.apiUrl (AppConfig.roboflow (configService this)))
                       (AppConfig.apiKey (AppConfig.roboflow (configService this)))
                       dataUrl attempt env this)).
Proof.
  unfold Service.makeRequest.
  apply keeps_try_catch; [solve [obeys_auto] | | intros e; repeat keeps_step].
  apply keeps_bind; [solve [auto with obeys] | | intros r _; repeat keeps_step].
  rewrite axios_post_runs. cbn [effects snd].
  constructor; [| constructor]. now apply Q_request.
Qed.

Lemma keeps_retry_loop dataUrl retryCount d fuel : forall attempt lastError,
  Forall Q (effects (Service.retry_loop
                       (Service.makeRequest
                          (AppConfig.apiUrl (AppConfig.roboflow (configService this)))
                          (AppConfig.apiKey (AppConfig.roboflow (configService this)))
                          dataUrl)
                       retryCount d fuel attempt lastError env this)).
Proof.
  induction fuel as [| k IH]; intros attempt lastError; cbn [Service.retry_loop];
    [constructor |].
  destruct (attempt <=? retryCount)%Z; [| constructor].
  apply keeps_try_catch.
  - apply obeys_bind; [apply obeys_makeRequest | intros ?; apply obeys_ret].
  - apply keeps_bind; [apply obeys_makeRequest | apply keeps_makeRequest |].
    intros; constructor.
  - intros e. destruct (Service.is_client_error e); [constructor |].
    apply keeps_bind; [apply obeys_sleep | | intros _ _; apply IH].
    cbn. constructor; [apply Q_wait | constructor].
Qed.

Lemma keeps_processWithRoboflow buf mime retryCount d :
  Forall Q (effects (Service.processWithRoboflow buf mime retryCount d env this)).
Proof.
  unfold Service.processWithRoboflow.
  apply keeps_bind; [apply obeys_get_this | constructor | intros this0 H0].
  cbn in H0. injection H0 as <-.
  apply keeps_bind; [apply obeys_debugLog | apply keeps_debugLog | intros _ _].
  apply keeps_bind.
  - apply obeys_retry_loop. intros ?. apply obeys_makeRequest.
  - apply keeps_retry_loop.
  - intros [v | e] _; [constructor | repeat keeps_step].
Qed.

Lemma keeps_service_detectDogs file :
  Forall Q (effects (Service.detectDogs file env this)).
Proof.
  unfold Service.detectDogs.
  apply keeps_try_catch; [solve [obeys_auto] | | intros e; repeat keeps_step].
  apply keeps_bind; [solve [auto with obeys] | apply keeps_processWithRoboflow |].
  intros r _.
  apply keeps_bind; [solve [auto with obeys] | apply keeps_extractDogImages |].
  intros dogs _. repeat keeps_step.
Qed.

Lemma keeps_controller_detectDogs body :
  Forall Q (effects (Controller.detectDogs body env this)).
Proof.
  unfold Controller.detectDogs.
  destruct (negb (truthy (Controller.image body))); [constructor |].
  destruct (Controller.image body); try constructor.
  destruct (Controller.base64Regex s) as [[l p] |]; [| constructor].
  apply keeps_try_catch; [solve [obeys_auto] | |].
  - apply keeps_bind; [apply obeys_service_detectDogs
                      | apply keeps_service_detectDogs | intros; constructor].
  - intros e.
    apply keeps_bind; [apply obeys_console_error | | intros; constructor].
    cbn. constructor; [apply Q_console | constructor].
Qed.

End Keeps.

(** ** X1 - X2: the retry loop at its edges *)

(** X1. With a retry count of zero or less [processWithRoboflow] sends no
    request and does not wait: it throws at once, with the fixed message
    about multiple attempts. *)
Theorem X1_no_attempt_without_retries imageBuffer mimetype retryCount
    initialDelayMs env this :
  (retryCount <= 0)%Z ->
  let run := Service.processWithRoboflow imageBuffer mimetype retryCount
               initialDelayMs env this in
  outcome run
  = Throw (new_Error ("Roboflow API Error: "
                      ++ "Failed to process image with Roboflow after multiple attempts"))
  /\ steps (effects run) = []
  /\ posted (effects run) = [].
Proof.
  intros Hr. cbv zeta.
  destruct (processWithRoboflow_effects imageBuffer mimetype retryCount
              initialDelayMs env this) as [Hs _].
  pose proof (posted_length (effects (Service.processWithRoboflow imageBuffer
                mimetype retryCount initialDelayMs env this))) as Hp.
  unfold request_count in Hp. rewrite Hs in Hp.
  rewrite processWithRoboflow_outcome, Hs.
  replace (Z.to_nat retryCount) with 0%nat in * by lia.
  cbn [loop_steps filter List.length] in Hp. cbn [loop_exit loop_steps].
  split; [reflexivity |]. split; [reflexivity |].
  destruct (posted _); [reflexivity | discriminate Hp].
Qed.

Lemma X1_no_attempt_without_retries_witness :
  (0 <= 0)%Z
  /\ steps (effects (Service.processWithRoboflow [65; 66; 67]%Z "image/png" 0 1000
                       (world_ok empty_response) sample_service)) = [].
Proof.
  split; [lia |].
  exact (proj1 (proj2 (X1_no_attempt_without_retries [65; 66; 67]%Z "image/png"
                         0 1000 (world_ok empty_response) sample_service
                         ltac:(lia)))).
Defined.

(** The attempts [a, a + 1, ...], [n] of them. *)
Lemma loop_first_success v delay j : forall n a lastError value,
  (forall i, (a <= i < a + Z.of_nat j)%Z -> attempt_fails (v i) = true) ->
  attempt_result (v (a + Z.of_nat j)%Z) = Ok value ->
  (j < n)%nat ->
  loop_exit v n a lastError = Service.Returned value
  /\ filter is_request (loop_steps v delay n a) = repeat Request (S j)
  /\ flat_map (fun s => match s with Wait x => [x] | Request => [] end)
       (loop_steps v delay n a)
     = map (fun i => delay (a + Z.of_nat i)%Z) (seq 0 j).
Proof.
  induction j as [| j IH]; intros n a lastError value Hf Hs Hn;
    (destruct n as [| n]; [lia |]); cbn [loop_exit loop_steps].
  - rewrite Z.add_0_r in Hs. rewrite attempt_result_fails, Hs.
    repeat split.
  - rewrite (attempt_result_error _ (Hf a ltac:(lia))).
    rewrite (Hf a ltac:(lia)).
    destruct (IH n (a + 1)%Z (Some (attempt_error (v a))) value) as (E1 & E2 & E3).
    + intros i Hi. apply Hf. lia.
    + replace (a + 1 + Z.of_nat j)%Z with (a + Z.of_nat (S j))%Z by lia. exact Hs.
    + lia.
    + split; [exact E1 |]. split.
      * cbn [filter is_request]. rewrite E2. reflexivity.
      * cbn [flat_map app seq map]. rewrite E3, Z.add_0_r. f_equal.
        rewrite <- seq_shift, map_map. apply map_ext. intros i. f_equal. lia.
Qed.

(** X2. The answer of the first attempt that does not fail is the result.
    For a retry count of at most 2048, a double: when attempts [1 .. k - 1]
    fail and attempt [k <= retryCount] is answered with a status below 400
    and a body, [processWithRoboflow] returns that body after exactly [k]
    requests and the [k - 1] waits of the attempts before, the doubles
    [initialDelayMs * 2^(i-1)]; later attempts are never made. *)
Theorem X2_first_answer_wins imageBuffer mimetype
    (retryCount initialDelayMs : number) fuel env this (k : nat)
    (r : AxiosResponse) :
  (1 <= k <= Z.to_nat counted_limit)%nat ->
  (number_of_nat k <=? retryCount)%float = true ->
  (retryCount <=? number_of_Z counted_limit)%float = true ->
  (Z.to_nat counted_limit <= fuel)%nat ->
  (forall i, (1 <= i < Z.of_nat k)%Z -> attempt_fails (vendor env i) = true) ->
  vendor env (Z.of_nat k) = Reply r ->
  (status r < 400)%Z ->
  data r <> JUndefined ->
  let run := Float64.processWithRoboflow fuel imageBuffer mimetype retryCount
               initialDelayMs env this in
  outcome run = Ok (Some (data r))
  /\ request_count (effects run) = k
  /\ delays (effects run) = map (backoff64 initialDelayMs) (attempts (k - 1)).
Proof.
  intros Hk Hkr Hr Hfuel Hf Hv Hst Hd run. unfold run.
  destruct (attempts_allowed retryCount Hr) as (n & Hn & Hall & Hfirst).
  assert (Hkn : (k <= n)%nat).
  { destruct (Nat.le_gt_cases k n) as [H | H]; [exact H | exfalso].
    pose proof (count_above retryCount (Z.of_nat n) (Z.of_nat k)
                  ltac:(lia) ltac:(lia)
                  ltac:(unfold counted_limit in *; lia) Hfirst) as E.
    unfold number_of_nat in Hkr. congruence. }
  assert (Hnl : (Z.of_nat n <= counted_limit)%Z)
    by (unfold counted_limit in *; lia).
  rewrite (processWithRoboflow64_outcome imageBuffer mimetype retryCount
             initialDelayMs env this fuel n ltac:(lia) Hnl Hall Hfirst).
  destruct (processWithRoboflow64_effects imageBuffer mimetype retryCount
              initialDelayMs env this fuel n ltac:(lia) Hnl Hall Hfirst)
    as [Hs _].
  unfold request_count, delays. rewrite Hs.
  destruct (loop_first_success (vendor env) (backoff64 initialDelayMs) (k - 1)
              n 1 None (data r)) as (E1 & E2 & E3).
  - intros i Hi. apply Hf. lia.
  - replace (1 + Z.of_nat (k - 1))%Z with (Z.of_nat k) by lia.
    rewrite Hv. unfold attempt_result, attempt_fails.
    replace (400 <=? status r)%Z with false by lia.
    destruct (data r); try reflexivity. contradiction.
  - lia.
  - rewrite E1, E2, E3, repeat_length. split; [reflexivity |].
    split; [lia |]. unfold attempts.
    rewrite <- seq_shift, !map_map. apply map_ext.
    intros i. f_equal. lia.
Qed.

(** Two failures, then 200: the third answer is returned, after waits of
    one and two seconds. *)
Lemma X2_first_answer_wins_witness :
  outcome (Float64.processWithRoboflow (Z.to_nat counted_limit) [65; 66; 67]%Z
             "image/png" 3 1000 (world_third_time prediction_response)
             sample_service)
  = Ok (Some prediction_response)
  /\ request_count
       (effects (Float64.processWithRoboflow (Z.to_nat counted_limit)
                   [65; 66; 67]%Z "image/png" 3 1000
                   (world_third_time prediction_response) sample_service))
     = 3%nat
  /\ delays
       (effects (Float64.processWithRoboflow (Z.to_nat counted_limit)
                   [65; 66; 67]%Z "image/png" 3 1000
                   (world_third_time prediction_response) sample_service))
     = [1000; 2000]%float.
Proof.
  apply (X2_first_answer_wins [65; 66; 67]%Z "image/png" 3%float 1000%float
           (Z.to_nat counted_limit) (world_third_time prediction_response)
           sample_service 3
           {| status := 200; statusText := "OK"; data := prediction_response |}).
  - unfold counted_limit. lia.
  - reflexivity.
  - vm_compute. reflexivity.
  - apply le_n.
  - intros i Hi. assert (i = 1 \/ i = 2)%Z as [-> | ->] by lia; reflexivity.
  - reflexivity.
  - cbn. lia.
  - discriminate.
Defined.

(** ** X4 - X7: what a request does to the outside *)

Lemma log_effects_log_only env this msg Q :
  (forall e, is_log_event e = true -> In e (log_effects env this msg) -> Q e) ->
  Forall Q (log_effects env this msg).
Proof.
  intros H. apply Forall_forall. intros e He. apply H; [| exact He].
  unfold log_effects in He.
  destruct (debug this); [| destruct He].
  destruct (mkdir_ok env _); [destruct (appendFile_ok env _) |];
    cbn in He; intuition (subst; reflexivity).
Qed.

(** X4. Every request the endpoint sends goes to the URL of the
    configuration, with the key of the configuration, the image marked as
    base64 and the same options, whatever the body of the client and
    whichever attempt it is. *)
Theorem X4_requests_go_to_the_configured_vendor body env this :
  Forall (configured_request this) (effects (Controller.detectDogs body env this)).
Proof.
  apply keeps_controller_detectDogs.
  - intros msg. apply log_effects_log_only.
    intros e He _. destruct e; try discriminate He; exact Logic.I.
  - intros d. exact Logic.I.
  - intros text. exact Logic.I.
  - intros b Hk Ht. repeat split; assumption.
Qed.

Lemma loop_exit_ext v v' n : forall a lastError,
  (forall i, v i = v' i) ->
  loop_exit v n a lastError = loop_exit v' n a lastError.
Proof.
  induction n as [| n IH]; intros a lastError H; [reflexivity |].
  cbn [loop_exit]. rewrite <- H.
  destruct (attempt_result (v a)); [reflexivity | now apply IH].
Qed.

Lemma loop_steps_ext v v' d n : forall a,
  (forall i, v i = v' i) -> loop_steps v d n a = loop_steps v' d n a.
Proof.
  induction n as [| n IH]; intros a H; [reflexivity |].
  cbn [loop_steps]. rewrite <- H, (IH (a + 1)%Z H). reflexivity.
Qed.

Lemma number_from_ext {A} (mk mk' : nat -> A -> DetectedDog) l :
  (forall k a, mk k a = mk' k a) ->
  forall k, number_from mk k l = number_from mk' k l.
Proof.
  intros H. induction l as [| a l IH]; intros k; cbn; [reflexivity |].
  now rewrite H, IH.
Qed.

Lemma to_number_ext env env' v :
  (forall v, toNumber env v = toNumber env' v) ->
  to_number env v = to_number env' v.
Proof.
  intros H. destruct v as [| | b | n | s | items | fields]; cbn;
    try reflexivity; try apply H.
  destruct s; [reflexivity | apply H].
Qed.

Lemma filter_ext_all {A} (f g : A -> bool) l :
  (forall a, f a = g a) -> filter f l = filter g l.
Proof. intros H. apply filter_ext_in. intros a _. apply H. Qed.

Lemma existsb_ext_all {A} (f g : A -> bool) l :
  (forall a, f a = g a) -> existsb f l = existsb g l.
Proof.
  intros H. induction l as [| a l IH]; cbn; [reflexivity | now rewrite H, IH].
Qed.

Lemma normalized_ext env env' r :
  (forall k, date_now env k = date_now env' k) ->
  iso_now env = iso_now env' ->
  (forall v, toNumber env v = toNumber env' v) ->
  normalized env r = normalized env' r.
Proof.
  intros Hd Hi Hn.
  assert (Hc : crop_dogs env r = crop_dogs env' r).
  { unfold crop_dogs. apply number_from_ext.
    intros; unfold dog_of_crop, dog_id; now rewrite Hd, Hi. }
  assert (He : forall p, eligible env p = eligible env' p).
  { intros p. unfold eligible, confident, exceeds_half.
    now rewrite (to_number_ext env env' _ Hn). }
  assert (Hu : forall p, unreadable env p = unreadable env' p).
  { intros p. unfold unreadable. now rewrite (to_number_ext env env' _ Hn). }
  assert (Hp : prediction_dogs env r = prediction_dogs env' r).
  { unfold prediction_dogs.
    rewrite (filter_ext_all _ _ _ He). apply number_from_ext.
    intros; unfold dog_of_prediction, dog_id; now rewrite Hd, Hi. }
  unfold normalized, broken.
  now rewrite Hc, Hp, (existsb_ext_all _ _ _ Hu).
Qed.

Lemma unmeasurable_ext env env' dog :
  (forall v, toNumber env v = toNumber env' v) ->
  unmeasurable env dog = unmeasurable env' dog.
Proof.
  intros Hn. unfold unmeasurable. now rewrite (to_number_ext env env' _ Hn).
Qed.

Lemma controller_effects body env this :
  effects (Controller.detectDogs body env this) =
  match accepted body with
  | Some (mimeType, base64Data) =>
      effects (Service.detectDogs (file_of mimeType base64Data) env this)
  | None => []
  end.
Proof.
  unfold accepted. destruct body as [image]; cbn [Controller.image].
  destruct (truthy image) eqn:Et.
  - destruct image as [| | b | n | s | items | fields];
      try (unfold Controller.detectDogs; cbn [Controller.image];
           rewrite Et; reflexivity).
    destruct (Controller.base64Regex s) as [[l p] |] eqn:Er.
    + exact (proj2 (controller_accepts s l p env this Et Er)).
    + unfold Controller.detectDogs. cbn [Controller.image].
      now rewrite Et, Er.
  - unfold Controller.detectDogs. cbn [Controller.image]. now rewrite Et.
Qed.

Lemma controller_steps body env this :
  steps (effects (Controller.detectDogs body env this)) =
  match accepted body with
  | Some _ => loop_steps (vendor env) (backoff 1000) 3 1
  | None => []
  end.
Proof.
  rewrite controller_effects.
  destruct (accepted body) as [[l p] |]; [| reflexivity].
  destruct (service_detectDogs_network (file_of l p) env this) as [-> _].
  now destruct (processWithRoboflow_effects (Service.buffer (file_of l p))
                  (Service.mimetype (file_of l p)) 3 1000 env this) as [-> _].
Qed.

(** X5. The debug log never changes what a request does: the answer of the
    endpoint and its requests and waits depend on the body, the vendor's
    answers and the clock only, not on the [debug] flag, the logs directory,
    the configuration or the success of the log's file operations. (The
    conversion of a value to a number belongs to the language: it is the
    same in the two worlds.) *)
Theorem X5_logging_does_not_interfere body env env' this this' :
  (forall n, vendor env n = vendor env' n) ->
  (forall k, date_now env k = date_now env' k) ->
  iso_now env = iso_now env' ->
  (forall v, toNumber env v = toNumber env' v) ->
  outcome (Controller.detectDogs body env this)
  = outcome (Controller.detectDogs body env' this')
  /\ steps (effects (Controller.detectDogs body env this))
     = steps (effects (Controller.detectDogs body env' this')).
Proof.
  intros Hv Hd Hi Hn. split.
  - rewrite !controller_outcome.
    destruct (truthy (Controller.image body)); [| reflexivity].
    destruct (Controller.image body); try reflexivity.
    destruct (Controller.base64Regex s) as [[l p] |]; [| reflexivity].
    rewrite !service_detectDogs_outcome, !processWithRoboflow_outcome.
    rewrite (loop_exit_ext (vendor env) (vendor env') _ _ _ Hv).
    destruct (loop_exit _ _ _ _); [| reflexivity].
    rewrite (normalized_ext env env' value Hd Hi Hn).
    now rewrite (existsb_ext_all _ _ _
                   (fun dog => unmeasurable_ext env env' dog Hn)).
  - rewrite !controller_steps.
    destruct (accepted body); [| reflexivity].
    apply loop_steps_ext, Hv.
Qed.

(** Debug on and a disk that refuses every operation: the same answer and
    the same requests as with debug off. *)
Lemma X5_logging_does_not_interfere_witness :
  outcome (Controller.detectDogs {| Controller.image := JString sample_image |}
             world_not_found sample_service)
  = outcome (Controller.detectDogs {| Controller.image := JString sample_image |}
               world_disk_full debug_service)
  /\ steps (effects (Controller.detectDogs
                       {| Controller.image := JString sample_image |}
                       world_not_found sample_service))
     = steps (effects (Controller.detectDogs
                         {| Controller.image := JString sample_image |}
                         world_disk_full debug_service)).
Proof.
  exact (X5_logging_does_not_interfere
           {| Controller.image := JString sample_image |}
           world_not_found world_disk_full sample_service debug_service
           (fun _ => eq_refl) (fun _ => eq_refl) eq_refl (fun _ => eq_refl)).
Defined.

(** X6. The debug log is kept in one place: every directory the endpoint
    makes is [logsDir], and every file it appends to is
    [roboflow-debug.log] in that directory. *)
Theorem X6_log_is_kept_in_one_file body env this :
  Forall (logs_in_place this) (effects (Controller.detectDogs body env this)).
Proof.
  apply keeps_controller_detectDogs.
  - intros msg. unfold log_effects.
    destruct (debug this); [| constructor].
    destruct (mkdir_ok env _); [destruct (appendFile_ok env _) |];
      repeat constructor.
  - intros d. exact Logic.I.
  - intros text. exact Logic.I.
  - intros b _ _. exact Logic.I.
Qed.

(** X7. When the logs directory cannot be made, the endpoint never tries to
    append to the log file, whatever the body and the vendor's answers. *)
Theorem X7_no_append_without_directory body env this :
  mkdir_ok env (logsDir this) = false ->
  Forall (fun e => is_append e = false)
    (effects (Controller.detectDogs body env this)).
Proof.
  intros Hm. apply keeps_controller_detectDogs.
  - intros msg. unfold log_effects. rewrite Hm.
    destruct (debug this); repeat constructor.
  - reflexivity.
  - reflexivity.
  - reflexivity.
Qed.

Lemma X7_no_append_without_directory_witness :
  mkdir_ok world_disk_full (logsDir debug_service) = false
  /\ Forall (fun e => is_append e = false)
       (effects (Controller.detectDogs {| Controller.image := JString sample_image |}
                   world_disk_full debug_service)).
Proof.
  split; [reflexivity |].
  exact (X7_no_append_without_directory
           {| Controller.image := JString sample_image |}
           world_disk_full debug_service eq_refl).
Defined.

(** ** X8 - X9: the dogs of an answer *)

Lemma Forall_number_from_in {A} (Q : DetectedDog -> Prop)
    (mk : nat -> A -> DetectedDog) l :
  (forall k a, In a l -> Q (mk k a)) -> forall k, Forall Q (number_from mk k l).
Proof.
  induction l as [| a l IH]; intros H k; cbn; constructor.
  - apply H. now left.
  - apply IH. intros k' a' Ha'. apply H. now right.
Qed.

Lemma usable_dog_of_crop env k crop :
  is_base64_crop crop = true -> usable_dog env (dog_of_crop env k crop).
Proof.
  intros H. apply andb_prop in H as [_ Hv]. split; [exact Hv | reflexivity].
Qed.

Lemma usable_dog_of_prediction env k p :
  eligible env p = true -> usable_dog env (dog_of_prediction env k p).
Proof.
  intros H. destruct (eligible_carries env k p H) as [Hc _].
  unfold eligible, confident in H.
  apply andb_prop in H as [H Hi]. apply andb_prop in H as [_ Hn].
  split.
  - cbn [dog_of_prediction imageData]. now rewrite image_of_truthy.
  - now rewrite Hc.
Qed.

Lemma normalized_usable env r : Forall (usable_dog env) (normalized env r).
Proof.
  unfold normalized.
  destruct (broken env r); [constructor |].
  destruct (crop_dogs env r) as [| d ds] eqn:E.
  - apply Forall_number_from_in. intros k p Hp.
    apply filter_In in Hp as [_ Hp]. now apply usable_dog_of_prediction.
  - rewrite <- E. apply Forall_number_from_in. intros k crop Hin.
    apply filter_In in Hin as [_ Hin]. now apply usable_dog_of_crop.
Qed.

(** The answers of the endpoint: a failure result, or the normalized dogs
    of the vendor's response. *)
Lemma controller_dogs body env this result :
  outcome (Controller.detectDogs body env this) = Ok result ->
  detectedDogs result = []
  \/ exists r, detectedDogs result = normalized env r.
Proof.
  rewrite controller_outcome.
  destruct (truthy (Controller.image body)); [| discriminate].
  destruct (Controller.image body); try discriminate.
  destruct (Controller.base64Regex s) as [[l p] |]; [| discriminate].
  rewrite service_detectDogs_outcome.
  destruct (outcome (Service.processWithRoboflow _ _ _ _ _ _)) as [r | e];
    [destruct (existsb (unmeasurable env) (normalized env r)) |];
    intros H;
    apply (f_equal (fun o => match o with
                             | Ok x => detectedDogs x
                             | Throw _ => []
                             end)) in H; cbn in H; rewrite <- H.
  - now left.
  - right. now exists r.
  - now left.
Qed.

(** X8. Every dog the endpoint returns has image data (a truthy
    [imageData]) and a confidence that is above 0.5 as a number, whatever
    the vendor answered: entries without an image and weak detections never
    reach the client. *)
Theorem X8_every_dog_is_usable body env this result :
  outcome (Controller.detectDogs body env this) = Ok result ->
  Forall (usable_dog env) (detectedDogs result).
Proof.
  intros H. apply controller_dogs in H as [-> | [r ->]].
  - constructor.
  - apply normalized_usable.
Qed.

Lemma X8_every_dog_is_usable_witness :
  Forall (usable_dog (world_ok prediction_response))
    (detectedDogs (success_result
                     (normalized (world_ok prediction_response) prediction_response))).
Proof.
  apply (X8_every_dog_is_usable {| Controller.image := JString sample_image |}
           (world_ok prediction_response) sample_service).
  vm_compute. reflexivity.
Defined.

Lemma no_dash_digits d : no_dash (NilEmpty.string_of_uint d) = true.
Proof. induction d; cbn; auto. Qed.

Lemma no_dash_show_nat k : no_dash (show_nat k) = true.
Proof.
  unfold show_nat, show_Z.
  destruct (Z.of_nat k) as [| p | p] eqn:E; [reflexivity | | lia].
  cbn. destruct (Pos.to_uint p); try reflexivity; apply no_dash_digits.
Qed.

Lemma to_int_not_nil z : Z.to_int z <> Decimal.Pos Decimal.Nil
                         /\ Z.to_int z <> Decimal.Neg Decimal.Nil.
Proof.
  destruct z as [| p | p]; cbn; split; try discriminate;
    intros H; injection H as H; now apply DecimalPos.Unsigned.to_uint_nonnil in H.
Qed.

Lemma show_Z_inj z z' : show_Z z = show_Z z' -> z = z'.
Proof.
  unfold show_Z. intros H.
  apply (f_equal NilZero.int_of_string) in H.
  destruct (to_int_not_nil z) as [H1 H2], (to_int_not_nil z') as [H1' H2'].
  rewrite !NilZero.isi in H by assumption.
  injection H as H. now apply DecimalZ.to_int_inj.
Qed.

Lemma show_nat_inj k k' : show_nat k = show_nat k' -> k = k'.
Proof. intros H. apply show_Z_inj in H. lia. Qed.

Lemma after_last_dash_none s : forall acc,
  no_dash s = true -> after_last_dash s acc = acc ++ s.
Proof.
  induction s as [| c s IH]; intros acc H; cbn in *.
  - induction acc as [| a acc IHa]; cbn; [reflexivity | now rewrite <- IHa].
  - apply andb_prop in H as [Hc Hs]. apply negb_true_iff in Hc. rewrite Hc.
    rewrite (IH _ Hs).
    induction acc as [| a acc IHa]; cbn; [reflexivity | now rewrite IHa].
Qed.

Lemma after_last_dash_app s t : forall acc,
  no_dash t = true -> after_last_dash (s ++ "-" ++ t) acc = t.
Proof.
  induction s as [| c s IH]; intros acc H; cbn.
  - now apply (after_last_dash_none t EmptyString).
  - destruct (is_dash c); now apply IH.
Qed.

Lemma NoDup_map_inj {A B} (f : A -> B) l :
  (forall a b, f a = f b -> a = b) -> NoDup l -> NoDup (map f l).
Proof.
  intros Hf H. induction H as [| a l Ha H IH]; cbn; constructor; [| exact IH].
  intros Hin. apply in_map_iff in Hin as (b & Hb & Hin).
  apply Hf in Hb. now subst b.
Qed.

Lemma dog_id_inj env k k' : dog_id env k = dog_id env k' -> k = k'.
Proof.
  intros H. apply show_nat_inj.
  apply (f_equal (fun s => after_last_dash s EmptyString)) in H.
  unfold dog_id in H.
  change ("dog-" ++ show_Z (date_now env k) ++ "-" ++ show_nat k)
    with (("dog-" ++ show_Z (date_now env k)) ++ "-" ++ show_nat k) in H.
  change ("dog-" ++ show_Z (date_now env k') ++ "-" ++ show_nat k')
    with (("dog-" ++ show_Z (date_now env k')) ++ "-" ++ show_nat k') in H.
  now rewrite !after_last_dash_app in H by apply no_dash_show_nat.
Qed.

Lemma number_from_ids {A} env (mk : nat -> A -> DetectedDog) l :
  (forall k a, id (mk k a) = dog_id env k) ->
  forall k, map id (number_from mk k l) = map (dog_id env) (seq k (List.length l)).
Proof.
  intros H. induction l as [| a l IH]; intros k; cbn; [reflexivity |].
  now rewrite H, IH.
Qed.

Lemma normalized_ids env r :
  map id (normalized env r)
  = map (dog_id env) (seq 0 (List.length (normalized env r))).
Proof.
  unfold normalized.
  destruct (broken env r); [reflexivity |].
  destruct (crop_dogs env r) as [| d ds] eqn:E.
  - unfold prediction_dogs. rewrite number_from_length.
    now apply number_from_ids.
  - rewrite <- E. unfold crop_dogs. rewrite number_from_length.
    now apply number_from_ids.
Qed.

(** X9. The ids of the dogs of an answer: the dog at position [k] is named
    after the clock and [k], and no two dogs of one answer share an id,
    even when the clock does not advance between them. *)
Theorem X9_ids_are_distinct body env this result :
  outcome (Controller.detectDogs body env this) = Ok result ->
  map id (detectedDogs result)
  = map (dog_id env) (seq 0 (List.length (detectedDogs result)))
  /\ NoDup (map id (detectedDogs result)).
Proof.
  intros H.
  assert (E : map id (detectedDogs result)
              = map (dog_id env) (seq 0 (List.length (detectedDogs result)))).
  { apply controller_dogs in H as [-> | [r ->]];
      [reflexivity | apply normalized_ids]. }
  split; [exact E |].
  rewrite E. apply NoDup_map_inj; [apply dog_id_inj | apply seq_NoDup].
Qed.

(** Three dogs found at the same millisecond. *)
Lemma X9_ids_are_distinct_witness :
  let dogs := normalized (world_ok three_predictions_response)
                three_predictions_response in
  map id dogs = ["dog-1700000000000-0"; "dog-1700000000000-1"; "dog-1700000000000-2"]
  /\ NoDup (map id dogs).
Proof.
  split; [vm_compute; reflexivity |].
  apply (X9_ids_are_distinct {| Controller.image := JString sample_image |}
           (world_ok three_predictions_response) sample_service
           (success_result (normalized (world_ok three_predictions_response)
                              three_predictions_response))).
  vm_compute. reflexivity.
Defined.

(** ** X10: what the vendor receives is canonical *)

Lemma unbase64_sextet c s : Buffer.unbase64 c = Some s -> Buffer.sextet s.
Proof.
  intros H. apply in_sextet_spec.
  assert (E : match Buffer.unbase64 c with
              | Some s => in_sextet s
              | None => true
              end = true)
    by (destruct c as [[] [] [] [] [] [] [] []]; vm_compute; reflexivity).
  now rewrite H in E.
Qed.

Lemma sextets_of_sextets cs : Forall Buffer.sextet (Buffer.sextets_of cs).
Proof.
  induction cs as [| c cs IH]; cbn; [constructor |].
  destruct (Ascii.eqb c "="); [constructor |].
  destruct (Buffer.unbase64 c) as [s |] eqn:E; [| exact IH].
  constructor; [now apply (unbase64_sextet c) | exact IH].
Qed.

Lemma in_octet_spec b : in_octet b = true -> Buffer.octet b.
Proof. unfold in_octet, Buffer.octet. lia. Qed.

Lemma dec_octets a b :
  Buffer.sextet a -> Buffer.sextet b ->
  Buffer.octet (dec0 a b) /\ Buffer.octet (dec1 a b) /\ Buffer.octet (dec2 a b).
Proof.
  intros Ha Hb.
  pose proof (check2 (fun a b => in_octet (dec0 a b) && in_octet (dec1 a b)
                                 && in_octet (dec2 a b)) 64
                ltac:(vm_compute; reflexivity) a b Ha Hb) as H.
  apply andb_prop in H as [H H2]. apply andb_prop in H as [H0 H1].
  auto using in_octet_spec.
Qed.

Lemma decode_sextets_octets ss :
  Forall Buffer.sextet ss -> Forall Buffer.octet (Buffer.decode_sextets ss).
Proof.
  assert (H : forall n ss, (List.length ss <= n)%nat -> Forall Buffer.sextet ss ->
                           Forall Buffer.octet (Buffer.decode_sextets ss)).
  { induction n as [| n IH]; intros l Hl Hs.
    - destruct l; [constructor | cbn in Hl; lia].
    - destruct l as [| s0 [| s1 [| s2 [| s3 l]]]]; try constructor.
      + inversion Hs as [| ? ? H0 Hs1]; subst. inversion Hs1 as [| ? ? H1 _]; subst.
        apply (dec_octets s0 s1 H0 H1).
      + constructor.
      + inversion Hs as [| ? ? H0 Hs1]; subst. inversion Hs1 as [| ? ? H1 _]; subst.
        apply (dec_octets s0 s1 H0 H1).
      + inversion Hs as [| ? ? H0 Hs1]; subst. inversion Hs1 as [| ? ? H1 Hs2]; subst.
        inversion Hs2 as [| ? ? H2 _]; subst.
        constructor; [apply (dec_octets s1 s2 H1 H2) | constructor].
      + inversion Hs as [| ? ? H0 Hs1]; subst. inversion Hs1 as [| ? ? H1 _]; subst.
        apply (dec_octets s0 s1 H0 H1).
      + inversion Hs as [| ? ? H0 Hs1]; subst. inversion Hs1 as [| ? ? H1 Hs2]; subst.
        inversion Hs2 as [| ? ? H2 Hs3]; subst. inversion Hs3 as [| ? ? H3 Hs4]; subst.
        constructor; [apply (dec_octets s1 s2 H1 H2) |].
        constructor; [apply (dec_octets s2 s3 H2 H3) |].
        apply IH; [cbn in Hl; lia | exact Hs4]. }
  apply (H (List.length ss)). lia.
Qed.

(** Whatever the string, [Buffer.from] gives octets. *)
Lemma from_base64_octets s : Forall Buffer.octet (Buffer.from_base64 s).
Proof. apply decode_sextets_octets, sextets_of_sextets. Qed.

(** X10. What the endpoint forwards is canonical: when a client submits the
    data URL the endpoint forwarded for some image, every request to the
    vendor carries that data URL unchanged. So the rewriting of a payload
    (URL-safe alphabet, missing padding, stray characters) happens once. *)
Theorem X10_forwarding_is_idempotent letters payload env this :
  all_letters letters = true ->
  let sent := posted (effects (Controller.detectDogs
                                 {| Controller.image :=
                                      JString (forwarded letters payload) |}
                                 env this)) in
  sent <> []
  /\ Forall (fun b => image_value b = forwarded letters payload) sent.
Proof.
  intros Hl.
  pose proof (from_base64_octets payload) as Ho.
  pose proof (controller_posted letters
                (Buffer.toString_base64 (Buffer.from_base64 payload)) env this
                Hl (no_quote_encoding _ Ho)) as H.
  cbv zeta in H. rewrite (from_base64_toString _ Ho) in H. exact H.
Qed.

(** A payload in the URL-safe alphabet, forwarded in the standard one. *)
Lemma X10_forwarding_is_idempotent_witness :
  forwarded "png" "-_-_" = "data:image/png;base64,+/+/"
  /\ Forall (fun b => image_value b = "data:image/png;base64,+/+/")
       (posted (effects (Controller.detectDogs
                           {| Controller.image :=
                                JString "data:image/png;base64,+/+/" |}
                           world_not_found sample_service))).
Proof.
  split; [reflexivity |].
  exact (proj2 (X10_forwarding_is_idempotent "png" "-_-_" world_not_found
                  sample_service eq_refl)).
Defined.

(** ** X11 - X13: what the endpoint accepts, and how it is configured *)

(** X11. A media type whose subtype holds a character that is not a letter
    (a digit, [+], [-], [.]: [svg+xml], [x-icon], [vnd.microsoft.icon]) is
    rejected with 400 and the vendor is not contacted, whatever follows. *)
Theorem X11_subtype_must_be_letters letters c rest env this :
  all_letters letters = true ->
  Controller.is_letter c = false ->
  c <> ";"%char ->
  let body := {| Controller.image :=
                   JString ("data:image/" ++ letters ++ String c rest) |} in
  outcome (Controller.detectDogs body env this)
  = Throw (BadRequestException Controller.invalid_format)
  /\ effects (Controller.detectDogs body env this) = [].
Proof.
  intros Hl Hc Hs body.
  assert (Er : Controller.base64Regex ("data:image/" ++ letters ++ String c rest)
               = None).
  { unfold Controller.base64Regex.
    replace (Controller.strip_prefix "data:image/"
               ("data:image/" ++ letters ++ String c rest))
      with (Some (letters ++ String c rest))
      by (symmetry; now apply strip_prefix_spec).
    rewrite (span_letters_stop letters c rest Hl Hc).
    cbn [Controller.strip_prefix].
    destruct (Ascii.eqb_spec ";" c) as [E |]; [| reflexivity].
    now subst c. }
  split.
  - rewrite controller_outcome. subst body. cbn [Controller.image truthy].
    change (string_truthy ("data:image/" ++ letters ++ String c rest)) with true.
    cbv iota. now rewrite Er.
  - rewrite controller_effects. unfold accepted. subst body.
    cbn [Controller.image truthy].
    change (string_truthy ("data:image/" ++ letters ++ String c rest)) with true.
    cbv iota. now rewrite Er.
Qed.

Lemma X11_subtype_must_be_letters_witness :
  let body := {| Controller.image :=
                   JString "data:image/svg+xml;base64,QUJD" |} in
  outcome (Controller.detectDogs body world_not_found sample_service)
  = Throw (BadRequestException Controller.invalid_format)
  /\ effects (Controller.detectDogs body world_not_found sample_service) = [].
Proof.
  apply (X11_subtype_must_be_letters "svg" "+"%char "xml;base64,QUJD"
           world_not_found sample_service);
    [reflexivity | reflexivity | discriminate].
Defined.

(** The image string the test client builds matches the controller's
    pattern. *)
Lemma client_image_matches imageBuffer :
  Forall Buffer.octet imageBuffer ->
  Controller.base64Regex
    ("data:image/jpeg;base64," ++ Buffer.toString_base64 imageBuffer)
  = Some ("jpeg", Buffer.toString_base64 imageBuffer).
Proof.
  intros Ho. apply base64Regex_spec.
  split; [reflexivity | split; [reflexivity | now apply no_quote_encoding]].
Qed.

(** X12. The image the test client reads from disk reaches the service as
    it is: the handler of the endpoint accepts the body the client posts,
    whatever the octets of the image, and answers and acts exactly as the
    service does on a JPEG file with those octets. In particular the handler
    never rejects the client's body as malformed. *)
Theorem X12_client_image_reaches_the_service imageBuffer env this :
  Forall Buffer.octet imageBuffer ->
  outcome (Controller.detectDogs (TestClient.request_for imageBuffer) env this)
  = outcome (Service.detectDogs (client_file imageBuffer) env this)
  /\ effects (Controller.detectDogs (TestClient.request_for imageBuffer) env this)
     = effects (Service.detectDogs (client_file imageBuffer) env this).
Proof.
  intros Ho.
  pose proof (controller_accepts
                ("data:image/jpeg;base64," ++ Buffer.toString_base64 imageBuffer)
                "jpeg" (Buffer.toString_base64 imageBuffer) env this eq_refl
                (client_image_matches imageBuffer Ho)) as H.
  unfold file_of in H. rewrite (from_base64_toString _ Ho) in H.
  exact H.
Qed.

Lemma X12_client_image_reaches_the_service_witness :
  outcome (Controller.detectDogs (TestClient.request_for [65; 66; 67]%Z)
             world_not_found sample_service)
  = outcome (Service.detectDogs (client_file [65; 66; 67]%Z)
               world_not_found sample_service)
  /\ effects (Controller.detectDogs (TestClient.request_for [65; 66; 67]%Z)
                world_not_found sample_service)
     = effects (Service.detectDogs (client_file [65; 66; 67]%Z)
                  world_not_found sample_service).
Proof.
  apply (X12_client_image_reaches_the_service [65; 66; 67]%Z
           world_not_found sample_service).
  repeat constructor; unfold Buffer.octet; lia.
Defined.

(** X13. Unless the environment variable [DEBUG_MODE] is exactly [true],
    the service the application builds writes no debug log: a request makes
    no directory and appends to no file. Other spellings ([TRUE], [1],
    [yes]) do not switch the log on. The environment is taken to hold no
    variable named [debug], which [ConfigService] could find instead. *)
Theorem X13_log_needs_debug_mode penv cwd body env :
  penv "DEBUG_MODE" <> Some "true" ->
  penv "debug" = None ->
  Forall (fun e => is_logfile_op e = false)
    (effects (Controller.detectDogs body env (service_of_env penv cwd))).
Proof.
  intros H Hshadow. apply (allowed_logfile (service_of_env penv cwd)).
  - cbn. unfold Configuration.get_debug, Configuration.get. rewrite Hshadow.
    cbn. destruct (penv "DEBUG_MODE") as [v |]; [| reflexivity].
    destruct (String.eqb_spec v "true") as [-> |]; [now destruct H | reflexivity].
  - apply obeys_controller_detectDogs.
Qed.

Lemma X13_log_needs_debug_mode_witness :
  Forall (fun e => is_logfile_op e = false)
    (effects (Controller.detectDogs {| Controller.image := JString sample_image |}
                world_not_found (service_of_env (debug_mode_env "TRUE") "/srv/app"))).
Proof.
  apply (X13_log_needs_debug_mode (debug_mode_env "TRUE") "/srv/app");
    [discriminate | reflexivity].
Defined.

(** ** X14 - X15: the port the application listens on *)

Section ParseInt.
Import Configuration.

Variable junk : string.
Hypothesis junk_stops : starts_with_digit junk = false.

Lemma digits_value_junk acc : digits_value junk acc true = Some acc.
Proof.
  destruct junk as [| c rest]; [reflexivity |].
  cbn in *. now rewrite junk_stops.
Qed.

Lemma digits_value_acc d : forall acc,
  digits_value (NilEmpty.string_of_uint d ++ junk) (Z.pos acc) true
  = Some (Z.pos (Pos.of_uint_acc d acc)).
Proof.
  induction d as [| d IH | d IH | d IH | d IH | d IH | d IH | d IH | d IH
                  | d IH | d IH]; intros acc;
    [apply digits_value_junk | ..];
    cbn [NilEmpty.string_of_uint append Pos.of_uint_acc];
    rewrite <- IH; cbn [digits_value];
    match goal with
    | |- context [is_digit ?c] => change (is_digit c) with true
    end;
    cbv iota; f_equal;
    match goal with
    | |- context [Z.of_nat ?n] =>
        let v := eval vm_compute in (Z.of_nat n) in change (Z.of_nat n) with v
    end;
    lia.
Qed.

Lemma digits_value_uint d :
  digits_value (NilEmpty.string_of_uint d ++ junk) 0 true
  = Some (Z.of_N (Pos.of_uint d)).
Proof.
  induction d as [| d IH | d IH | d IH | d IH | d IH | d IH | d IH | d IH
                  | d IH | d IH];
    [apply digits_value_junk | exact IH | ..];
    cbn [NilEmpty.string_of_uint append Pos.of_uint N2Z.inj Z.of_N];
    rewrite <- digits_value_acc; reflexivity.
Qed.

Lemma parseInt10_uint d :
  d <> Decimal.Nil ->
  parseInt10 (NilEmpty.string_of_uint d ++ junk) = Some (Z.of_N (Pos.of_uint d))
  /\ parseInt10 (String "-" (NilEmpty.string_of_uint d ++ junk))
     = Some (- Z.of_N (Pos.of_uint d))%Z.
Proof.
  intros Hd. split.
  - rewrite <- (digits_value_uint d).
    destruct d; [now destruct Hd | reflexivity ..].
  - transitivity (option_map Z.opp
                    (digits_value (NilEmpty.string_of_uint d ++ junk) 0 true)).
    + destruct d; [now destruct Hd | reflexivity ..].
    + now rewrite digits_value_uint.
Qed.

(** Reading back a printed integer, whatever follows it. *)
Lemma parseInt10_show_Z z : parseInt10 (show_Z z ++ junk) = Some z.
Proof.
  unfold show_Z.
  destruct z as [| p | p]; cbn [Z.to_int NilZero.string_of_int].
  - exact (proj1 (parseInt10_uint (Decimal.D0 Decimal.Nil) ltac:(discriminate))).
  - pose proof (DecimalPos.Unsigned.to_uint_nonnil p) as Hp.
    pose proof (DecimalPos.Unsigned.of_to p) as E.
    replace (NilZero.string_of_uint (Pos.to_uint p))
      with (NilEmpty.string_of_uint (Pos.to_uint p))
      by (destruct (Pos.to_uint p); [now destruct Hp | reflexivity ..]).
    rewrite (proj1 (parseInt10_uint _ Hp)), E. reflexivity.
  - pose proof (DecimalPos.Unsigned.to_uint_nonnil p) as Hp.
    pose proof (DecimalPos.Unsigned.of_to p) as E.
    replace (NilZero.string_of_uint (Pos.to_uint p))
      with (NilEmpty.string_of_uint (Pos.to_uint p))
      by (destruct (Pos.to_uint p); [now destruct Hp | reflexivity ..]).
    cbn [append].
    rewrite (proj2 (parseInt10_uint _ Hp)), E. reflexivity.
Qed.

End ParseInt.

Lemma show_Z_truthy z junk : string_truthy (show_Z z ++ junk) = true.
Proof.
  unfold show_Z.
  destruct z as [| p | p]; cbn [Z.to_int NilZero.string_of_int];
    try reflexivity.
  pose proof (DecimalPos.Unsigned.to_uint_nonnil p) as Hp.
  destruct (Pos.to_uint p); [now destruct Hp | reflexivity ..].
Qed.

Lemma listen_port_unshadowed penv :
  penv "port" = None ->
  Configuration.listen_port penv
  = Configuration.PortNumber
      match Configuration.parseInt10 (Configuration.env_or penv "PORT" "5001") with
      | Some p => if (p =? 0)%Z then 5000%Z else p
      | None => 5000%Z
      end.
Proof.
  intros H. unfold Configuration.listen_port, Configuration.get. rewrite H.
  cbn [Configuration.configuration Configuration.port].
  destruct (Configuration.parseInt10 _) as [p |]; [| reflexivity].
  now destruct (p =? 0)%Z.
Qed.

(** X14. When the environment variable [PORT] holds the decimal numeral of
    a port number, an integer from 1 to 65535, followed by anything that
    does not go on with a digit, [app.listen] is called with that port. The
    environment is taken to hold no variable named [port], which
    [ConfigService] could find instead. *)
Theorem X14_port_from_the_environment penv n junk :
  (1 <= n <= 65535)%Z ->
  starts_with_digit junk = false ->
  penv "PORT" = Some (show_Z n ++ junk) ->
  penv "port" = None ->
  Configuration.listen_port penv = Configuration.PortNumber n.
Proof.
  intros Hn Hj Hp Hshadow.
  rewrite (listen_port_unshadowed penv Hshadow).
  unfold Configuration.env_or. rewrite Hp.
  unfold string_or. rewrite show_Z_truthy, (parseInt10_show_Z junk Hj).
  destruct (Z.eqb_spec n 0); [lia | reflexivity].
Qed.

Lemma X14_port_from_the_environment_witness :
  Configuration.listen_port (port_env "8080/tcp") = Configuration.PortNumber 8080.
Proof.
  apply (X14_port_from_the_environment (port_env "8080/tcp") 8080 "/tcp");
    [lia | reflexivity | reflexivity | reflexivity].
Defined.

Lemma letter_is_no_number c :
  Controller.is_letter c = true ->
  Configuration.is_digit c = false /\ Configuration.is_space c = false
  /\ Ascii.eqb c "-" = false /\ Ascii.eqb c "+" = false.
Proof.
  destruct c as [[] [] [] [] [] [] [] []]; vm_compute; intros H;
    try discriminate H; repeat split.
Qed.

(** X15. The application never listens on port 0, and there are two
    fallbacks: 5001 when [PORT] is not set or empty, and 5000 when [PORT]
    starts with a letter (it is not a number then) or is the numeral 0.
    The environment is taken to hold no variable named [port]. *)
Theorem X15_port_fallbacks penv :
  penv "port" = None ->
  Configuration.listen_port penv <> Configuration.PortNumber 0
  /\ (penv "PORT" = None \/ penv "PORT" = Some "" ->
      Configuration.listen_port penv = Configuration.PortNumber 5001)
  /\ (forall c rest,
        penv "PORT" = Some (String c rest) ->
        Controller.is_letter c = true ->
        Configuration.listen_port penv = Configuration.PortNumber 5000)
  /\ (penv "PORT" = Some "0" ->
      Configuration.listen_port penv = Configuration.PortNumber 5000).
Proof.
  intros Hshadow. rewrite (listen_port_unshadowed penv Hshadow).
  split; [| split; [| split]].
  - destruct (Configuration.parseInt10 _) as [p |]; [| discriminate].
    destruct (Z.eqb_spec p 0) as [| Hp]; [discriminate |].
    intros E. apply Hp. now injection E.
  - unfold Configuration.env_or. intros [-> | ->]; reflexivity.
  - intros c rest Hp Hc.
    apply letter_is_no_number in Hc as (Hd & Hs & Hm & Hpl).
    unfold Configuration.env_or. rewrite Hp.
    unfold Configuration.parseInt10.
    change (string_or (String c rest) "5001") with (String c rest).
    cbn [Configuration.skip_spaces].
    rewrite Hs, Hm, Hpl. cbn [Configuration.digits_value]. now rewrite Hd.
  - intros Hp. unfold Configuration.env_or. now rewrite Hp.
Qed.

(** A [PORT] that is a word: the application listens on 5000. *)
Lemma X15_port_fallbacks_witness :
  Configuration.listen_port (port_env "auto") = Configuration.PortNumber 5000.
Proof.
  apply (proj1 (proj2 (proj2 (X15_port_fallbacks (port_env "auto") eq_refl)))
           "a"%char "uto");
    reflexivity.
Defined.

(** ** X16 - X18: the test client *)

Lemma string_app_assoc (a b c : string) : (a ++ b) ++ c = a ++ b ++ c.
Proof. induction a as [| x a IH]; cbn; [reflexivity | now rewrite IH]. Qed.

Lemma split_from_plain s : forall piece,
  no_semicolon s = true ->
  TestClient.split_from ";base64," 0 piece s = [piece ++ s].
Proof.
  induction s as [| c s IH]; intros piece H; cbn [TestClient.split_from].
  - f_equal. induction piece as [| x p IHp]; cbn; [reflexivity | now rewrite <- IHp].
  - cbn in H. apply andb_prop in H as [Hc Hs].
    cbn [String.prefix].
    destruct (ascii_dec ";" c) as [E | _].
    + subst c. discriminate Hc.
    + rewrite (IH _ Hs), string_app_assoc. reflexivity.
Qed.

Lemma split_from_separator piece payload :
  TestClient.split_from ";base64," 0 piece (";base64," ++ payload)
  = piece :: TestClient.split_from ";base64," 0 EmptyString payload.
Proof. destruct payload; reflexivity. Qed.

Lemma split_data_url pre payload : forall piece,
  no_semicolon pre = true ->
  no_semicolon payload = true ->
  TestClient.split_from ";base64," 0 piece (pre ++ ";base64," ++ payload)
  = [piece ++ pre; payload].
Proof.
  induction pre as [| c pre IH]; intros piece Hpre Hp.
  - change (EmptyString ++ ";base64," ++ payload) with (";base64," ++ payload).
    rewrite split_from_separator, (split_from_plain payload EmptyString Hp).
    cbn [append]. f_equal.
    induction piece as [| x p IHp]; cbn; [reflexivity | now rewrite <- IHp].
  - cbn in Hpre. apply andb_prop in Hpre as [Hc Hpre].
    cbn [append TestClient.split_from String.prefix].
    destruct (ascii_dec ";" c) as [E | _].
    + subst c. discriminate Hc.
    + rewrite (IH _ Hpre Hp), string_app_assoc. reflexivity.
Qed.

Lemma no_semicolon_string cs :
  no_semicolon (string_of_list_ascii cs)
  = forallb (fun c => negb (is_semicolon c)) cs.
Proof. induction cs as [| c cs IH]; cbn; [reflexivity | now rewrite IH]. Qed.

Lemma no_semicolon_sextet s :
  Buffer.sextet s -> negb (is_semicolon (Buffer.base64_char s)) = true.
Proof.
  exact (check1 (fun s => negb (is_semicolon (Buffer.base64_char s))) 64
           ltac:(vm_compute; reflexivity) s).
Qed.

(** An encoding holds no semicolon. *)
Lemma no_semicolon_encoding buf :
  Forall Buffer.octet buf ->
  no_semicolon (Buffer.toString_base64 buf) = true.
Proof.
  unfold Buffer.toString_base64. rewrite no_semicolon_string.
  induction buf as [| a | a b | a b c l IH] using list_ind3; intros H.
  - reflexivity.
  - inversion H as [| ? ? Ha _]; subst.
    cbn [Buffer.encode_chars forallb]. rewrite <- enc1_0.
    rewrite !no_semicolon_sextet
      by auto using shiftr2_sextet, enc1_sextet, octet_0.
    reflexivity.
  - inversion H as [| ? ? Ha H']; subst. inversion H' as [| ? ? Hb _]; subst.
    cbn [Buffer.encode_chars forallb]. rewrite <- enc2_0. fold (enc1 a b).
    rewrite !no_semicolon_sextet
      by auto using shiftr2_sextet, enc1_sextet, enc2_sextet, octet_0.
    reflexivity.
  - apply Forall_octet_3 in H as (Ha & Hb & Hc & Hl).
    cbn [Buffer.encode_chars forallb]. fold (enc1 a b) (enc2 b c).
    rewrite !no_semicolon_sextet
      by auto using shiftr2_sextet, enc1_sextet, enc2_sextet, land63_sextet.
    exact (IH Hl).
Qed.

(** X16. The file the test client saves holds the image: for image data
    that is the base64 encoding of some octets, bare or behind a data-URL
    prefix, [saveBase64Image] writes exactly those octets. *)
Theorem X16_saved_file_holds_the_image pre buf :
  Forall Buffer.octet buf ->
  no_semicolon pre = true ->
  TestClient.saveBase64Image (Buffer.toString_base64 buf) = buf
  /\ TestClient.saveBase64Image (pre ++ ";base64," ++ Buffer.toString_base64 buf)
     = buf.
Proof.
  intros Ho Hpre. pose proof (no_semicolon_encoding buf Ho) as Hs.
  unfold TestClient.saveBase64Image, TestClient.split. split.
  - rewrite (split_from_plain _ EmptyString Hs).
    now apply from_base64_toString.
  - rewrite (split_data_url pre _ EmptyString Hpre Hs).
    now apply from_base64_toString.
Qed.

Lemma X16_saved_file_holds_the_image_witness :
  TestClient.saveBase64Image "QUJD" = [65; 66; 67]%Z
  /\ TestClient.saveBase64Image "data:image/jpeg;base64,QUJD" = [65; 66; 67]%Z.
Proof.
  apply (X16_saved_file_holds_the_image "data:image/jpeg" [65; 66; 67]%Z);
    [repeat constructor; unfold Buffer.octet; lia | reflexivity].
Defined.

(** X17. When every attempt to reach the vendor fails, the handler still
    returns: for an image whose body is within the limit of the JSON body
    parser, the test client sees a reply with status 201 and prints that no
    dogs were detected; the failure of the vendor does not reach the
    script's error branch and no file is saved. For a larger image the
    handler is not reached and the script prints the error of the reply. *)
Theorem X17_client_sees_no_dogs_on_failure imageBuffer env this :
  Forall Buffer.octet imageBuffer ->
  (forall n, (1 <= n <= 3)%Z -> attempt_fails (vendor env n) = true) ->
  let handler := outcome (Controller.detectDogs
                            (TestClient.request_for imageBuffer) env this) in
  ((TestClient.body_length imageBuffer <= TestClient.json_limit)%Z ->
   TestClient.testDogDetection imageBuffer handler
   = [TestClient.Sending; TestClient.ResponseStatus 201;
      TestClient.NoDogsDetected])
  /\ ((TestClient.json_limit < TestClient.body_length imageBuffer)%Z ->
      TestClient.testDogDetection imageBuffer handler
      = [TestClient.Sending;
         TestClient.ErrorTesting TestClient.PayloadTooLarge]).
Proof.
  intros Ho Hf handler. unfold TestClient.testDogDetection.
  split; intros Hl.
  - replace (TestClient.json_limit <? TestClient.body_length imageBuffer)%Z
      with false by (symmetry; apply Z.ltb_ge; exact Hl).
    unfold handler.
    destruct (controller_accepts
                ("data:image/jpeg;base64," ++ Buffer.toString_base64 imageBuffer)
                "jpeg" (Buffer.toString_base64 imageBuffer) env this eq_refl
                (client_image_matches imageBuffer Ho)) as [E _].
    unfold TestClient.request_for. rewrite E.
    rewrite service_detectDogs_outcome, processWithRoboflow_outcome.
    change (Z.to_nat 3) with 3%nat.
    rewrite (loop_exit_all_fail (vendor env) 3 1 None)
      by (intros i Hi; apply Hf; lia).
    reflexivity.
  - replace (TestClient.json_limit <? TestClient.body_length imageBuffer)%Z
      with true by (symmetry; apply Z.ltb_lt; exact Hl).
    reflexivity.
Qed.

Lemma X17_client_sees_no_dogs_on_failure_witness :
  TestClient.testDogDetection [65; 66; 67]%Z
    (outcome (Controller.detectDogs (TestClient.request_for [65; 66; 67]%Z)
                world_not_found sample_service))
  = [TestClient.Sending; TestClient.ResponseStatus 201; TestClient.NoDogsDetected].
Proof.
  apply (X17_client_sees_no_dogs_on_failure [65; 66; 67]%Z
           world_not_found sample_service);
    [repeat constructor; unfold Buffer.octet; lia | reflexivity
    | vm_compute; discriminate].
Defined.

(** What goes through JSON stays truthy, unless it is an infinite
    number, which arrives as [null]. *)
Lemma wire_truthy v :
  truthy v = true -> truthy (wire v) = false ->
  exists n, v = JNumber n /\ is_finite n = false.
Proof.
  destruct v as [| | b | n | s | items | fields]; cbn [wire truthy];
    try congruence.
  intros Ht. destruct (is_finite n) eqn:Ef; [| eauto].
  pose proof Ht as Ht'. unfold number_truthy in Ht'.
  apply negb_true_iff in Ht'. apply orb_false_elim in Ht' as [Hz _].
  rewrite Hz. cbn [truthy]. congruence.
Qed.

Lemma save_dogs_no_image dogs : forall index i,
  In (TestClient.NoImageData i) (fst (TestClient.save_dogs index dogs)) ->
  exists dog,
    (index < i)%nat
    /\ nth_error dogs (i - 1 - index) = Some dog
    /\ truthy (wire (imageData dog)) = false.
Proof.
  induction dogs as [| d dogs IH]; intros index i H; [destruct H |].
  cbn [TestClient.save_dogs] in H. unfold TestClient.save_dog in H.
  assert (Hrest : In (TestClient.NoImageData i)
                    (fst (TestClient.save_dogs (S index) dogs)) ->
                  exists dog,
                    (index < i)%nat
                    /\ nth_error (d :: dogs) (i - 1 - index) = Some dog
                    /\ truthy (wire (imageData dog)) = false).
  { intros Hin. destruct (IH (S index) i Hin) as (dog & Hi & Hn & Ht).
    exists dog. split; [lia |]. split; [| exact Ht].
    replace (i - 1 - index)%nat with (S (i - 1 - S index)) by lia. exact Hn. }
  destruct (truthy (wire (imageData d))) eqn:Et.
  - destruct (wire (imageData d)); try (destruct H; fail).
    destruct (TestClient.save_dogs (S index) dogs) as [outs threw].
    cbn [fst] in *. destruct H as [H | H]; [discriminate | auto].
  - destruct (TestClient.save_dogs (S index) dogs) as [outs threw].
    cbn [fst] in *. destruct H as [H | H]; [| auto].
    injection H as <-. exists d. split; [lia |].
    replace (index + 1 - 1 - index)%nat with 0%nat by lia. split; [reflexivity | exact Et].
Qed.

(** X18. The test client prints that dog [i] of an answer has no image data
    only when the image was lost on the way: every dog of an answer of the
    handler has a truthy image, and the only truthy value that JSON does not
    carry is an infinite number, which arrives as [null]. *)
Theorem X18_client_misses_only_lost_images imageBuffer body env this result i :
  outcome (Controller.detectDogs body env this) = Ok result ->
  In (TestClient.NoImageData i)
    (TestClient.testDogDetection imageBuffer (Ok result)) ->
  exists dog n,
    nth_error (detectedDogs result) (i - 1) = Some dog
    /\ imageData dog = JNumber n
    /\ is_finite n = false.
Proof.
  intros Ho Hin.
  assert (Hu : Forall (usable_dog env) (detectedDogs result)).
  { apply controller_dogs in Ho as [-> | [r ->]];
      [constructor | apply normalized_usable]. }
  unfold TestClient.testDogDetection in Hin.
  destruct Hin as [Hin | Hin]; [discriminate |].
  destruct (TestClient.json_limit <? TestClient.body_length imageBuffer)%Z.
  { destruct Hin as [Hin | []]. discriminate. }
  destruct Hin as [Hin | Hin]; [discriminate |].
  destruct (success result).
  2:{ destruct Hin as [Hin | []]. discriminate. }
  destruct Hin as [Hin | Hin]; [discriminate |].
  destruct (detectedDogs result) as [| d ds] eqn:Ed; [destruct Hin |].
  pose proof (save_dogs_no_image (d :: ds) 0 i) as Hs.
  destruct (TestClient.save_dogs 0 (d :: ds)) as [outs threw]. cbn [fst] in Hs.
  destruct Hin as [Hin | Hin]; [discriminate |].
  apply in_app_or in Hin as [Hin | Hin].
  - destruct (Hs Hin) as (dog & Hi & Hn & Ht).
    rewrite Nat.sub_0_r in Hn.
    assert (Hd : usable_dog env dog).
    { rewrite Forall_forall in Hu. apply Hu. eapply nth_error_In. exact Hn. }
    destruct (wire_truthy (imageData dog) (proj1 Hd) Ht) as (n & En & Ef).
    exists dog, n. auto.
  - destruct threw; [destruct Hin as [Hin | []]; discriminate | destruct Hin].
Qed.

(** A crop whose image is the number 1e999, which is [Infinity]: the dog
    is returned, and the script finds no image in it. *)
Lemma X18_client_misses_only_lost_images_witness :
  exists dog n,
    nth_error (normalized (world_ok lost_image_response) lost_image_response) 0
    = Some dog
    /\ imageData dog = JNumber n
    /\ is_finite n = false.
Proof.
  apply (X18_client_misses_only_lost_images [65; 66; 67]%Z
           {| Controller.image := JString sample_image |}
           (world_ok lost_image_response) sample_service
           (success_result (normalized (world_ok lost_image_response)
                              lost_image_response)) 1).
  - vm_compute. reflexivity.
  - vm_compute. do 4 right. left. reflexivity.
Defined.
